(** * ytsummary: a shallow embedding of the two-phase ingestion pipeline

    The development follows [ytsummary.py] (the program the specification
    describes) and, in [Module Legacy], the parts of the older variant
    [youtube_summarizer.py] that differ from it.

    Conventions of the embedding:
    - Python [str] is [string]; a character is a code point below 256.
    - A [datetime] is the number of seconds since the epoch, in [Z].
    - A file-system path is the list of its components, so that
      [os.path.join a b] is [a ++ [b]].
    - The external collaborators (metadata service, subtitle extractor,
      completion service) are fields of a [world] record; the file system
      and the console are threaded explicitly through the pipeline. *)

From Stdlib Require Import ZArith Ascii String DecimalString DecimalNat.
From stdpp Require Import base option list gmap strings.

Local Open Scope Z_scope.

(* ===================================================================== *)
(** * Python string primitives *)
(* ===================================================================== *)

Module PyStr.

  (** [str.isspace] on one code point below 256. *)
Definition is_space (c : ascii) : bool :=
    match c with
    | "009" | "010" | "011" | "012" | "013"
    | "028" | "029" | "030" | "031" | " " | "133" | "160" => true
    | _ => false
    end%char.

  (** [str.isdigit] on one code point below 256: the ten ASCII digits and
      the superscripts two, three and one. *)
Definition is_digit (c : ascii) : bool :=
    match c with
    | "0" | "1" | "2" | "3" | "4" | "5" | "6" | "7" | "8" | "9"
    | "178" | "179" | "185" => true
    | _ => false
    end%char.

  (** Truthiness of a [str]. *)
Definition truthy (s : string) : bool :=
    match s with EmptyString => false | String _ _ => true end.

Fixpoint lstrip (s : string) : string :=
    match s with
    | EmptyString => EmptyString
    | String c s' => if is_space c then lstrip s' else s
    end.

Fixpoint rstrip (s : string) : string :=
    match s with
    | EmptyString => EmptyString
    | String c s' =>
        match rstrip s' with
        | EmptyString => if is_space c then EmptyString else String c EmptyString
        | r => String c r
        end
    end.

  (** [s.strip()] *)
Definition strip (s : string) : string := rstrip (lstrip s).

  (** [s.startswith(p)] *)
Fixpoint startswith (p s : string) : bool :=
    match p, s with
    | EmptyString, _ => true
    | String a p', String b s' => if decide (a = b) then startswith p' s' else false
    | String _ _, EmptyString => false
    end.

  (** [p in s] *)
Fixpoint contains (p s : string) : bool :=
    startswith p s ||
    match s with
    | EmptyString => false
    | String _ s' => contains p s'
    end.

  (** [s.isdigit()]: at least one character, and every character a digit. *)
Fixpoint all_digits (s : string) : bool :=
    match s with
    | EmptyString => true
    | String c s' => is_digit c && all_digits s'
    end.

Definition isdigit (s : string) : bool := truthy s && all_digits s.

  (** [s.replace(old, '')] for a non-empty [old]: scan left to right; at an
      occurrence of [old] skip its characters, otherwise copy one
      character.  [skip] counts the characters of a match still to drop. *)
Fixpoint remove_from (old : string) (skip : nat) (s : string) : string :=
    match s with
    | EmptyString => EmptyString
    | String c s' =>
        match skip with
        | S k => remove_from old k s'
        | O =>
            if startswith old s
            then remove_from old (Nat.pred (String.length old)) s'
            else String c (remove_from old O s')
        end
    end.

Definition remove (old s : string) : string := remove_from old O s.

  (** [s.split('\n')] *)
Fixpoint split_lines (s : string) : list string :=
    match s with
    | EmptyString => [EmptyString]
    | String c s' =>
        if decide (c = "010"%char) then EmptyString :: split_lines s'
        else match split_lines s' with
             | h :: t => String c h :: t
             | [] => [String c EmptyString]
             end
    end.

  (** [sep.join(l)] *)
Fixpoint join (sep : string) (l : list string) : string :=
    match l with
    | [] => EmptyString
    | [x] => x
    | x :: l' => x +:+ sep +:+ join sep l'
    end.

  (** [s.split(sep)] for a one-character separator. *)
Fixpoint split_on (sep : ascii) (s : string) : list string :=
    match s with
    | EmptyString => [EmptyString]
    | String c s' =>
        if decide (c = sep) then EmptyString :: split_on sep s'
        else match split_on sep s' with
             | h :: t => String c h :: t
             | [] => [String c EmptyString]
             end
    end.

End PyStr.

(* ===================================================================== *)
(** * Transcript Extractor Adapter: the subtitle parser of [get_transcript] *)
(* ===================================================================== *)

Module Vtt.
Import PyStr.

  (** The condition of the [if] at ytsummary.py:224-228, on the stripped line. *)
Definition is_text_line (line : string) : bool :=
    truthy line
    && negb (startswith "WEBVTT" line)
    && negb (startswith "NOTE" line)
    && negb (contains "-->" line)
    && negb (isdigit line).

  (** The three chained pairs of [replace] calls, ytsummary.py:230-232. *)
Definition clean (line : string) : string :=
    let clean_line := remove "</c>" (remove "<c>" line) in
    let clean_line := remove "</i>" (remove "<i>" clean_line) in
    remove "</b>" (remove "<b>" clean_line).

  (** One iteration of [for line in lines], with [transcript_text] as the
      accumulator. *)
Definition parse_line (transcript_text : list string) (line : string) : list string :=
    let line := strip line in
    if is_text_line line then
      let clean_line := clean line in
      if truthy clean_line then transcript_text ++ [clean_line] else transcript_text
    else transcript_text.

Definition parse_lines (lines : list string) : list string :=
    fold_left parse_line lines [].

  (** The text [get_transcript] returns for a subtitle payload [content]. *)
Definition parse (content : string) : string :=
    join " " (parse_lines (split_lines content)).

End Vtt.

(* ===================================================================== *)
(** * The subtitle parser as the specification words it *)
(* ===================================================================== *)

(** A second, declarative definition of the parser, written from the
    specification and not from the code: classify every (trimmed) line,
    drop the discarded classes, strip the styling tags of what remains and
    join the texts with single spaces.  [parse] discards exactly the four
    classes the specification names; [parse_amended] also discards comment
    lines. *)
Module VttSpec.
Import PyStr.

Definition is_header (line : string) : bool := startswith "WEBVTT" line.
Definition is_comment (line : string) : bool := startswith "NOTE" line.
Definition is_timing (line : string) : bool := contains "-->" line.
Definition is_blank (line : string) : bool := negb (truthy line).
Definition is_cue_index (line : string) : bool := isdigit line.

Definition discarded (line : string) : bool :=
  is_header line || is_timing line || is_blank line || is_cue_index line.

Definition discarded_amended (line : string) : bool :=
  discarded line || is_comment line.

(** Bold, italic and speaker-colour markers, opening and closing. *)
Definition tags : list string := ["<c>"; "</c>"; "<i>"; "</i>"; "<b>"; "</b>"].

Definition strip_tags (line : string) : string :=
  fold_left (λ text tag, remove tag text) tags line.

Definition cue_texts (drop : string → bool) (lines : list string) : list string :=
  filter (λ text, truthy text = true)
    (strip_tags <$> filter (λ line, drop line = false) (strip <$> lines)).

Definition parse (content : string) : string :=
  join " " (cue_texts discarded (split_lines content)).

Definition parse_amended (content : string) : string :=
  join " " (cue_texts discarded_amended (split_lines content)).

End VttSpec.

(* ===================================================================== *)
(** * Data model and external collaborators *)
(* ===================================================================== *)

(** The video dictionaries built by [get_channel_videos] and
    [get_video_details].  A key that a dictionary may lack is an [option]. *)
Record video := Video {
  id : string;
  title : string;
  published_at : Z;
  is_live_content : option bool;
  channel_id : option string;
  channel_title : option string
}.

(** One entry of a [playlistItems().list] response. *)
Record playlist_item := PlaylistItem {
  item_video_id : string;
  item_title : string;
  item_published_at : Z
}.

(** The item of a [videos().list(part='snippet,liveStreamingDetails')]
    response; [api_live] says whether the key [liveStreamingDetails] is
    present. *)
Record api_video := ApiVideo {
  api_title : string;
  api_published_at : Z;
  api_live : bool;
  api_channel_id : string;
  api_channel_title : string
}.

Inductive read_result :=
| ReadOk (text : string)
| ReadNotFound
| ReadError (e : string).

Inductive completion :=
| Completed (content : option string)
| Raised (e : string).

(** Everything outside the process.  An upload listing is the sequence of
    pages the service serves, first page apart; a response carries a
    [nextPageToken] exactly when a later page exists.  The two channel
    lookups, [get_channel_id_from_handle] and [get_channel_handle_from_id],
    are taken as the functions they compute from the service's answers. *)
Record world := World {
  now : Z;
  show_datetime : Z → string;
  get_channel_id_from_handle : string → option string;
  uploads : string → option (list playlist_item * list (list playlist_item));
  live_details : list string → list (string * bool);
  video_lookup : string → option api_video;
  get_channel_handle_from_id : string → option string;
  subtitles : string → option string;
  read_prompt : string → read_result;
  complete : string → string → completion;
  folder_stamp : string
}.

Record args := Args {
  raw_inputs : list string;
  days : Z;
  video_ids : bool;
  prompt : string;
  model : string;
  include_previous : bool
}.

(** Step 2 of [main], ytsummary.py:470-471: the positional arguments are
    joined with spaces, split at commas, and each piece is trimmed. *)
Definition inputs (a : args) : list string :=
  PyStr.strip <$> PyStr.split_on "," (PyStr.join " " (raw_inputs a)).

Inductive api_call :=
| ChannelsList (channel : string)
| PlaylistItemsList (page : nat)
| VideosList (ids : list string).

Definition nl : string := String "010" EmptyString.

(* ===================================================================== *)
(** * Video Resolver *)
(* ===================================================================== *)

Module Resolver.
Section WithWorld.
Variable w : world.

Section Channel.
Variable channel : string.
Variable cutoff_date : Z.

      (** The [for item in playlist_response['items']] loop with its
          [break], ytsummary.py:122-137. *)
Fixpoint scan_page (items : list playlist_item)
          (video_ids_batch : list string) (video_items_map : gmap string video)
          : list string * gmap string video :=
        match items with
        | [] => (video_ids_batch, video_items_map)
        | item :: rest =>
            if bool_decide (cutoff_date ≤ item_published_at item) then
              let video_id := item_video_id item in
              scan_page rest (video_ids_batch ++ [video_id])
                (<[video_id := Video video_id (item_title item) (item_published_at item)
                                  None None None]> video_items_map)
            else (video_ids_batch, video_items_map)
        end.

      (** The [for video_detail in video_details_response['items']] loop,
          ytsummary.py:148-158.  [None] is the [KeyError] of a detail whose
          id is not in [video_items_map]. *)
Fixpoint filter_live (details : list (string * bool))
          (video_items_map : gmap string video) (videos : list video)
          : option (list video) :=
        match details with
        | [] => Some videos
        | (video_id, is_live) :: rest =>
            match video_items_map !! video_id with
            | None => None
            | Some v =>
                if negb is_live then
                  let v' := Video (id v) (title v) (published_at v)
                                  (Some false) (Some channel) (channel_title v) in
                  filter_live rest (<[video_id := v']> video_items_map) (videos ++ [v'])
                else filter_live rest video_items_map videos
            end
        end.

      (** The [while True] loop, ytsummary.py:109-166: [page] is the response
          to the request just made, [later] the pages behind its
          [nextPageToken]. *)
Fixpoint fetch (page : list playlist_item) (later : list (list playlist_item))
          (n : nat) (videos : list video) (calls : list api_call)
          : option (list video) * list api_call :=
        let calls := calls ++ [PlaylistItemsList n] in
        let '(video_ids_batch, video_items_map) := scan_page page [] ∅ in
        let '(filtered, calls) :=
          match video_ids_batch with
          | [] => (Some videos, calls)
          | _ :: _ =>
              (filter_live (live_details w video_ids_batch) video_items_map videos,
               calls ++ [VideosList video_ids_batch])
          end in
        match filtered with
        | None => (None, calls)
        | Some videos =>
            match video_ids_batch with
            | [] => (Some videos, calls)
            | _ :: _ =>
                match later with
                | [] => (Some videos, calls)
                | next :: later' => fetch next later' (S n) videos calls
                end
            end
        end.

      (** [get_channel_videos], with the requests it made.  Any exception
          makes it return the empty list. *)
Definition get_channel_videos_calls : list video * list api_call :=
        match uploads w channel with
        | None => ([], [ChannelsList channel])
        | Some (first, later) =>
            match fetch first later O [] [ChannelsList channel] with
            | (Some videos, calls) => (videos, calls)
            | (None, calls) => ([], calls)
            end
        end.

Definition get_channel_videos : list video := fst get_channel_videos_calls.

End Channel.

    (** [get_video_details], ytsummary.py:281-322. *)
Definition get_video_details (video_id : string) : option video :=
      match video_lookup w video_id with
      | Some item =>
          Some (Video video_id (api_title item) (api_published_at item)
                      (Some (api_live item)) (Some (api_channel_id item))
                      (Some (api_channel_title item)))
      | None => None
      end.

Variable a : args.

Definition cutoff_date : Z := now w - days a * 86400.

    (** Body of [for video_id in inputs], ytsummary.py:489-508. *)
Definition add_video_id (all_videos : list video) (video_id : string) : list video :=
      match get_video_details video_id with
      | Some video_details =>
          if default false (is_live_content video_details) then all_videos
          else if negb (video_ids a) && bool_decide (0 < days a)
                  && bool_decide (published_at video_details < cutoff_date)
          then all_videos
          else all_videos ++ [video_details]
      | None => all_videos
      end.

    (** Body of [for channel_handle in inputs], ytsummary.py:512-532. *)
Definition add_channel (all_videos : list video) (channel_handle : string) : list video :=
      match get_channel_id_from_handle w channel_handle with
      | Some channel =>
          if PyStr.truthy channel then
            match get_channel_videos channel cutoff_date with
            | [] => all_videos
            | videos => all_videos ++ videos
            end
          else all_videos
      | None => all_videos
      end.

    (** Step 4 of [main]: the list [all_videos]. *)
Definition collect : list video :=
      if video_ids a then fold_left add_video_id (inputs a) []
      else fold_left add_channel (inputs a) [].

End WithWorld.
End Resolver.


(* ===================================================================== *)
(** * Artifact Store *)
(* ===================================================================== *)

Abbreviation path := (list string).

(** The part of the file system the program looks at: the entries of the
    directory [processed] in [os.listdir] order, each with the answer of
    [os.path.isdir] ([None] when the directory does not exist), and the
    regular files with their contents. *)
Record filesystem := Filesystem {
  processed_entries : option (list (string * bool));
  files : gmap path string
}.

Module Store.
Import PyStr.

Definition processed_dir : path := ["processed"].

Definition transcript_path (folder : path) (video_id : string) : path :=
  folder ++ ["transcripts"; video_id +:+ "_transcript.txt"].

Definition summary_path (folder : path) (video_id : string) : path :=
  folder ++ ["summaries"; video_id +:+ "_summary.md"].

(** [os.path.exists] of a file path. *)
Definition file_exists (fs : filesystem) (p : path) : bool :=
  bool_decide (is_Some (files fs !! p)).

(** The test of ytsummary.py:423-428 on a directory name. *)
Definition is_datetime_name (item : string) : bool :=
  match split_on "_" item with
  | date_part :: time_part :: _ =>
      bool_decide (String.length date_part = 6%nat) && isdigit date_part
      && bool_decide (String.length time_part = 4%nat) && isdigit time_part
  | _ => false
  end.

(** Body of [for item in os.listdir(processed_dir)], ytsummary.py:419-429. *)
Definition add_datetime_folder (current_datetime_folder : path)
    (datetime_folders : list path) (entry : string * bool) : list path :=
  let '(item, isdir) := entry in
  let item_path := processed_dir ++ [item] in
  if isdir && bool_decide (item_path ≠ current_datetime_folder) && is_datetime_name item
  then datetime_folders ++ [item_path]
  else datetime_folders.

(** The [for folder in datetime_folders] loop, ytsummary.py:432-440. *)
Fixpoint search_folders (fs : filesystem) (video_id : string)
    (datetime_folders : list path) : option path * option path :=
  match datetime_folders with
  | [] => (None, None)
  | folder :: rest =>
      let transcript_path := transcript_path folder video_id in
      let summary_path := summary_path folder video_id in
      if file_exists fs transcript_path then
        (Some transcript_path,
         if file_exists fs summary_path then Some summary_path else None)
      else search_folders fs video_id rest
  end.

Definition find_existing_transcript (fs : filesystem) (video_id : string)
    (current_datetime_folder : path) : option path * option path :=
  match processed_entries fs with
  | None => (None, None)
  | Some entries =>
      search_folders fs video_id
        (fold_left (add_datetime_folder current_datetime_folder) entries [])
  end.

(** [str(counter)] *)
Definition show_nat (n : nat) : string :=
  DecimalString.NilEmpty.string_of_uint (Nat.to_uint n).

Definition folder_candidate (base_folder_name : string) (counter : nat) : string :=
  match counter with
  | O => base_folder_name
  | S _ => base_folder_name +:+ "_" +:+ show_nat counter
  end.

(** The [while os.path.exists(folder_name)] loop of
    [create_datetime_folder]; [fuel] bounds the iterations.  With one more
    unit of fuel than there are names the loop ends on a free name before
    the fuel does (lemma [first_free_is_free]). *)
Fixpoint first_free (names : list string) (base_folder_name : string)
    (counter fuel : nat) : string :=
  match fuel with
  | O => folder_candidate base_folder_name counter
  | S fuel' =>
      if bool_decide (folder_candidate base_folder_name counter ∈ names)
      then first_free names base_folder_name (S counter) fuel'
      else folder_candidate base_folder_name counter
  end.

(** [create_datetime_folder]: the new run root and the file system with the
    directory created.  Where [os.listdir] will list the new directory is
    not specified; the model puts it last. *)
Definition create_datetime_folder (base_folder_name : string) (fs : filesystem)
    : path * filesystem :=
  let entries := default [] (processed_entries fs) in
  let name := first_free entries.*1 base_folder_name O (S (length entries)) in
  (processed_dir ++ [name],
   Filesystem (Some (entries ++ [(name, true)])) (files fs)).

End Store.

(* ===================================================================== *)
(** * Summarization Adapter *)
(* ===================================================================== *)

Module Summarizer.

(** [summarize_with_openrouter], ytsummary.py:324-365.  [None] is a
    completion whose message content is [None]. *)
Definition summarize_with_openrouter (w : world) (transcript prompt_file model : string)
    : option string :=
  match read_prompt w prompt_file with
  | ReadNotFound =>
      Some ("Error: " +:+ prompt_file +:+
            " file not found. Please ensure the prompt file exists in the project directory.")
  | ReadError e => Some ("Error reading " +:+ prompt_file +:+ ": " +:+ e)
  | ReadOk text =>
      let prompt_template := PyStr.strip text in
      let prompt := prompt_template +:+ nl +:+ nl +:+ "---" +:+ nl +:+ nl +:+ transcript in
      match complete w model prompt with
      | Completed content => content
      | Raised e => Some ("An error occurred during summarization: " +:+ e)
      end
  end.

(** The success test of ytsummary.py:620. *)
Definition summary_ok (summary : option string) : bool :=
  match summary with
  | None => false
  | Some s =>
      PyStr.truthy s
      && negb (PyStr.startswith "Error:" s)
      && negb (PyStr.startswith "An error occurred" s)
  end.

End Summarizer.

(* ===================================================================== *)
(** * Pipeline Orchestrator *)
(* ===================================================================== *)

(** Lines the orchestrator prints about one video. *)
Inductive message :=
| ProcessingTranscript (video_id : string)
| FoundExistingTranscript (p : path)
| CopiedExistingTranscript (video_id : string)
| TranscriptSaved (p : path)
| CouldNotRetrieveTranscript (video_id : string)
| ProcessingSummary (video_id : string)
| SummaryAlreadyExists (p : path)
| NoTranscriptFile (video_id : string)
| SummarySaved (p : path)
| FailedToGenerateSummary (video_id : string) (summary : option string)
| TranscriptAlreadyExists (p : path)
| NoVideosFound.

(** What a run does to the outside, in order. *)
Inductive event :=
| Copy (src dst : path)
| Extract (video_id : string)
| Write (p : path) (text : string)
| Summarize (video_id transcript : string)
| Print (m : message).

#[global] Instance message_eq_dec : EqDecision message.
Proof. solve_decision. Defined.

#[global] Instance event_eq_dec : EqDecision event.
Proof. solve_decision. Defined.

Record state := State {
  disk : filesystem;
  log : list event
}.

(** The final block printed by [main], ytsummary.py:646-662. *)
Record report := Report {
  processed_count : nat;
  skipped_count : nat;
  summarized_count : nat;
  summarized_line : option string;
  skipped_line : option string
}.

Module Pipeline.
Import PyStr Store Summarizer.

Definition emit (e : event) (s : state) : state :=
  State (disk s) (log s ++ [e]).

Definition say (m : message) (s : state) : state := emit (Print m) s.

Definition put (p : path) (text : string) (fs : filesystem) : filesystem :=
  Filesystem (processed_entries fs) (<[p := text]> (files fs)).

(** [open(p, 'w').write(text)] *)
Definition write_file (p : path) (text : string) (s : state) : state :=
  State (put p text (disk s)) (log s ++ [Write p text]).

(** [shutil.copy2(src, dst)]; the source is a path that
    [find_existing_transcript] has just found to exist. *)
Definition copy2 (src dst : path) (s : state) : state :=
  match files (disk s) !! src with
  | Some text => State (put dst text (disk s)) (log s ++ [Copy src dst])
  | None => s
  end.

Section Run.
Variable w : world.
Variable a : args.
Variable datetime_folder : path.

(** [get_transcript]: [None] when no subtitle file was produced or an
    exception was caught. *)
Definition get_transcript (video_id : string) : option string :=
  Vtt.parse <$> subtitles w video_id.

(** Body of the Phase 1 loop, ytsummary.py:547-582. *)
Definition phase1_step (acc : state * list string) (v : video) : state * list string :=
  let '(s, processed_video_ids) := acc in
  let s := say (ProcessingTranscript (id v)) s in
  let transcript_filename := transcript_path datetime_folder (id v) in
  let summary_filename := summary_path datetime_folder (id v) in
  match find_existing_transcript (disk s) (id v) datetime_folder with
  | (Some existing_transcript_path, existing_summary_path) =>
      let s := say (FoundExistingTranscript existing_transcript_path) s in
      let s := copy2 existing_transcript_path transcript_filename s in
      let s :=
        match existing_summary_path with
        | Some existing_summary_path =>
            if include_previous a then copy2 existing_summary_path summary_filename s else s
        | None => s
        end in
      (say (CopiedExistingTranscript (id v)) s, processed_video_ids ++ [id v])
  | (None, _) =>
      let s := emit (Extract (id v)) s in
      match get_transcript (id v) with
      | Some transcript =>
          if truthy transcript then
            let s := write_file transcript_filename transcript s in
            (say (TranscriptSaved transcript_filename) s, processed_video_ids ++ [id v])
          else (say (CouldNotRetrieveTranscript (id v)) s, processed_video_ids)
      | None => (say (CouldNotRetrieveTranscript (id v)) s, processed_video_ids)
      end
  end.

Definition phase1 (all_videos : list video) (s : state) : state * list string :=
  fold_left phase1_step all_videos (s, []).

(** The text written to a summary file, ytsummary.py:627-635. *)
Definition summary_text (v : video) (channel_handle : option string) (summary : string)
    : string :=
  "Video Title: " +:+ title v +:+ nl +:+
  match channel_handle with
  | Some h => if truthy h then "Channel Handle: " +:+ h +:+ nl else ""
  | None => ""
  end +:+
  "Video ID: " +:+ id v +:+ nl +:+
  "Published At: " +:+ show_datetime w (published_at v) +:+ nl +:+
  "Summary Generated At: " +:+ show_datetime w (now w) +:+ nl +:+
  "--------------------------------------------------" +:+ nl +:+ nl +:+
  summary.

(** Body of the Phase 2 loop, ytsummary.py:590-644. *)
Definition phase2_step (skipped_video_ids : list string)
    (acc : state * list string) (v : video) : state * list string :=
  let '(s, summarized_video_ids) := acc in
  if bool_decide (id v ∈ skipped_video_ids) then acc
  else
    let s := say (ProcessingSummary (id v)) s in
    let transcript_filename := transcript_path datetime_folder (id v) in
    let summary_filename := summary_path datetime_folder (id v) in
    if file_exists (disk s) summary_filename then
      (say (SummaryAlreadyExists summary_filename) s, summarized_video_ids ++ [id v])
    else
      match files (disk s) !! transcript_filename with
      | None => (say (NoTranscriptFile (id v)) s, summarized_video_ids)
      | Some transcript =>
          let s := emit (Summarize (id v) transcript) s in
          let summary := summarize_with_openrouter w transcript (prompt a) (model a) in
          if summary_ok summary then
            let channel_handle :=
              match channel_id v with
              | Some c => get_channel_handle_from_id w c
              | None => None
              end in
            let s := write_file summary_filename
                       (summary_text v channel_handle (default "" summary)) s in
            (say (SummarySaved summary_filename) s, summarized_video_ids ++ [id v])
          else (say (FailedToGenerateSummary (id v) summary) s, summarized_video_ids)
      end.

Definition phase2 (skipped_video_ids : list string) (all_videos : list video)
    (s : state) : state * list string :=
  fold_left (phase2_step skipped_video_ids) all_videos (s, []).

(** [if ids: print(','.join(ids))] *)
Definition id_line (ids : list string) : option string :=
  match ids with
  | [] => None
  | _ :: _ => Some (join "," ids)
  end.

(** Steps 5 and 6 of [main] and the final report, ytsummary.py:540-662.
    [skipped_video_ids] is created empty at line 545 and no statement adds
    to it. *)
Definition run_phases (all_videos : list video) (s : state) : state * report :=
  let skipped_video_ids : list string := [] in
  let '(s, processed_video_ids) := phase1 all_videos s in
  let '(s, summarized_video_ids) := phase2 skipped_video_ids all_videos s in
  (s, Report (length processed_video_ids) (length skipped_video_ids)
             (length summarized_video_ids)
             (id_line summarized_video_ids) (id_line skipped_video_ids)).

End Run.

(** [main], from the creation of the run root on (both credentials set). *)
Definition main (w : world) (a : args) (fs : filesystem) : state * option report :=
  let '(datetime_folder, fs) := create_datetime_folder (folder_stamp w) fs in
  let s := State fs [] in
  match Resolver.collect w a with
  | [] => (say NoVideosFound s, None)
  | all_videos =>
      let '(s, r) := run_phases w a datetime_folder all_videos s in
      (s, Some r)
  end.

End Pipeline.

(* ===================================================================== *)
(** * The older variant, [youtube_summarizer.py] *)
(* ===================================================================== *)

(** A run of the older variant either is still going or has stopped on an
    exception that nothing catches. *)
Inductive outcome :=
| Running (s : state)
| Crashed (s : state).

Module Legacy.
Import PyStr Summarizer.

Section WithWorld.
Variable w : world.

(** The [for item in playlist_response['items']] loop,
    youtube_summarizer.py:115-128; the flag says that [return videos] was
    reached. *)
Fixpoint scan_page (cutoff_date : Z) (items : list playlist_item) (videos : list video)
    : list video * bool :=
  match items with
  | [] => (videos, false)
  | item :: rest =>
      if bool_decide (cutoff_date ≤ item_published_at item) then
        scan_page cutoff_date rest
          (videos ++ [Video (item_video_id item) (item_title item)
                            (item_published_at item) None None None])
      else (videos, true)
  end.

(** The [while True] loop, youtube_summarizer.py:106-133. *)
Fixpoint fetch (cutoff_date : Z) (page : list playlist_item)
    (later : list (list playlist_item)) (n : nat) (videos : list video)
    (calls : list api_call) : list video * list api_call :=
  let calls := calls ++ [PlaylistItemsList n] in
  let '(videos, returned) := scan_page cutoff_date page videos in
  if returned then (videos, calls)
  else
    match later with
    | [] => (videos, calls)
    | next :: later' => fetch cutoff_date next later' (S n) videos calls
    end.

Definition get_channel_videos_calls (channel : string) (cutoff_date : Z)
    : list video * list api_call :=
  match uploads w channel with
  | None => ([], [ChannelsList channel])
  | Some (first, later) => fetch cutoff_date first later O [] [ChannelsList channel]
  end.

Definition get_channel_videos (channel : string) (cutoff_date : Z) : list video :=
  fst (get_channel_videos_calls channel cutoff_date).

(** [get_video_details], youtube_summarizer.py:208-243. *)
Definition get_video_details (video_id : string) : option video :=
  match video_lookup w video_id with
  | Some item =>
      Some (Video video_id (api_title item) (api_published_at item) None None None)
  | None => None
  end.

Variable a : args.

Definition cutoff_date : Z := now w - days a * 86400.

(** Body of [for video_id in inputs], youtube_summarizer.py:333-346. *)
Definition add_video_id (all_videos : list video) (video_id : string) : list video :=
  match get_video_details video_id with
  | Some video_details =>
      if bool_decide (0 < days a) && bool_decide (published_at video_details < cutoff_date)
      then all_videos
      else all_videos ++ [video_details]
  | None => all_videos
  end.

(** Body of [for channel_handle in inputs], youtube_summarizer.py:350-370. *)
Definition add_channel (all_videos : list video) (channel_handle : string) : list video :=
  match get_channel_id_from_handle w channel_handle with
  | Some channel =>
      if truthy channel then
        match get_channel_videos channel cutoff_date with
        | [] => all_videos
        | videos => all_videos ++ videos
        end
      else all_videos
  | None => all_videos
  end.

Definition collect : list video :=
  if video_ids a then fold_left add_video_id (inputs a) []
  else fold_left add_channel (inputs a) [].

Definition transcript_filename (video_id : string) : path :=
  ["transcripts"; video_id +:+ "_transcript.txt"].

Definition summary_filename (video_id : string) : path :=
  ["summaries"; video_id +:+ "_summary.md"].

(** Body of the Phase 1 loop, youtube_summarizer.py:384-406. *)
Definition phase1_step (acc : state * list string) (v : video) : state * list string :=
  let '(s, current_run_transcript_files) := acc in
  let s := Pipeline.say (ProcessingTranscript (id v)) s in
  let transcript_file_basename := id v +:+ "_transcript.txt" in
  if Store.file_exists (disk s) (transcript_filename (id v)) then
    (Pipeline.say (TranscriptAlreadyExists (transcript_filename (id v))) s,
     current_run_transcript_files ++ [transcript_file_basename])
  else
    let s := Pipeline.emit (Extract (id v)) s in
    match Vtt.parse <$> subtitles w (id v) with
    | Some transcript =>
        if truthy transcript then
          let s := Pipeline.write_file (transcript_filename (id v)) transcript s in
          (Pipeline.say (TranscriptSaved (transcript_filename (id v))) s,
           current_run_transcript_files ++ [transcript_file_basename])
        else (Pipeline.say (CouldNotRetrieveTranscript (id v)) s,
              current_run_transcript_files)
    | None => (Pipeline.say (CouldNotRetrieveTranscript (id v)) s,
               current_run_transcript_files)
    end.

Definition phase1 (all_videos : list video) (s : state) : state * list string :=
  fold_left phase1_step all_videos (s, []).

Definition summary_header (v : video) : string :=
  "Video Title: " +:+ title v +:+ nl +:+
  "Video ID: " +:+ id v +:+ nl +:+
  "Published At: " +:+ show_datetime w (published_at v) +:+ nl +:+
  "Summary Generated At: " +:+ show_datetime w (now w) +:+ nl +:+
  "--------------------------------------------------" +:+ nl +:+ nl.

(** Body of the Phase 2 loop, youtube_summarizer.py:414-449.  Whatever the
    summarizer returns is written; a [None] makes [f.write] raise after the
    header has been written. *)
Definition phase2_step (acc : outcome) (v : video) : outcome :=
  match acc with
  | Crashed s => Crashed s
  | Running s =>
      let s := Pipeline.say (ProcessingSummary (id v)) s in
      if Store.file_exists (disk s) (summary_filename (id v)) then
        Running (Pipeline.say (SummaryAlreadyExists (summary_filename (id v))) s)
      else
        match files (disk s) !! transcript_filename (id v) with
        | None => Running (Pipeline.say (NoTranscriptFile (id v)) s)
        | Some transcript =>
            let s := Pipeline.emit (Summarize (id v) transcript) s in
            match summarize_with_openrouter w transcript (prompt a)
                    "qwen/qwen3-30b-a3b-instruct-2507" with
            | Some summary =>
                let s := Pipeline.write_file (summary_filename (id v))
                           (summary_header v +:+ summary) s in
                Running (Pipeline.say (SummarySaved (summary_filename (id v))) s)
            | None =>
                Crashed (Pipeline.write_file (summary_filename (id v)) (summary_header v) s)
            end
        end
  end.

Definition phase2 (all_videos : list video) (s : state) : outcome :=
  fold_left phase2_step all_videos (Running s).

End WithWorld.
End Legacy.

(* ===================================================================== *)
(** * Concrete scenarios *)
(* ===================================================================== *)

Module Scenario.

Definition day : Z := 86400.

(** The clock of the scenarios: day 100. *)
Definition today : Z := 100 * day.

Definition lookup (video_id : string) : option api_video :=
  if decide (video_id = "V1") then Some (ApiVideo "one" (today - 10) false "UCA" "Chan A")
  else if decide (video_id = "V2") then Some (ApiVideo "two" (today - 20) false "UCA" "Chan A")
  else if decide (video_id = "E1") then Some (ApiVideo "mute" (today - 30) false "UCA" "Chan A")
  else if decide (video_id = "OLD") then Some (ApiVideo "old" (today - 5 * day) false "UCA" "Chan A")
  else if decide (video_id = "L1") then Some (ApiVideo "live" (today - 40) true "UCA" "Chan A")
  else None.

Definition captions (video_id : string) : option string :=
  if decide (video_id = "V1") then Some ("WEBVTT" +:+ nl +:+ nl +:+ "hello there")
  else if decide (video_id = "E1") then
    Some ("WEBVTT" +:+ nl +:+ nl +:+ "1" +:+ nl +:+ "00:00.000 --> 00:01.000" +:+ nl +:+ "<c></c>")
  else None.

(** The upload listing of channel [UCA]: a first page with a recent video
    followed by one from five days ago, and a second page behind its
    [nextPageToken]. *)
Definition listing (channel : string)
    : option (list playlist_item * list (list playlist_item)) :=
  if decide (channel = "UCA") then
    Some ([PlaylistItem "V1" "one" (today - 10); PlaylistItem "OLD" "old" (today - 5 * day)],
          [[PlaylistItem "OLDER" "older" (today - 6 * day)]])
  else None.

Definition world_ok : world :=
  World today (λ _, "2024-01-01 00:00:00")
        (λ h, if decide (h = "@chanA") then Some "UCA" else None)
        listing
        (λ ids, (λ i, (i, bool_decide (i = "L1"))) <$> ids)
        lookup
        (λ _, Some "@chanA")
        captions
        (λ _, ReadOk "Summarize this.")
        (λ _ _, Completed (Some "A short summary."))
        "010124_1200".

(** The same world without the prompt file. *)
Definition world_no_prompt : world :=
  World today (show_datetime world_ok) (get_channel_id_from_handle world_ok) listing
        (live_details world_ok) lookup (get_channel_handle_from_id world_ok) captions
        (λ _, ReadNotFound) (complete world_ok) "010124_1200".

(** The command line [--video-ids <ids>] with the defaults, the ids given as
    one comma-separated argument. *)
Definition args_ids (ids : list string) : args :=
  Args [PyStr.join "," ids] 1 true "prompt.txt" "qwen/qwen3-30b-a3b-instruct-2507" false.

(** The command line [<handles>] with the defaults. *)
Definition args_channels (handles : list string) : args :=
  Args [PyStr.join "," handles] 1 false "prompt.txt" "qwen/qwen3-30b-a3b-instruct-2507" false.

(** A payload with a cue whose first text line starts with the word NOTE. *)
Definition payload_with_note : string :=
  "WEBVTT" +:+ nl +:+ nl +:+ "00:00.000 --> 00:02.000" +:+ nl
  +:+ "NOTE the exit" +:+ nl +:+ "on your left".

Definition empty_disk : filesystem := Filesystem None ∅.

Definition root : path := ["processed"; "010124_1200"].

(** A disk holding one earlier run, with a transcript of [V1] and no
    summary. *)
Definition prior_transcript : path :=
  ["processed"; "123123_0900"; "transcripts"; "V1_transcript.txt"].

Definition disk_with_prior : filesystem :=
  Filesystem (Some [("123123_0900", true)]) {[ prior_transcript := "earlier words" ]}.

End Scenario.

(* ===================================================================== *)
(** * Observations on a run *)
(* ===================================================================== *)

Module Obs.
Import Store.

(** The file an event creates or replaces. *)
Definition produced (e : event) : option path :=
  match e with
  | Copy _ dst => Some dst
  | Write p _ => Some p
  | _ => None
  end.

Definition written_paths (l : list event) : list path := omap produced l.

(** The videos whose Phase 1 iteration, respectively Phase 2 iteration, the
    log shows, in order. *)
Definition transcript_pass (l : list event) : list string :=
  omap (λ e, match e with Print (ProcessingTranscript i) => Some i | _ => None end) l.

Definition summary_pass (l : list event) : list string :=
  omap (λ e, match e with Print (ProcessingSummary i) => Some i | _ => None end) l.

(** How often the log shows a given event. *)
Definition occurrences (e : event) (l : list event) : nat :=
  length (filter (λ e', e' = e) l).


(** What one raw input contributes to [all_videos]. *)
Definition contribution (w : world) (a : args) (input : string) : list video :=
  if video_ids a then Resolver.add_video_id w a [] input
  else Resolver.add_channel w a [] input.

(** The world in which the extractor finds no subtitles for [video_id]. *)
Definition mute (w : world) (video_id : string) : world :=
  World (now w) (show_datetime w) (get_channel_id_from_handle w) (uploads w) (live_details w)
        (video_lookup w) (get_channel_handle_from_id w)
        (λ i, if decide (i = video_id) then None else subtitles w i)
        (read_prompt w) (complete w) (folder_stamp w).

(** Nothing of the current run exists yet under [folder]. *)
Definition fresh (folder : path) (fs : filesystem) : Prop :=
  ∀ video_id,
    files fs !! transcript_path folder video_id = None
    ∧ files fs !! summary_path folder video_id = None.

(** Every file below [processed] lies in a listed entry of [processed]. *)
Definition listed (fs : filesystem) : Prop :=
  ∀ name rest,
    is_Some (files fs !! (processed_dir ++ name :: rest)) →
    name ∈ (default [] (processed_entries fs)).*1.

(** [fs'] shows the same earlier runs as [fs]: the same directory listing
    and the same artifacts in every folder other than [folder]. *)
Definition same_prior (folder : path) (fs fs' : filesystem) : Prop :=
  processed_entries fs' = processed_entries fs
  ∧ ∀ other video_id, other ≠ folder →
      files fs' !! transcript_path other video_id = files fs !! transcript_path other video_id
      ∧ files fs' !! summary_path other video_id = files fs !! summary_path other video_id.

End Obs.

(* ===================================================================== *)
(** * Channel lookups *)
(* ===================================================================== *)

(** The answers of the metadata service that the two channel lookups read.
    [None] is a request that raises (or a response without the key read). *)
Record channel_snippet := ChannelSnippet {
  customUrl : option string;
  snippet_title : string
}.

Record channel_api := ChannelApi {
  channels_forHandle : string → option (list string);
  channels_forUsername : string → option (list string);
  search_channels : string → option (list (string * string));
  channels_snippet : string → option (list channel_snippet)
}.

Module Handles.
Import PyStr.

(** [str.lower] on one code point below 256: the letters A to Z and the
    accented capitals 192 to 222, the multiplication sign 215 apart. *)
Definition lower_char (c : ascii) : ascii :=
  let n := nat_of_ascii c in
  if (bool_decide (65 ≤ n)%nat && bool_decide (n ≤ 90)%nat)
     || (bool_decide (192 ≤ n)%nat && bool_decide (n ≤ 222)%nat
         && negb (bool_decide (n = 215%nat)))
  then ascii_of_nat (n + 32)
  else c.

(** [s.lower()] *)
Fixpoint lower (s : string) : string :=
  match s with
  | EmptyString => EmptyString
  | String c s' => String (lower_char c) (lower s')
  end.

(** [s[1:]] *)
Definition tail (s : string) : string :=
  match s with
  | EmptyString => EmptyString
  | String _ s' => s'
  end.

(** Lines 25-27: trim, and put the marker in front unless it is there. *)
Definition clean_handle (channel_handle : string) : string :=
  let clean_handle := strip channel_handle in
  if startswith "@" clean_handle then clean_handle else "@" +:+ clean_handle.

(** The test of lines 67-68 on the title of one search hit. *)
Definition title_matches (clean_handle title : string) : bool :=
  contains (lower clean_handle) (lower title)
  || contains (lower (tail clean_handle)) (lower title).

(** The [for item in search_response['items']] loop, lines 65-69. *)
Fixpoint first_match (clean_handle : string) (items : list (string * string))
    : option string :=
  match items with
  | [] => None
  | (title, channelId) :: rest =>
      if title_matches clean_handle title then Some channelId
      else first_match clean_handle rest
  end.

(** The head of a non-empty [items] list of a channels response. *)
Definition first_id (response : option (list string)) : option string :=
  match response with
  | Some (channel :: _) => Some channel
  | _ => None
  end.

(** [get_channel_id_from_handle], ytsummary.py:12-82 (the same text in
    youtube_summarizer.py:10-80). *)
Definition get_channel_id_from_handle (api : channel_api) (channel_handle : string)
    : option string :=
  let clean_handle := clean_handle channel_handle in
  match first_id (channels_forHandle api clean_handle) with
  | Some channel => Some channel
  | None =>
      let handle_without_at := tail clean_handle in
      match first_id (channels_forUsername api handle_without_at) with
      | Some channel => Some channel
      | None =>
          match search_channels api clean_handle with
          | None => None
          | Some items =>
              match first_match clean_handle items with
              | Some channel => Some channel
              | None =>
                  match items with
                  | (_, channelId) :: _ => Some channelId
                  | [] => None
                  end
              end
          end
      end
  end.

(** [get_channel_handle_from_id], ytsummary.py:242-279. *)
Definition get_channel_handle_from_id (api : channel_api) (channel_id : string)
    : option string :=
  match channels_snippet api channel_id with
  | Some (channel_info :: _) =>
      match customUrl channel_info with
      | Some custom_url =>
          if startswith "@" custom_url then Some custom_url
          else Some ("@" +:+ custom_url)
      | None => Some ("@" +:+ snippet_title channel_info)
      end
  | _ => None
  end.

End Handles.

(* ===================================================================== *)
(** * Further vocabulary and scenarios *)
(* ===================================================================== *)

Module Cover.

(** The items of a listing up to the first one older than the cutoff. *)
Fixpoint recent_prefix (cutoff_date : Z) (items : list playlist_item) : list playlist_item :=
  match items with
  | [] => []
  | item :: rest =>
      if bool_decide (cutoff_date ≤ item_published_at item)
      then item :: recent_prefix cutoff_date rest
      else []
  end.

(** The dictionary the older variant builds from a listing item. *)
Definition legacy_video (item : playlist_item) : video :=
  Video (item_video_id item) (item_title item) (item_published_at item) None None None.

(** What naming one video id yields in explicit-id mode of ytsummary.py:
    its details, unless the id is unknown or the video is live content. *)
Definition named_video (w : world) (video_id : string) : option video :=
  match Resolver.get_video_details w video_id with
  | Some video_details =>
      if default false (is_live_content video_details) then None else Some video_details
  | None => None
  end.

(** The test of ytsummary.py:421-428 on one entry of [processed]. *)
Definition is_prior_root (current_datetime_folder : path) (entry : string * bool) : bool :=
  entry.2
  && bool_decide (Store.processed_dir ++ [entry.1] ≠ current_datetime_folder)
  && Store.is_datetime_name entry.1.

(** The run roots of earlier runs, in listing order. *)
Definition prior_roots (fs : filesystem) (current_datetime_folder : path) : list path :=
  (λ entry, Store.processed_dir ++ [entry.1])
    <$> filter (λ entry, is_prior_root current_datetime_folder entry = true)
               (default [] (processed_entries fs)).

(** What Phase 1 puts at the transcript path of a video, ytsummary.py:556-582:
    the transcript an earlier run holds, else the extracted one when it is
    not empty. *)
Definition transcript_source (w : world) (fs : filesystem) (folder : path)
    (video_id : string) : option string :=
  match (Store.find_existing_transcript fs video_id folder).1 with
  | Some existing_transcript_path => files fs !! existing_transcript_path
  | None =>
      match Pipeline.get_transcript w video_id with
      | Some transcript => if PyStr.truthy transcript then Some transcript else None
      | None => None
      end
  end.

(** What Phase 1 puts at the summary path of a video, ytsummary.py:563-566:
    with [--include-previous], the summary found next to the earlier
    transcript. *)
Definition summary_source (a : args) (fs : filesystem) (folder : path)
    (video_id : string) : option string :=
  if include_previous a then
    match (Store.find_existing_transcript fs video_id folder).2 with
    | Some existing_summary_path => files fs !! existing_summary_path
    | None => None
    end
  else None.

(** What Phase 2 writes for a video whose transcript it reads,
    ytsummary.py:611-643: nothing when the success test fails. *)
Definition generated_summary (w : world) (a : args) (v : video) (transcript : string)
    : option string :=
  let summary := Summarizer.summarize_with_openrouter w transcript (prompt a) (model a) in
  if Summarizer.summary_ok summary then
    Some (Pipeline.summary_text w v
            match channel_id v with
            | Some c => get_channel_handle_from_id w c
            | None => None
            end
            (default "" summary))
  else None.

(** The events of the Phase 1 loop, ytsummary.py:547-582. *)
Definition phase1_event (folder : path) (e : event) : Prop :=
  match e with
  | Copy _ dst =>
      ∃ i, dst = Store.transcript_path folder i ∨ dst = Store.summary_path folder i
  | Extract _ => True
  | Write p _ => ∃ i, p = Store.transcript_path folder i
  | Summarize _ _ => False
  | Print m =>
      match m with
      | ProcessingTranscript _ | FoundExistingTranscript _ | CopiedExistingTranscript _
      | TranscriptSaved _ | CouldNotRetrieveTranscript _ => True
      | _ => False
      end
  end.

(** The events of the Phase 2 loop, ytsummary.py:590-644. *)
Definition phase2_event (folder : path) (e : event) : Prop :=
  match e with
  | Summarize _ _ => True
  | Write p _ => ∃ i, p = Store.summary_path folder i
  | Print m =>
      match m with
      | ProcessingSummary _ | SummaryAlreadyExists _ | NoTranscriptFile _
      | SummarySaved _ | FailedToGenerateSummary _ _ => True
      | _ => False
      end
  | _ => False
  end.

(** The dictionary ytsummary.py returns for a listing item of a channel,
    ytsummary.py:129-158. *)
Definition channel_video (channel : string) (item : playlist_item) : video :=
  Video (item_video_id item) (item_title item) (item_published_at item)
        (Some false) (Some channel) None.

(** The world of the scenarios with a completion service that answers
    without content. *)
Definition world_silent : world :=
  World Scenario.today (show_datetime Scenario.world_ok)
        (get_channel_id_from_handle Scenario.world_ok) Scenario.listing
        (live_details Scenario.world_ok) Scenario.lookup
        (get_channel_handle_from_id Scenario.world_ok) Scenario.captions
        (read_prompt Scenario.world_ok) (λ _ _, Completed None) "010124_1200".

(** A metadata service that knows one channel, by handle only through the
    search, and its snippet. *)
Definition api_search_only : channel_api :=
  ChannelApi (λ _, Some []) (λ _, None)
             (λ q, Some [("Cooking with Ann", "UCX"); ("Meet Andrew", "UCA")])
             (λ c, if decide (c = "UCA")
                   then Some [ChannelSnippet (Some "meetandrew") "Meet Andrew"]
                   else Some []).

(** A metadata service whose snippet of [UCA] has a custom URL with the
    marker, and whose snippet of [UCT] has a title only. *)
Definition api_marked : channel_api :=
  ChannelApi (λ _, Some []) (λ _, None) (λ _, Some [])
             (λ c, if decide (c = "UCA")
                   then Some [ChannelSnippet (Some "@meetandrew") "Meet Andrew"]
                   else if decide (c = "UCT")
                   then Some [ChannelSnippet None "@ Talks"]
                   else Some []).

(** A disk with two earlier runs; both hold a transcript of [V1], the
    second also a summary. *)
Definition disk_two_runs : filesystem :=
  Filesystem (Some [("notes", true); ("010124_0900", true); ("010124_1000", true)])
    {[ ["processed"; "010124_0900"; "transcripts"; "V1_transcript.txt"] := "first words";
       ["processed"; "010124_1000"; "transcripts"; "V1_transcript.txt"] := "second words";
       ["processed"; "010124_1000"; "summaries"; "V1_summary.md"] := "second summary" ]}.

(** A disk with one earlier run that holds a transcript and a summary of
    [V1]. *)
Definition disk_with_summary : filesystem :=
  Filesystem (Some [("123123_0900", true)])
    {[ ["processed"; "123123_0900"; "transcripts"; "V1_transcript.txt"] := "earlier words";
       ["processed"; "123123_0900"; "summaries"; "V1_summary.md"] := "earlier summary" ]}.

(** The command line [--video-ids <ids> --include-previous]. *)
Definition args_ids_previous (ids : list string) : args :=
  Args [PyStr.join "," ids] 1 true "prompt.txt" "qwen/qwen3-30b-a3b-instruct-2507" true.

End Cover.

(* ===================================================================== *)
(** * Facts about the embedding *)
(* ===================================================================== *)

Example vtt_sample :
  Vtt.parse ("WEBVTT" +:+ nl +:+ nl +:+ "1" +:+ nl +:+ "00:00:00.000 --> 00:00:01.000" +:+ nl
             +:+ "  <c>hello</c> <b>world</b> " +:+ nl +:+ "hello" +:+ nl +:+ "hello")
  = "hello world hello hello".
Proof. vm_compute. reflexivity. Qed.

Example python_strings_sample :
  PyStr.strip ("  a b " +:+ nl) = "a b"
  ∧ PyStr.remove "<c>" "a<c>b<c>" = "ab"
  ∧ PyStr.remove "aa" "aaa" = "a"
  ∧ PyStr.remove "<c>" "<<c>c>" = "<c>"
  ∧ PyStr.isdigit "0123" = true ∧ PyStr.isdigit "" = false ∧ PyStr.isdigit "12a" = false
  ∧ PyStr.contains "-->" "00:01 --> 00:02" = true ∧ PyStr.contains "-->" "a -> b" = false
  ∧ PyStr.split_lines ("a" +:+ nl +:+ nl +:+ "b" +:+ nl) = ["a"; ""; "b"; ""]
  ∧ PyStr.split_on "_" "010124_1200_1" = ["010124"; "1200"; "1"]
  ∧ PyStr.join "," ["V1"; "V2"; "V3"] = "V1,V2,V3".
Proof. repeat split; by vm_compute. Qed.

Example inputs_sample :
  inputs (Args ["@chanA, @chanB"; "@chanC"] 1 false "prompt.txt" "m" false)
  = ["@chanA"; "@chanB @chanC"]
  ∧ inputs (Scenario.args_ids ["V1"; "V2"]) = ["V1"; "V2"].
Proof. split; by vm_compute. Qed.

Example store_sample :
  Store.is_datetime_name "010124_1200" = true
  ∧ Store.is_datetime_name "010124_1200_2" = true
  ∧ Store.is_datetime_name "notes" = false
  ∧ Store.is_datetime_name "0101_1200" = false
  ∧ Store.folder_candidate "010124_1200" 0 = "010124_1200"
  ∧ Store.folder_candidate "010124_1200" 12 = "010124_1200_12"
  ∧ (Store.create_datetime_folder "010124_1200"
       (Filesystem (Some [("010124_1200", true); ("010124_1200_1", true)]) ∅)).1
    = ["processed"; "010124_1200_2"]
  ∧ Store.find_existing_transcript Scenario.disk_with_prior "V1" Scenario.root
    = (Some Scenario.prior_transcript, None).
Proof. repeat split; by vm_compute. Qed.

Example channel_sample :
  Resolver.get_channel_videos_calls Scenario.world_ok "UCA" (Scenario.today - Scenario.day)
  = ([Video "V1" "one" (Scenario.today - 10) (Some false) (Some "UCA") None],
     [ChannelsList "UCA"; PlaylistItemsList 0; VideosList ["V1"]; PlaylistItemsList 1]).
Proof. vm_compute. reflexivity. Qed.

Example main_sample :
  snd (Pipeline.main Scenario.world_ok (Scenario.args_ids ["V1"; "V2"]) Scenario.empty_disk)
  = Some (Report 1 0 1 (Some "V1") None).
Proof. vm_compute. reflexivity. Qed.

(** Membership in a list that is written out. *)
Ltac list_cases H :=
  repeat (apply elem_of_cons in H as [H|H]); try (by apply elem_of_nil in H).

Ltac list_member :=
  repeat first [apply elem_of_app; right | by left | right].

(** ** Strings and paths *)

Lemma app_cons_str (c : ascii) (s t : string) : String c s +:+ t = String c (s +:+ t).
Proof. reflexivity. Qed.

Lemma length_app_str (s t : string) :
  String.length (s +:+ t) = (String.length s + String.length t)%nat.
Proof.
  induction s as [|c s IH]; [reflexivity|].
  rewrite app_cons_str. cbn [String.length]. by rewrite IH.
Qed.

Lemma app_inv_tail_str (s1 s2 t : string) : s1 +:+ t = s2 +:+ t → s1 = s2.
Proof.
  revert s2. induction s1 as [|c s1 IH]; intros [|c' s2] H.
  - reflexivity.
  - apply (f_equal String.length) in H.
    rewrite !length_app_str in H. cbn [String.length] in H. lia.
  - apply (f_equal String.length) in H.
    rewrite !length_app_str in H. cbn [String.length] in H. lia.
  - rewrite !app_cons_str in H. injection H as -> H. f_equal. by apply IH.
Qed.

Lemma app_inv_head_str (s t1 t2 : string) : s +:+ t1 = s +:+ t2 → t1 = t2.
Proof.
  induction s as [|c s IH]; [done|].
  rewrite !app_cons_str. intros H. injection H as H. by apply IH.
Qed.

Lemma transcript_path_inj (f f' : path) (i i' : string) :
  Store.transcript_path f i = Store.transcript_path f' i' → f = f' ∧ i = i'.
Proof.
  unfold Store.transcript_path. intros H.
  apply app_inj_2 in H as [-> H]; [|reflexivity].
  injection H as H. split; [reflexivity|]. by apply app_inv_tail_str in H.
Qed.

Lemma summary_path_inj (f f' : path) (i i' : string) :
  Store.summary_path f i = Store.summary_path f' i' → f = f' ∧ i = i'.
Proof.
  unfold Store.summary_path. intros H.
  apply app_inj_2 in H as [-> H]; [|reflexivity].
  injection H as H. split; [reflexivity|]. by apply app_inv_tail_str in H.
Qed.

Lemma transcript_summary_ne (f f' : path) (i i' : string) :
  Store.transcript_path f i ≠ Store.summary_path f' i'.
Proof.
  unfold Store.transcript_path, Store.summary_path. intros H.
  apply app_inj_2 in H as [_ H]; [|reflexivity]. discriminate H.
Qed.

Lemma summary_transcript_ne (f f' : path) (i i' : string) :
  Store.summary_path f i ≠ Store.transcript_path f' i'.
Proof. intros H. symmetry in H. by apply transcript_summary_ne in H. Qed.

(** ** The log of a run *)

Section LogFacts.
Variable w : world.
Variable a : args.
Variable folder : path.

Local Ltac unfold_steps :=
  unfold Pipeline.phase1_step, Pipeline.phase2_step, Pipeline.copy2,
    Pipeline.write_file, Pipeline.say, Pipeline.emit.

Lemma transcript_pass_app (l l' : list event) :
  Obs.transcript_pass (l ++ l') = Obs.transcript_pass l ++ Obs.transcript_pass l'.
Proof. apply omap_app. Qed.

Lemma summary_pass_app (l l' : list event) :
  Obs.summary_pass (l ++ l') = Obs.summary_pass l ++ Obs.summary_pass l'.
Proof. apply omap_app. Qed.

Lemma phase1_step_pass (s : state) (l : list string) (v : video) :
  let s' := (Pipeline.phase1_step w a folder (s, l) v).1 in
  Obs.transcript_pass (log s') = Obs.transcript_pass (log s) ++ [id v]
  ∧ Obs.summary_pass (log s') = Obs.summary_pass (log s).
Proof.
  unfold_steps. cbn zeta.
  repeat case_match; cbn [fst log disk];
    rewrite ?transcript_pass_app, ?summary_pass_app, <- ?app_assoc, ?app_nil_r;
    cbn; rewrite ?app_nil_r; done.
Qed.

Lemma phase1_pass (vs : list video) (s : state) (l : list string) :
  let s' := (fold_left (Pipeline.phase1_step w a folder) vs (s, l)).1 in
  Obs.transcript_pass (log s') = Obs.transcript_pass (log s) ++ (id <$> vs)
  ∧ Obs.summary_pass (log s') = Obs.summary_pass (log s).
Proof.
  revert s l. induction vs as [|v vs IH]; intros s l; cbn zeta.
  - by rewrite app_nil_r.
  - cbn [fold_left fmap list_fmap].
    destruct (Pipeline.phase1_step w a folder (s, l) v) as [s1 l1] eqn:E.
    destruct (IH s1 l1) as [IH1 IH2]. cbn zeta in IH1, IH2.
    destruct (phase1_step_pass s l v) as [H1 H2]. rewrite E in H1, H2. cbn [fst] in H1, H2.
    rewrite IH1, IH2, H1, H2. by rewrite <- app_assoc.
Qed.

Lemma phase2_step_pass (s : state) (l : list string) (v : video) :
  let s' := (Pipeline.phase2_step w a folder [] (s, l) v).1 in
  Obs.summary_pass (log s') = Obs.summary_pass (log s) ++ [id v]
  ∧ Obs.transcript_pass (log s') = Obs.transcript_pass (log s).
Proof.
  unfold_steps. cbn zeta.
  rewrite bool_decide_eq_false_2 by apply not_elem_of_nil.
  repeat case_match; cbn [fst log disk];
    rewrite ?transcript_pass_app, ?summary_pass_app, <- ?app_assoc, ?app_nil_r;
    cbn; rewrite ?app_nil_r; done.
Qed.

Lemma phase2_pass (vs : list video) (s : state) (l : list string) :
  let s' := (fold_left (Pipeline.phase2_step w a folder []) vs (s, l)).1 in
  Obs.summary_pass (log s') = Obs.summary_pass (log s) ++ (id <$> vs)
  ∧ Obs.transcript_pass (log s') = Obs.transcript_pass (log s).
Proof.
  revert s l. induction vs as [|v vs IH]; intros s l; cbn zeta.
  - by rewrite app_nil_r.
  - cbn [fold_left fmap list_fmap].
    destruct (Pipeline.phase2_step w a folder [] (s, l) v) as [s1 l1] eqn:E.
    destruct (IH s1 l1) as [IH1 IH2]. cbn zeta in IH1, IH2.
    destruct (phase2_step_pass s l v) as [H1 H2]. rewrite E in H1, H2. cbn [fst] in H1, H2.
    rewrite IH1, IH2, H1, H2. by rewrite <- app_assoc.
Qed.

End LogFacts.

(** ** Resolution *)

Lemma add_video_id_app (w : world) (a : args) (acc : list video) (input : string) :
  Resolver.add_video_id w a acc input = acc ++ Resolver.add_video_id w a [] input.
Proof.
  unfold Resolver.add_video_id. repeat case_match; by rewrite ?app_nil_r.
Qed.

Lemma add_channel_app (w : world) (a : args) (acc : list video) (input : string) :
  Resolver.add_channel w a acc input = acc ++ Resolver.add_channel w a [] input.
Proof.
  unfold Resolver.add_channel. repeat case_match; by rewrite ?app_nil_r.
Qed.

Lemma fold_left_contributions {A B : Type} (f : list B → A → list B) (xs : list A)
    (acc : list B) :
  (∀ acc x, f acc x = acc ++ f [] x) →
  fold_left f xs acc = acc ++ concat ((f []) <$> xs).
Proof.
  intros Hf. revert acc. induction xs as [|x xs IH]; intros acc; cbn.
  - by rewrite app_nil_r.
  - rewrite IH, (Hf acc x). by rewrite <- app_assoc.
Qed.

Lemma collect_concat (w : world) (a : args) :
  Resolver.collect w a = concat (Obs.contribution w a <$> inputs a).
Proof.
  unfold Resolver.collect, Obs.contribution. destruct (video_ids a).
  - apply (fold_left_contributions _ _ []), add_video_id_app.
  - apply (fold_left_contributions _ _ []), add_channel_app.
Qed.

Lemma elem_of_concat_fmap {A B : Type} (f : A → list B) (xs : list A) (y : B) :
  y ∈ concat (f <$> xs) ↔ ∃ x, x ∈ xs ∧ y ∈ f x.
Proof.
  induction xs as [|x xs IH]; cbn.
  - split; [by intros ?%elem_of_nil | by intros (? & ?%elem_of_nil & _)].
  - rewrite elem_of_app, IH. split.
    + intros [H | (x' & Hx' & H)]; [exists x | exists x']; split; auto; by constructor.
    + intros (x' & [-> | Hx']%elem_of_cons & H); [by left | right; eauto].
Qed.

(** C1, as amended: the resolved list is the concatenation of what each raw
    input contributes, in input order, with nothing removed; and both phases
    of a run visit the videos of that list in that order, one iteration per
    element. *)
Theorem resolved_list_is_concatenation (w : world) (a : args) (folder : path)
    (fs : filesystem) :
  Resolver.collect w a = concat (Obs.contribution w a <$> inputs a)
  ∧ (let s' := (Pipeline.run_phases w a folder (Resolver.collect w a) (State fs [])).1 in
     Obs.transcript_pass (log s') = id <$> Resolver.collect w a
     ∧ Obs.summary_pass (log s') = id <$> Resolver.collect w a).
Proof.
  split; [apply collect_concat|].
  cbn zeta. unfold Pipeline.run_phases, Pipeline.phase1, Pipeline.phase2.
  set (vs := Resolver.collect w a).
  destruct (fold_left _ vs (State fs [], [])) as [s1 l1] eqn:E1.
  destruct (fold_left _ vs (s1, [])) as [s2 l2] eqn:E2. cbn [fst].
  destruct (phase1_pass w a folder vs (State fs []) []) as [P1 P2].
  destruct (phase2_pass w a folder vs s1 []) as [Q1 Q2].
  rewrite E1 in P1, P2. rewrite E2 in Q1, Q2. cbn [fst log] in *.
  rewrite Q1, Q2, P1, P2. done.
Qed.

(** C1, counterexample: naming the same video twice, or the same channel
    twice, resolves to a list that holds its id twice. *)
Lemma resolved_list_keeps_duplicates :
  id <$> Resolver.collect Scenario.world_ok (Scenario.args_ids ["V1"; "V1"]) = ["V1"; "V1"]
  ∧ id <$> Resolver.collect Scenario.world_ok (Scenario.args_channels ["@chanA"; "@chanA"])
    = ["V1"; "V1"]
  ∧ ¬ NoDup (id <$> Resolver.collect Scenario.world_ok (Scenario.args_ids ["V1"; "V1"])).
Proof.
  split; [by vm_compute|]. split; [by vm_compute|].
  replace (id <$> _) with ["V1"; "V1"] by (by vm_compute).
  intros H. apply NoDup_cons in H as [H _]. apply H. by left.
Qed.

(** ** Channel enumeration *)

Section ChannelFacts.
Variable w : world.
Variable channel : string.
Variable cutoff : Z.

Let recent (v : video) : Prop := cutoff ≤ published_at v.

Lemma scan_page_recent (items : list playlist_item) (batch : list string)
    (m : gmap string video) :
  map_Forall (λ _, recent) m →
  map_Forall (λ _, recent) (Resolver.scan_page cutoff items batch m).2.
Proof.
  revert batch m. induction items as [|item items IH]; intros batch m Hm; cbn; [done|].
  case_bool_decide; [|done].
  apply IH, map_Forall_insert_2; done.
Qed.

Lemma filter_live_recent (details : list (string * bool)) (m : gmap string video)
    (videos videos' : list video) :
  map_Forall (λ _, recent) m → Forall recent videos →
  Resolver.filter_live channel details m videos = Some videos' →
  Forall recent videos'.
Proof.
  revert m videos. induction details as [|[i live] details IH]; intros m videos Hm Hv; cbn.
  - by intros [= <-].
  - destruct (m !! i) as [v|] eqn:E; [|done].
    pose proof (Hm i v E) as Hr. destruct live; cbn.
    + by apply IH.
    + apply IH; [by apply map_Forall_insert_2|].
      apply Forall_app; split; [done|]. by repeat constructor.
Qed.

Lemma fetch_recent (later : list (list playlist_item)) (page : list playlist_item)
    (n : nat) (videos videos' : list video) (calls calls' : list api_call) :
  Forall recent videos →
  Resolver.fetch w channel cutoff page later n videos calls = (Some videos', calls') →
  Forall recent videos'.
Proof.
  revert page n videos calls.
  induction later as [|next later IH]; intros page n videos calls Hv; cbn;
    pose proof (scan_page_recent page [] ∅ (map_Forall_empty _)) as Hm;
    destruct (Resolver.scan_page cutoff page [] ∅) as [batch m]; cbn in Hm;
    destruct batch as [|b batch]; try (by intros [= <- _]);
    destruct (Resolver.filter_live _ _ _ _) as [vs|] eqn:E; try done;
    pose proof (filter_live_recent _ _ _ _ Hm Hv E) as Hvs.
  - by intros [= <- _].
  - by apply IH.
Qed.

(** No video older than the cutoff is ever returned for a channel. *)
Lemma channel_videos_recent (v : video) :
  v ∈ Resolver.get_channel_videos w channel cutoff → cutoff ≤ published_at v.
Proof.
  unfold Resolver.get_channel_videos, Resolver.get_channel_videos_calls.
  destruct (uploads w channel) as [[first later]|]; cbn; [|by intros ?%elem_of_nil].
  destruct (Resolver.fetch _ _ _ _ _ _ _ _) as [[vs|] calls] eqn:E; cbn;
    [|by intros ?%elem_of_nil].
  intros Hin. pose proof (fetch_recent _ _ _ _ _ _ _ (Forall_nil_2 _) E) as H.
  by apply (proj1 (Forall_forall _ _) H).
Qed.

(** The older variant returns as soon as a page holds an item older than
    the cutoff: it requests no page after that one. *)
Lemma legacy_scan_page_returns (items : list playlist_item) (videos : list video) :
  (∃ item, item ∈ items ∧ item_published_at item < cutoff) →
  (Legacy.scan_page cutoff items videos).2 = true.
Proof.
  revert videos. induction items as [|item items IH]; intros videos [old [Hin Hold]].
  - by apply elem_of_nil in Hin.
  - cbn. case_bool_decide as Hc; [|done].
    apply IH. apply elem_of_cons in Hin as [->|Hin]; [lia|eauto].
Qed.

Lemma legacy_stops_at_cutoff (page : list playlist_item)
    (later : list (list playlist_item)) (n : nat) (videos : list video)
    (calls : list api_call) :
  (∃ item, item ∈ page ∧ item_published_at item < cutoff) →
  (Legacy.fetch cutoff page later n videos calls).2 = calls ++ [PlaylistItemsList n].
Proof.
  intros Hold. pose proof (legacy_scan_page_returns page videos Hold) as H.
  destruct later; cbn; destruct (Legacy.scan_page cutoff page videos) as [vs r];
    cbn in H; subst r; done.
Qed.

(** Every call of the loop of ytsummary.py starts with a page request. *)
Lemma fetch_requests_page (later : list (list playlist_item)) (page : list playlist_item)
    (n : nat) (videos : list video) (calls : list api_call) :
  PlaylistItemsList n ∈ (Resolver.fetch w channel cutoff page later n videos calls).2.
Proof.
  assert (∀ extra, PlaylistItemsList n ∈ (calls ++ [PlaylistItemsList n]) ++ extra) as Hin.
  { intros extra. apply elem_of_app. left. apply elem_of_app. right. by left. }
  revert page n videos calls Hin.
  induction later as [|next later IH]; intros page n videos calls Hin; cbn;
    destruct (Resolver.scan_page cutoff page [] ∅) as [batch m];
    destruct batch as [|b batch]; cbn;
    try (specialize (Hin []); by rewrite app_nil_r in Hin);
    destruct (Resolver.filter_live _ _ _ _) as [vs|]; cbn; try apply Hin.
  assert (∀ q x, PlaylistItemsList n ∈ q → PlaylistItemsList n ∈ (Resolver.fetch w channel
            cutoff next later (S n) x q).2) as Hmono; [|apply Hmono, Hin].
  clear. revert next. generalize (S n) as k.
  induction later as [|next' later IH]; intros k next q x Hq; cbn;
    destruct (Resolver.scan_page cutoff next [] ∅) as [batch m];
    destruct batch as [|b batch]; cbn;
    try (apply elem_of_app; by left);
    destruct (Resolver.filter_live _ _ _ _) as [vs|]; cbn;
    try (apply elem_of_app; left; apply elem_of_app; by left).
  apply IH. apply elem_of_app; left. apply elem_of_app; by left.
Qed.

Lemma scan_page_batch (items : list playlist_item) (batch : list string)
    (m : gmap string video) :
  ∃ more, (Resolver.scan_page cutoff items batch m).1 = batch ++ more.
Proof.
  revert batch m. induction items as [|item items IH]; intros batch m; cbn.
  - exists []. by rewrite app_nil_r.
  - case_bool_decide.
    + destruct (IH (batch ++ [item_video_id item])
                  (<[item_video_id item :=
                       Video (item_video_id item) (item_title item)
                             (item_published_at item) None None None]> m)) as [more ->].
      rewrite <- app_assoc. eauto.
    + exists []. by rewrite app_nil_r.
Qed.

(** The loop of ytsummary.py goes on to the next page whenever the current
    page starts with a recent item, whatever follows that item on the page:
    an item older than the cutoff further down the page does not end the
    enumeration. *)
Lemma ytsummary_requests_next_page (first : playlist_item) (rest next : list playlist_item)
    (later : list (list playlist_item)) (n : nat) (videos : list video)
    (calls : list api_call) :
  cutoff ≤ item_published_at first →
  is_Some (Resolver.fetch w channel cutoff (first :: rest) (next :: later) n videos calls).1 →
  PlaylistItemsList (S n)
  ∈ (Resolver.fetch w channel cutoff (first :: rest) (next :: later) n videos calls).2.
Proof.
  intros Hrecent. cbn [Resolver.fetch].
  destruct (scan_page_batch (first :: rest) [] ∅) as [more Hb].
  cbn in Hb. rewrite bool_decide_eq_true_2 in Hb by done.
  destruct (scan_page_batch rest [item_video_id first]
              (<[item_video_id first :=
                   Video (item_video_id first) (item_title first)
                         (item_published_at first) None None None]> ∅)) as [more' Hb'].
  cbn [Resolver.scan_page]. rewrite bool_decide_eq_true_2 by done. cbn [app].
  destruct (Resolver.scan_page cutoff rest _ _) as [batch m]. cbn in Hb'. subst batch.
  cbn. destruct (Resolver.filter_live _ _ _ _) as [vs|]; cbn.
  - intros _. apply fetch_requests_page.
  - by intros [? ?].
Qed.

End ChannelFacts.

(** C4, at the failing input: the first page of the listing of [UCA] holds a
    video from five days ago, older than the one-day cutoff, and has a next
    page.  [get_channel_videos] of ytsummary.py still requests that next
    page; the older variant does not. *)
Theorem channel_listing_requests_page_after_cutoff :
  let cutoff := Scenario.today - Scenario.day in
  uploads Scenario.world_ok "UCA"
  = Some ([PlaylistItem "V1" "one" (Scenario.today - 10);
           PlaylistItem "OLD" "old" (Scenario.today - 5 * Scenario.day)],
          [[PlaylistItem "OLDER" "older" (Scenario.today - 6 * Scenario.day)]])
  ∧ Scenario.today - 5 * Scenario.day < cutoff
  ∧ (Resolver.get_channel_videos_calls Scenario.world_ok "UCA" cutoff).2
    = [ChannelsList "UCA"; PlaylistItemsList 0; VideosList ["V1"]; PlaylistItemsList 1]
  ∧ (Legacy.get_channel_videos_calls Scenario.world_ok "UCA" cutoff).2
    = [ChannelsList "UCA"; PlaylistItemsList 0].
Proof. cbn zeta. repeat split; by vm_compute. Qed.

(** ** Explicit video ids *)

Lemma legacy_add_video_id_app (w : world) (a : args) (acc : list video) (input : string) :
  Legacy.add_video_id w a acc input = acc ++ Legacy.add_video_id w a [] input.
Proof.
  unfold Legacy.add_video_id. repeat case_match; by rewrite ?app_nil_r.
Qed.

Lemma legacy_collect_ids (w : world) (a : args) :
  video_ids a = true →
  Legacy.collect w a = concat (Legacy.add_video_id w a [] <$> inputs a).
Proof.
  intros E. unfold Legacy.collect. rewrite E.
  apply (fold_left_contributions _ _ []), legacy_add_video_id_app.
Qed.

(** C7, as amended: in explicit-id mode ytsummary.py applies no cutoff
    filter at all, so a named video that exists and is not live content is
    retained whatever the lookback window is; it is the older variant,
    youtube_summarizer.py, that drops a named video exactly when
    [days > 0] and the video is older than the cutoff. *)
Theorem explicit_ids_are_exempt_from_cutoff (w : world) (a : args)
    (video_id : string) (item : api_video) :
  video_ids a = true →
  video_id ∈ inputs a →
  video_lookup w video_id = Some item →
  api_live item = false →
  (∃ v, v ∈ Resolver.collect w a ∧ id v = video_id
        ∧ published_at v = api_published_at item)
  ∧ ((∃ v, v ∈ Legacy.collect w a ∧ id v = video_id)
     ↔ ¬ (0 < days a ∧ api_published_at item < Legacy.cutoff_date w a)).
Proof.
  intros Hmode Hin Hlook Hlive. split.
  - eexists. rewrite collect_concat, elem_of_concat_fmap.
    split; [exists video_id; split; [done|]|].
    + unfold Obs.contribution, Resolver.add_video_id, Resolver.get_video_details.
      rewrite Hmode, Hlook. cbn. rewrite Hlive. cbn. apply list_elem_of_singleton. reflexivity.
    + done.
  - rewrite (legacy_collect_ids _ _ Hmode). split.
    + intros (v & (i & Hi & Hv)%elem_of_concat_fmap & Hid) [Hd Ho].
      unfold Legacy.add_video_id, Legacy.get_video_details in Hv.
      destruct (video_lookup w i) as [item'|] eqn:E; [|by apply elem_of_nil in Hv].
      cbn in Hv. destruct (bool_decide _ && bool_decide _) eqn:Eb;
        [by apply elem_of_nil in Hv|].
      apply list_elem_of_singleton in Hv. subst v. cbn in Hid. subst i.
      rewrite Hlook in E. injection E as <-.
      rewrite !bool_decide_eq_true_2 in Eb by done. done.
    + intros Hnot. eexists. rewrite elem_of_concat_fmap.
      split; [exists video_id; split; [done|]|].
      * unfold Legacy.add_video_id, Legacy.get_video_details. rewrite Hlook. cbn.
        destruct (bool_decide _ && bool_decide _) eqn:Eb.
        { apply andb_true_iff in Eb as [?%bool_decide_eq_true ?%bool_decide_eq_true].
          by destruct Hnot. }
        apply list_elem_of_singleton. reflexivity.
      * done.
Qed.

Lemma explicit_ids_are_exempt_from_cutoff_witness :
  (∃ v, v ∈ Resolver.collect Scenario.world_ok (Scenario.args_ids ["V1"; "OLD"])
        ∧ id v = "OLD" ∧ published_at v = Scenario.today - 5 * Scenario.day)
  ∧ ((∃ v, v ∈ Legacy.collect Scenario.world_ok (Scenario.args_ids ["V1"; "OLD"])
           ∧ id v = "OLD")
     ↔ ¬ (0 < 1 ∧ Scenario.today - 5 * Scenario.day
                    < Legacy.cutoff_date Scenario.world_ok (Scenario.args_ids ["V1"; "OLD"]))).
Proof.
  apply (explicit_ids_are_exempt_from_cutoff Scenario.world_ok
           (Scenario.args_ids ["V1"; "OLD"]) "OLD"
           (ApiVideo "old" (Scenario.today - 5 * Scenario.day) false "UCA" "Chan A")).
  - reflexivity.
  - apply list_elem_of_In. vm_compute. right. left. reflexivity.
  - reflexivity.
  - reflexivity.
Defined.

(** C7, counterexample: with the default one-day window ([days > 0]) the
    named video [OLD], published five days before the run and so older than
    the cutoff, is retained by ytsummary.py. *)
Lemma named_old_video_is_retained :
  let a := Scenario.args_ids ["OLD"] in
  video_ids a = true
  ∧ 0 < days a
  ∧ (∃ item, video_lookup Scenario.world_ok "OLD" = Some item
             ∧ api_published_at item < Resolver.cutoff_date Scenario.world_ok a)
  ∧ id <$> Resolver.collect Scenario.world_ok a = ["OLD"].
Proof.
  cbn zeta. split; [reflexivity|]. split; [reflexivity|]. split.
  - eexists. split; [reflexivity|]. by vm_compute.
  - by vm_compute.
Qed.

(** ** The terminal report *)

(** No run ever reports a skipped video. *)
Lemma report_skipped_is_empty (w : world) (a : args) (folder : path)
    (all_videos : list video) (s : state) :
  let r := (Pipeline.run_phases w a folder all_videos s).2 in
  skipped_count r = O ∧ skipped_line r = None.
Proof.
  cbn zeta. unfold Pipeline.run_phases.
  destruct (Pipeline.phase1 _ _ _ _ _) as [s1 l1].
  destruct (Pipeline.phase2 _ _ _ _ _ _) as [s2 l2]. done.
Qed.

(** C9, at the failing input: [--video-ids V1,V2] where [V1] has subtitles
    and [V2] has none.  Phase 1 prints that no transcript could be retrieved
    for [V2], and the terminal report counts 1 processed, 0 skipped and 1
    summarized video, lists [V1] as summarized and prints no list of skipped
    ids: [V2] is not listed under skipped. *)
Theorem report_omits_video_without_transcript :
  let run := Pipeline.main Scenario.world_ok (Scenario.args_ids ["V1"; "V2"])
               Scenario.empty_disk in
  Pipeline.get_transcript Scenario.world_ok "V2" = None
  ∧ Print (CouldNotRetrieveTranscript "V2") ∈ log run.1
  ∧ run.2 = Some (Report 1 0 1 (Some "V1") None).
Proof.
  cbn zeta. split; [reflexivity|]. split; [|by vm_compute].
  apply list_elem_of_In. vm_compute. tauto.
Qed.

(** ** The artifact store across runs *)

Section StoreFacts.
Variable folder : path.

Lemma same_prior_refl (fs : filesystem) : Obs.same_prior folder fs fs.
Proof. by split. Qed.

Lemma same_prior_trans (fs1 fs2 fs3 : filesystem) :
  Obs.same_prior folder fs1 fs2 → Obs.same_prior folder fs2 fs3 →
  Obs.same_prior folder fs1 fs3.
Proof.
  intros [E1 H1] [E2 H2]. split; [congruence|].
  intros other i Hne. destruct (H2 other i Hne) as [-> ->]. by apply H1.
Qed.

Lemma put_transcript_same_prior (fs : filesystem) (i text : string) :
  Obs.same_prior folder fs (Pipeline.put (Store.transcript_path folder i) text fs).
Proof.
  split; [done|]. intros other j Hne. cbn. split.
  - apply lookup_insert_ne. by intros [? _]%transcript_path_inj.
  - apply lookup_insert_ne, transcript_summary_ne.
Qed.

Lemma put_summary_same_prior (fs : filesystem) (i text : string) :
  Obs.same_prior folder fs (Pipeline.put (Store.summary_path folder i) text fs).
Proof.
  split; [done|]. intros other j Hne. cbn. split.
  - apply lookup_insert_ne. intros E. by apply (transcript_summary_ne other folder j i).
  - apply lookup_insert_ne. by intros [? _]%summary_path_inj.
Qed.

Lemma datetime_folders_other (entries : list (string * bool)) (acc : list path) :
  Forall (λ f, f ≠ folder) acc →
  Forall (λ f, f ≠ folder) (fold_left (Store.add_datetime_folder folder) entries acc).
Proof.
  revert acc. induction entries as [|[item isdir] entries IH]; intros acc Hacc; cbn; [done|].
  apply IH. destruct (isdir && _ && _) eqn:E; [|done].
  apply Forall_app; split; [done|]. repeat constructor.
  apply andb_true_iff in E as [E _]. apply andb_true_iff in E as [_ E].
  by apply bool_decide_eq_true in E.
Qed.

Lemma search_folders_same_prior (fs fs' : filesystem) (i : string) (folders : list path) :
  Obs.same_prior folder fs fs' → Forall (λ f, f ≠ folder) folders →
  Store.search_folders fs' i folders = Store.search_folders fs i folders.
Proof.
  intros [_ H]. induction 1 as [|f folders Hne _ IH]; cbn; [done|].
  unfold Store.file_exists. destruct (H f i Hne) as [-> ->]. by rewrite IH.
Qed.

Lemma find_existing_same_prior (fs fs' : filesystem) (i : string) :
  Obs.same_prior folder fs fs' →
  Store.find_existing_transcript fs' i folder = Store.find_existing_transcript fs i folder.
Proof.
  intros H. unfold Store.find_existing_transcript. rewrite (proj1 H).
  destruct (processed_entries fs); [|done].
  apply search_folders_same_prior; [done|]. by apply datetime_folders_other.
Qed.

(** What [find_existing_transcript] reports is there, in another folder. *)
Lemma search_folders_found (fs : filesystem) (i : string) (folders : list path)
    (tp : path) (sp : option path) :
  Store.search_folders fs i folders = (Some tp, sp) →
  ∃ other, other ∈ folders ∧ tp = Store.transcript_path other i
           ∧ is_Some (files fs !! tp)
           ∧ (∀ p, sp = Some p → p = Store.summary_path other i ∧ is_Some (files fs !! p))
           ∧ (sp = None → files fs !! Store.summary_path other i = None).
Proof.
  induction folders as [|f folders IH]; cbn; [done|].
  unfold Store.file_exists. case_bool_decide as Ht.
  - intros [= <- <-]. exists f. split; [by left|]. split; [done|]. split; [done|].
    case_bool_decide as Hs; split; try done.
    + by intros p [= <-].
    + intros _. by apply eq_None_not_Some.
  - intros (other & ? & ?)%IH. exists other. split; [by right|done].
Qed.

Lemma find_existing_found (fs : filesystem) (i : string) (tp : path) (sp : option path) :
  Store.find_existing_transcript fs i folder = (Some tp, sp) →
  ∃ other, other ≠ folder ∧ tp = Store.transcript_path other i
           ∧ is_Some (files fs !! tp)
           ∧ (∀ p, sp = Some p → p = Store.summary_path other i ∧ is_Some (files fs !! p))
           ∧ (sp = None → files fs !! Store.summary_path other i = None).
Proof.
  unfold Store.find_existing_transcript. destruct (processed_entries fs) as [entries|]; [|done].
  intros (other & Hin & H)%search_folders_found. exists other. split; [|done].
  pose proof (datetime_folders_other entries [] (Forall_nil_2 _)) as Hall.
  by apply (proj1 (Forall_forall _ _) Hall).
Qed.

End StoreFacts.

(** ** One iteration of each phase *)

Section StepFacts.
Variable w : world.
Variable a : args.
Variable folder : path.

Abbreviation tpath v := (Store.transcript_path folder (id v)).
Abbreviation spath v := (Store.summary_path folder (id v)).

Lemma copy2_found (src dst : path) (s : state) (text : string) :
  files (disk s) !! src = Some text →
  Pipeline.copy2 src dst s = State (Pipeline.put dst text (disk s)) (log s ++ [Copy src dst]).
Proof. intros H. unfold Pipeline.copy2. by rewrite H. Qed.

(** The three ways an iteration of Phase 1 can go: a transcript of an
    earlier run is copied (with or without its summary), a new transcript is
    extracted and saved, or nothing is saved. *)
Lemma phase1_step_cases (s : state) (l : list string) (v : video) :
  (∃ tp esp text,
      Store.find_existing_transcript (disk s) (id v) folder = (Some tp, esp)
      ∧ files (disk s) !! tp = Some text
      ∧ ((∃ sp stext,
            esp = Some sp ∧ include_previous a = true ∧ files (disk s) !! sp = Some stext
            ∧ Pipeline.phase1_step w a folder (s, l) v
              = (State (Pipeline.put (spath v) stext (Pipeline.put (tpath v) text (disk s)))
                       (log s ++ [Print (ProcessingTranscript (id v));
                                  Print (FoundExistingTranscript tp);
                                  Copy tp (tpath v); Copy sp (spath v);
                                  Print (CopiedExistingTranscript (id v))]),
                 l ++ [id v]))
         ∨ ((esp = None ∨ include_previous a = false)
            ∧ Pipeline.phase1_step w a folder (s, l) v
              = (State (Pipeline.put (tpath v) text (disk s))
                       (log s ++ [Print (ProcessingTranscript (id v));
                                  Print (FoundExistingTranscript tp);
                                  Copy tp (tpath v);
                                  Print (CopiedExistingTranscript (id v))]),
                 l ++ [id v]))))
  ∨ (∃ esp t,
        Store.find_existing_transcript (disk s) (id v) folder = (None, esp)
        ∧ Pipeline.get_transcript w (id v) = Some t ∧ PyStr.truthy t = true
        ∧ Pipeline.phase1_step w a folder (s, l) v
          = (State (Pipeline.put (tpath v) t (disk s))
                   (log s ++ [Print (ProcessingTranscript (id v)); Extract (id v);
                              Write (tpath v) t; Print (TranscriptSaved (tpath v))]),
             l ++ [id v]))
  ∨ (∃ esp,
        Store.find_existing_transcript (disk s) (id v) folder = (None, esp)
        ∧ (Pipeline.get_transcript w (id v) = None
           ∨ Pipeline.get_transcript w (id v) = Some EmptyString)
        ∧ Pipeline.phase1_step w a folder (s, l) v
          = (State (disk s)
                   (log s ++ [Print (ProcessingTranscript (id v)); Extract (id v);
                              Print (CouldNotRetrieveTranscript (id v))]),
             l)).
Proof.
  unfold Pipeline.phase1_step. cbv zeta.
  change (disk (Pipeline.say (ProcessingTranscript (id v)) s)) with (disk s).
  destruct (Store.find_existing_transcript (disk s) (id v) folder) as [[tp|] esp] eqn:Ef.
  - left. destruct (find_existing_found _ _ _ _ _ Ef)
      as (other & Hne & -> & [text Htext] & Hsome & Hnone).
    exists (Store.transcript_path other (id v)), esp, text. split; [done|]. split; [done|].
    rewrite (copy2_found _ (tpath v) _ text) by exact Htext.
    destruct esp as [sp|].
    + destruct (Hsome sp eq_refl) as [-> [stext Hstext]].
      destruct (include_previous a) eqn:Ei.
      * left. exists (Store.summary_path other (id v)), stext.
        split; [done|]. split; [done|]. split; [done|].
        rewrite (copy2_found _ (spath v) _ stext).
        { unfold Pipeline.say, Pipeline.emit. cbn [disk log]. by rewrite <- !app_assoc. }
        cbn. rewrite lookup_insert_ne by apply transcript_summary_ne. exact Hstext.
      * right. split; [by right|].
        unfold Pipeline.say, Pipeline.emit. cbn [disk log]. by rewrite <- !app_assoc.
    + right. split; [by left|].
      unfold Pipeline.say, Pipeline.emit. cbn [disk log]. by rewrite <- !app_assoc.
  - right. destruct (Pipeline.get_transcript w (id v)) as [t|] eqn:Et.
    + destruct (PyStr.truthy t) eqn:Etr.
      * left. exists esp, t.
        unfold Pipeline.write_file, Pipeline.say, Pipeline.emit. cbn [disk log].
        by rewrite <- !app_assoc.
      * right. exists esp. split; [done|]. split; [right; by destruct t|].
        unfold Pipeline.say, Pipeline.emit. cbn [disk log]. by rewrite <- !app_assoc.
    + right. exists esp. split; [done|]. split; [by left|].
      unfold Pipeline.say, Pipeline.emit. cbn [disk log]. by rewrite <- !app_assoc.
Qed.

(** The four ways an iteration of Phase 2 can go. *)
Lemma phase2_step_cases (s : state) (l : list string) (v : video) :
  (is_Some (files (disk s) !! spath v)
   ∧ Pipeline.phase2_step w a folder [] (s, l) v
     = (State (disk s)
              (log s ++ [Print (ProcessingSummary (id v));
                         Print (SummaryAlreadyExists (spath v))]),
        l ++ [id v]))
  ∨ (files (disk s) !! spath v = None ∧ files (disk s) !! tpath v = None
     ∧ Pipeline.phase2_step w a folder [] (s, l) v
       = (State (disk s)
                (log s ++ [Print (ProcessingSummary (id v)); Print (NoTranscriptFile (id v))]),
          l))
  ∨ (∃ t text,
        files (disk s) !! spath v = None ∧ files (disk s) !! tpath v = Some t
        ∧ Summarizer.summary_ok
            (Summarizer.summarize_with_openrouter w t (prompt a) (model a)) = true
        ∧ Pipeline.phase2_step w a folder [] (s, l) v
          = (State (Pipeline.put (spath v) text (disk s))
                   (log s ++ [Print (ProcessingSummary (id v)); Summarize (id v) t;
                              Write (spath v) text; Print (SummarySaved (spath v))]),
             l ++ [id v]))
  ∨ (∃ t,
        files (disk s) !! spath v = None ∧ files (disk s) !! tpath v = Some t
        ∧ Summarizer.summary_ok
            (Summarizer.summarize_with_openrouter w t (prompt a) (model a)) = false
        ∧ Pipeline.phase2_step w a folder [] (s, l) v
          = (State (disk s)
                   (log s ++ [Print (ProcessingSummary (id v)); Summarize (id v) t;
                              Print (FailedToGenerateSummary (id v)
                                       (Summarizer.summarize_with_openrouter
                                          w t (prompt a) (model a)))]),
             l)).
Proof.
  unfold Pipeline.phase2_step, Pipeline.say, Pipeline.emit, Pipeline.write_file,
    Store.file_exists.
  rewrite bool_decide_eq_false_2 by apply not_elem_of_nil. cbn [disk log].
  case_bool_decide as Hs.
  - left. split; [done|]. by rewrite <- !app_assoc.
  - right. apply eq_None_not_Some in Hs.
    destruct (files (disk s) !! tpath v) as [t|] eqn:Et.
    + right. destruct (Summarizer.summary_ok _) eqn:Eok.
      * left. eexists t, _. split; [done|]. split; [done|]. split; [done|].
        by rewrite <- !app_assoc.
      * right. exists t. split; [done|]. split; [done|]. split; [done|].
        by rewrite <- !app_assoc.
    + left. split; [done|]. split; [done|]. by rewrite <- !app_assoc.
Qed.

End StepFacts.

(** ** Whole phases *)

Section RunFacts.
Variable w : world.
Variable a : args.
Variable folder : path.

Abbreviation tpath i := (Store.transcript_path folder i).
Abbreviation spath i := (Store.summary_path folder i).
Abbreviation step1 := (Pipeline.phase1_step w a folder).
Abbreviation step2 := (Pipeline.phase2_step w a folder []).

Local Ltac p1_cases s l v :=
  destruct (phase1_step_cases w a folder s l v)
    as [(tp & esp & text & Ef & Htext
         & [(sp & stext & -> & Hinc & Hstext & Estep) | (Hno & Estep)])
       | [(esp & t & Ef & Eget & Htr & Estep) | (esp & Ef & Eget & Estep)]];
  rewrite Estep; cbn [fst snd disk log].

Local Ltac p2_cases s l v :=
  destruct (phase2_step_cases w a folder s l v)
    as [(Hs & Estep)
       | [(Hs & Ht & Estep)
         | [(t & text & Hs & Ht & Hok & Estep) | (t & Hs & Ht & Hok & Estep)]]];
  rewrite Estep; cbn [fst snd disk log].

Lemma phase1_step_same_prior (s : state) (l : list string) (v : video) :
  Obs.same_prior folder (disk s) (disk (step1 (s, l) v).1).
Proof.
  p1_cases s l v; try apply same_prior_refl; try apply put_transcript_same_prior.
  eapply same_prior_trans; [apply put_transcript_same_prior | apply put_summary_same_prior].
Qed.

Lemma phase2_step_same_prior (s : state) (l : list string) (v : video) :
  Obs.same_prior folder (disk s) (disk (step2 (s, l) v).1).
Proof.
  p2_cases s l v; try apply same_prior_refl; apply put_summary_same_prior.
Qed.

(** An iteration touches no file but the two artifacts of its video. *)
Lemma phase1_step_frame (s : state) (l : list string) (v : video) (p : path) :
  p ≠ tpath (id v) → p ≠ spath (id v) →
  files (disk (step1 (s, l) v).1) !! p = files (disk s) !! p.
Proof.
  intros Ht Hs. p1_cases s l v; cbn; by rewrite ?lookup_insert_ne.
Qed.

Lemma phase2_step_frame (s : state) (l : list string) (v : video) (p : path) :
  p ≠ spath (id v) →
  files (disk (step2 (s, l) v).1) !! p = files (disk s) !! p.
Proof.
  intros Hp. p2_cases s l v; cbn; by rewrite ?lookup_insert_ne.
Qed.

(** No iteration removes a file. *)
Lemma phase1_step_keeps (s : state) (l : list string) (v : video) (p : path) :
  is_Some (files (disk s) !! p) → is_Some (files (disk (step1 (s, l) v).1) !! p).
Proof.
  intros H. p1_cases s l v; cbn; try done;
    repeat (apply lookup_insert_is_Some'; right); done.
Qed.

(** The log only grows. *)
Lemma phase1_step_log (s : state) (l : list string) (v : video) :
  ∃ evs, log (step1 (s, l) v).1 = log s ++ evs.
Proof. p1_cases s l v; eauto. Qed.

Lemma phase2_step_log (s : state) (l : list string) (v : video) :
  ∃ evs, log (step2 (s, l) v).1 = log s ++ evs.
Proof. p2_cases s l v; eauto. Qed.

Lemma phase1_log (vs : list video) (s : state) (l : list string) :
  ∃ evs, log (fold_left step1 vs (s, l)).1 = log s ++ evs.
Proof.
  revert s l. induction vs as [|v vs IH]; intros s l; cbn [fold_left].
  - exists []. by rewrite app_nil_r.
  - destruct (step1 (s, l) v) as [s1 l1] eqn:E.
    destruct (IH s1 l1) as [evs ->].
    destruct (phase1_step_log s l v) as [evs1 H1]. rewrite E in H1. cbn in H1.
    rewrite H1, <- app_assoc. eauto.
Qed.

Lemma phase2_log (vs : list video) (s : state) (l : list string) :
  ∃ evs, log (fold_left step2 vs (s, l)).1 = log s ++ evs.
Proof.
  revert s l. induction vs as [|v vs IH]; intros s l; cbn [fold_left].
  - exists []. by rewrite app_nil_r.
  - destruct (step2 (s, l) v) as [s1 l1] eqn:E.
    destruct (IH s1 l1) as [evs ->].
    destruct (phase2_step_log s l v) as [evs1 H1]. rewrite E in H1. cbn in H1.
    rewrite H1, <- app_assoc. eauto.
Qed.

Lemma phase1_same_prior (vs : list video) (s : state) (l : list string) :
  Obs.same_prior folder (disk s) (disk (fold_left step1 vs (s, l)).1).
Proof.
  revert s l. induction vs as [|v vs IH]; intros s l; cbn [fold_left].
  - apply same_prior_refl.
  - pose proof (phase1_step_same_prior s l v) as H.
    destruct (step1 (s, l) v) as [s1 l1]. eapply same_prior_trans; [exact H | apply IH].
Qed.

Lemma phase2_same_prior (vs : list video) (s : state) (l : list string) :
  Obs.same_prior folder (disk s) (disk (fold_left step2 vs (s, l)).1).
Proof.
  revert s l. induction vs as [|v vs IH]; intros s l; cbn [fold_left].
  - apply same_prior_refl.
  - pose proof (phase2_step_same_prior s l v) as H.
    destruct (step2 (s, l) v) as [s1 l1]. eapply same_prior_trans; [exact H | apply IH].
Qed.

(** Files that belong to no video of the list are left alone. *)
Lemma phase1_frame (vs : list video) (s : state) (l : list string) (p : path) :
  (∀ v, v ∈ vs → p ≠ tpath (id v) ∧ p ≠ spath (id v)) →
  files (disk (fold_left step1 vs (s, l)).1) !! p = files (disk s) !! p.
Proof.
  revert s l. induction vs as [|v vs IH]; intros s l Hp; cbn [fold_left]; [done|].
  destruct (Hp v) as [Ht Hs]; [by left|].
  pose proof (phase1_step_frame s l v p Ht Hs) as H.
  destruct (step1 (s, l) v) as [s1 l1]. rewrite IH; [done|].
  intros u Hu. apply Hp. by right.
Qed.

Lemma phase2_frame (vs : list video) (s : state) (l : list string) (p : path) :
  (∀ v, v ∈ vs → p ≠ spath (id v)) →
  files (disk (fold_left step2 vs (s, l)).1) !! p = files (disk s) !! p.
Proof.
  revert s l. induction vs as [|v vs IH]; intros s l Hp; cbn [fold_left]; [done|].
  pose proof (phase2_step_frame s l v p (Hp v ltac:(by left))) as H.
  destruct (step2 (s, l) v) as [s1 l1]. rewrite IH; [done|].
  intros u Hu. apply Hp. by right.
Qed.

End RunFacts.

(** ** Files written by a run *)

Section WrittenFacts.
Variable w : world.
Variable a : args.
Variable folder : path.

Abbreviation tpath' i := (Store.transcript_path folder i).
Abbreviation spath' i := (Store.summary_path folder i).

Lemma written_paths_app (l l' : list event) :
  Obs.written_paths (l ++ l') = Obs.written_paths l ++ Obs.written_paths l'.
Proof. apply omap_app. Qed.

Lemma elem_of_written_paths (p : path) (l : list event) :
  p ∈ Obs.written_paths l ↔ ∃ e, e ∈ l ∧ Obs.produced e = Some p.
Proof. apply list_elem_of_omap. Qed.

Lemma phase1_step_written (s : state) (l : list string) (v : video) :
  ∃ W, Obs.written_paths (log (Pipeline.phase1_step w a folder (s, l) v).1)
       = Obs.written_paths (log s) ++ W
     ∧ NoDup W
     ∧ ∀ p, p ∈ W → p = tpath' (id v) ∨ p = spath' (id v).
Proof.
  destruct (phase1_step_cases w a folder s l v)
    as [(tp & esp & text & Ef & Htext
         & [(sp & stext & -> & Hinc & Hstext & ->) | (Hno & ->)])
       | [(esp & t & Ef & Eget & Htr & ->) | (esp & Ef & Eget & ->)]];
    cbn [fst log]; rewrite written_paths_app; cbn.
  - exists [tpath' (id v); spath' (id v)]. split; [done|]. split.
    + apply NoDup_cons. split; [|apply NoDup_singleton].
      intros ?%list_elem_of_singleton. by eapply transcript_summary_ne.
    + intros p [->|[->|[]%elem_of_nil]%elem_of_cons]%elem_of_cons; auto.
  - exists [tpath' (id v)]. split; [done|]. split; [apply NoDup_singleton|].
    intros p ->%list_elem_of_singleton. auto.
  - exists [tpath' (id v)]. split; [done|]. split; [apply NoDup_singleton|].
    intros p ->%list_elem_of_singleton. auto.
  - exists []. split; [done|]. split; [apply NoDup_nil_2|]. by intros p ?%elem_of_nil.
Qed.

Lemma phase1_written (vs : list video) (s : state) (l : list string) :
  ∃ W, Obs.written_paths (log (fold_left (Pipeline.phase1_step w a folder) vs (s, l)).1)
       = Obs.written_paths (log s) ++ W
     ∧ (∀ p, p ∈ W → ∃ v, v ∈ vs ∧ (p = tpath' (id v) ∨ p = spath' (id v)))
     ∧ (NoDup (id <$> vs) → NoDup W).
Proof.
  revert s l. induction vs as [|v vs IH]; intros s l; cbn [fold_left].
  - exists []. rewrite app_nil_r. split; [done|]. split; [by intros p ?%elem_of_nil|].
    intros _. apply NoDup_nil_2.
  - destruct (phase1_step_written s l v) as (W1 & E1 & N1 & P1).
    destruct (Pipeline.phase1_step w a folder (s, l) v) as [s1 l1]. cbn [fst] in E1.
    destruct (IH s1 l1) as (W & E & P & N).
    exists (W1 ++ W). split; [by rewrite E, E1, <- app_assoc|]. split.
    + intros p [Hp|Hp]%elem_of_app.
      * exists v. split; [by left | by apply P1].
      * destruct (P p Hp) as (u & Hu & H). exists u. split; [by right | done].
    + cbn [fmap list_fmap]. intros [Hv Hvs]%NoDup_cons.
      apply NoDup_app. split; [done|]. split; [|by apply N].
      intros p Hp1 Hp. destruct (P p Hp) as (u & Hu & H). apply Hv.
      assert (id v = id u) as ->; [|by apply list_elem_of_fmap_2].
      destruct (P1 p Hp1) as [->| ->], H as [H|H].
      * by apply transcript_path_inj in H as [_ ?].
      * by apply transcript_summary_ne in H.
      * symmetry in H. by apply transcript_summary_ne in H.
      * by apply summary_path_inj in H as [_ ?].
Qed.

Lemma phase2_step_written (s : state) (l : list string) (v : video) :
  ∃ W, Obs.written_paths (log (Pipeline.phase2_step w a folder [] (s, l) v).1)
       = Obs.written_paths (log s) ++ W
     ∧ ∀ p, p ∈ W → p = spath' (id v).
Proof.
  destruct (phase2_step_cases w a folder s l v)
    as [(Hs & ->)
       | [(Hs & Ht & ->)
         | [(t & text & Hs & Ht & Hok & ->) | (t & Hs & Ht & Hok & ->)]]];
    cbn [fst log]; rewrite written_paths_app; cbn.
  - exists []. split; [done|]. by intros p ?%elem_of_nil.
  - exists []. split; [done|]. by intros p ?%elem_of_nil.
  - exists [spath' (id v)]. split; [done|]. by intros p ->%list_elem_of_singleton.
  - exists []. split; [done|]. by intros p ?%elem_of_nil.
Qed.

Lemma phase2_written (vs : list video) (s : state) (l : list string) :
  ∃ W, Obs.written_paths (log (fold_left (Pipeline.phase2_step w a folder []) vs (s, l)).1)
       = Obs.written_paths (log s) ++ W
     ∧ ∀ p, p ∈ W → ∃ v, v ∈ vs ∧ p = spath' (id v).
Proof.
  revert s l. induction vs as [|v vs IH]; intros s l; cbn [fold_left].
  - exists []. rewrite app_nil_r. split; [done|]. by intros p ?%elem_of_nil.
  - destruct (phase2_step_written s l v) as (W1 & E1 & P1).
    destruct (Pipeline.phase2_step w a folder [] (s, l) v) as [s1 l1]. cbn [fst] in E1.
    destruct (IH s1 l1) as (W & E & P).
    exists (W1 ++ W). split; [by rewrite E, E1, <- app_assoc|].
    intros p [Hp|Hp]%elem_of_app.
    + exists v. split; [by left | by apply P1].
    + destruct (P p Hp) as (u & Hu & H). exists u. split; [by right | done].
Qed.

(** Every file a run creates or replaces is an artifact of a resolved video. *)
Lemma run_written (vs : list video) (fs : filesystem) (p : path) :
  p ∈ Obs.written_paths (log (Pipeline.run_phases w a folder vs (State fs [])).1) →
  ∃ v, v ∈ vs ∧ (p = tpath' (id v) ∨ p = spath' (id v)).
Proof.
  unfold Pipeline.run_phases, Pipeline.phase1, Pipeline.phase2.
  destruct (phase1_written vs (State fs []) []) as (W1 & E1 & P1 & _).
  destruct (fold_left _ vs (State fs [], [])) as [s1 l1]. cbn [fst log] in E1.
  destruct (phase2_written vs s1 []) as (W2 & E2 & P2).
  destruct (fold_left _ vs (s1, [])) as [s2 l2]. cbn [fst] in *.
  rewrite E2, E1. cbn. intros [Hp|Hp]%elem_of_app; [by apply P1|].
  destruct (P2 p Hp) as (v & Hv & ->). eauto.
Qed.



End WrittenFacts.



(** ** Live content *)

Section LiveFacts.
Variable w : world.
Variable is_live : string → bool.

(** The two liveness answers of the metadata service agree with one
    predicate on video ids. *)
Hypothesis lookup_live : ∀ i item, video_lookup w i = Some item → api_live item = is_live i.
Hypothesis details_live : ∀ ids i b, (i, b) ∈ live_details w ids → b = is_live i.

Let not_live (v : video) : Prop := is_live (id v) = false.
Let keyed (k : string) (v : video) : Prop := id v = k.

Lemma scan_page_keyed (cutoff : Z) (items : list playlist_item) (batch : list string)
    (m : gmap string video) :
  map_Forall keyed m → map_Forall keyed (Resolver.scan_page cutoff items batch m).2.
Proof.
  revert batch m. induction items as [|item items IH]; intros batch m Hm; cbn; [done|].
  case_bool_decide; [|done]. apply IH, map_Forall_insert_2; done.
Qed.

Lemma filter_live_not_live (channel : string) (details : list (string * bool))
    (m : gmap string video) (videos videos' : list video) :
  (∀ i b, (i, b) ∈ details → b = is_live i) →
  map_Forall keyed m → Forall not_live videos →
  Resolver.filter_live channel details m videos = Some videos' →
  Forall not_live videos'.
Proof.
  revert m videos. induction details as [|[i live] details IH]; intros m videos Hd Hm Hv; cbn.
  - by intros [= <-].
  - destruct (m !! i) as [v|] eqn:E; [|done].
    pose proof (Hm i v E) as Hk. unfold keyed in Hk.
    assert (∀ j b, (j, b) ∈ details → b = is_live j) as Hd'
      by (intros j b Hj; apply Hd; by right).
    destruct live eqn:El; cbn.
    + by apply IH.
    + apply IH; [done | by apply map_Forall_insert_2 |].
      apply Forall_app; split; [done|]. repeat constructor.
      unfold not_live. cbn. rewrite Hk. symmetry. apply Hd. by left.
Qed.

Lemma fetch_not_live (channel : string) (cutoff : Z) (later : list (list playlist_item))
    (page : list playlist_item) (n : nat) (videos videos' : list video)
    (calls calls' : list api_call) :
  Forall not_live videos →
  Resolver.fetch w channel cutoff page later n videos calls = (Some videos', calls') →
  Forall not_live videos'.
Proof.
  revert page n videos calls.
  induction later as [|next later IH]; intros page n videos calls Hv; cbn;
    pose proof (scan_page_keyed cutoff page [] ∅ (map_Forall_empty _)) as Hm;
    destruct (Resolver.scan_page cutoff page [] ∅) as [batch m]; cbn in Hm;
    destruct batch as [|b batch]; try (by intros [= <- _]);
    destruct (Resolver.filter_live _ _ _ _) as [vs|] eqn:E; try done;
    pose proof (filter_live_not_live _ _ _ _ _ (details_live _) Hm Hv E) as Hvs.
  - by intros [= <- _].
  - by apply IH.
Qed.

Lemma channel_videos_not_live (channel : string) (cutoff : Z) (v : video) :
  v ∈ Resolver.get_channel_videos w channel cutoff → is_live (id v) = false.
Proof.
  unfold Resolver.get_channel_videos, Resolver.get_channel_videos_calls.
  destruct (uploads w channel) as [[first later]|]; cbn; [|by intros ?%elem_of_nil].
  destruct (Resolver.fetch _ _ _ _ _ _ _ _) as [[vs|] calls] eqn:E; cbn;
    [|by intros ?%elem_of_nil].
  intros Hin. pose proof (fetch_not_live _ _ _ _ _ _ _ _ _ (Forall_nil_2 _) E) as H.
  by apply (proj1 (Forall_forall _ _) H).
Qed.

Lemma collect_not_live (a : args) (v : video) :
  v ∈ Resolver.collect w a → is_live (id v) = false.
Proof.
  rewrite collect_concat. intros (input & _ & Hv)%elem_of_concat_fmap.
  unfold Obs.contribution in Hv. destruct (video_ids a) eqn:Emode.
  - unfold Resolver.add_video_id, Resolver.get_video_details in Hv.
    destruct (video_lookup w input) as [item|] eqn:E; [|by apply elem_of_nil in Hv].
    rewrite Emode in Hv.
    cbn in Hv. destruct (api_live item) eqn:El; cbn in Hv; [by apply elem_of_nil in Hv|].
    apply list_elem_of_singleton in Hv. subst v. cbn.
    by rewrite <- (lookup_live _ _ E).
  - unfold Resolver.add_channel in Hv.
    destruct (get_channel_id_from_handle w input) as [channel|]; [|by apply elem_of_nil in Hv].
    destruct (PyStr.truthy channel); [|by apply elem_of_nil in Hv].
    eapply (channel_videos_not_live channel).
    destruct (Resolver.get_channel_videos w channel (Resolver.cutoff_date w a)) eqn:Ev;
      [by apply elem_of_nil in Hv | rewrite Ev; exact Hv].
Qed.

End LiveFacts.

(** C5: in either mode no video that the metadata service flags with
    live-streaming detail is in the resolved list, and a run creates or
    replaces neither a transcript nor a summary for such a video: its two
    artifact paths in the run root are as they were before the run. *)
Theorem live_content_is_excluded (w : world) (a : args) (fs : filesystem)
    (is_live : string → bool) (i : string) :
  (∀ j item, video_lookup w j = Some item → api_live item = is_live j) →
  (∀ ids j b, (j, b) ∈ live_details w ids → b = is_live j) →
  is_live i = true →
  let run := Pipeline.main w a fs in
  let folder := (Store.create_datetime_folder (folder_stamp w) fs).1 in
  (∀ v, v ∈ Resolver.collect w a → id v ≠ i)
  ∧ (∀ e, e ∈ log run.1 →
       Obs.produced e ≠ Some (Store.transcript_path folder i)
       ∧ Obs.produced e ≠ Some (Store.summary_path folder i))
  ∧ files (disk run.1) !! Store.transcript_path folder i
    = files fs !! Store.transcript_path folder i
  ∧ files (disk run.1) !! Store.summary_path folder i
    = files fs !! Store.summary_path folder i.
Proof.
  intros Hlook Hdet Hi. cbv zeta.
  assert (∀ v, v ∈ Resolver.collect w a → id v ≠ i) as Hres.
  { intros v Hv <-. pose proof (collect_not_live w is_live Hlook Hdet a v Hv). congruence. }
  split; [exact Hres|].
  unfold Pipeline.main.
  destruct (Store.create_datetime_folder (folder_stamp w) fs) as [folder fs'] eqn:Ec.
  assert (files fs' = files fs) as Efiles.
  { unfold Store.create_datetime_folder in Ec. by injection Ec as _ <-. }
  cbn [fst]. destruct (Resolver.collect w a) as [|v0 vs0] eqn:Evs.
  - cbn. rewrite Efiles. split; [|done].
    intros e ->%list_elem_of_singleton. done.
  - rewrite <- Evs in *. clear Evs.
    pose proof (run_written w a folder (Resolver.collect w a) fs') as Hw.
    unfold Pipeline.run_phases, Pipeline.phase1, Pipeline.phase2 in *.
    pose proof (phase1_frame w a folder (Resolver.collect w a) (State fs' []) []) as F1.
    destruct (fold_left _ _ (State fs' [], [])) as [s1 l1].
    pose proof (phase2_frame w a folder (Resolver.collect w a) s1 []) as F2.
    destruct (fold_left _ _ (s1, [])) as [s2 l2]. cbn [fst snd disk log] in *.
    split; [|split].
    + intros e He. split; intros Hp.
      * destruct (Hw (Store.transcript_path folder i)) as (v & Hv & [H|H]).
        { apply elem_of_written_paths. eauto. }
        { apply transcript_path_inj in H as [_ H]. by apply (Hres v Hv). }
        { by apply transcript_summary_ne in H. }
      * destruct (Hw (Store.summary_path folder i)) as (v & Hv & [H|H]).
        { apply elem_of_written_paths. eauto. }
        { symmetry in H. by apply transcript_summary_ne in H. }
        { apply summary_path_inj in H as [_ H]. by apply (Hres v Hv). }
    + rewrite F2, F1, Efiles; [done| |].
      * intros v Hv. split; [|apply transcript_summary_ne].
        intros [_ H]%transcript_path_inj. by apply (Hres v Hv).
      * intros v Hv. apply transcript_summary_ne.
    + rewrite F2, F1, Efiles; [done| |].
      * intros v Hv. split.
        { intros H. symmetry in H. by apply transcript_summary_ne in H. }
        { intros [_ H]%summary_path_inj. by apply (Hres v Hv). }
      * intros v Hv [_ H]%summary_path_inj. by apply (Hres v Hv).
Qed.

(** ** Reuse of an earlier run *)

Section ReuseFacts.
Variable w : world.
Variable a : args.
Variable folder : path.

Abbreviation find fs i := (Store.find_existing_transcript fs i folder).
Abbreviation step1 := (Pipeline.phase1_step w a folder).
Abbreviation step2 := (Pipeline.phase2_step w a folder []).

Local Ltac p1_cases s l v :=
  destruct (phase1_step_cases w a folder s l v)
    as [(tp' & esp' & text & Ef & Htext
         & [(sp & stext & -> & Hinc & Hstext & Estep) | (Hno & Estep)])
       | [(esp' & t' & Ef & Eget & Htr & Estep) | (esp' & Ef & Eget & Estep)]].

Local Ltac p2_cases s l v :=
  destruct (phase2_step_cases w a folder s l v)
    as [(Hs & Estep)
       | [(Hs & Ht & Estep)
         | [(t' & text & Hs & Ht & Hok & Estep) | (t' & Hs & Ht & Hok & Estep)]]].

Lemma phase1_log_mono (vs : list video) (s : state) (l : list string) (e : event) :
  e ∈ log s → e ∈ log (fold_left step1 vs (s, l)).1.
Proof.
  destruct (phase1_log w a folder vs s l) as [evs ->]. intros H. apply elem_of_app. by left.
Qed.

Lemma phase2_log_mono (vs : list video) (s : state) (l : list string) (e : event) :
  e ∈ log s → e ∈ log (fold_left step2 vs (s, l)).1.
Proof.
  destruct (phase2_log w a folder vs s l) as [evs ->]. intros H. apply elem_of_app. by left.
Qed.

Lemma phase1_keeps (vs : list video) (s : state) (l : list string) (p : path) :
  is_Some (files (disk s) !! p) →
  is_Some (files (disk (fold_left step1 vs (s, l)).1) !! p).
Proof.
  revert s l. induction vs as [|v vs IH]; intros s l H; cbn [fold_left]; [done|].
  pose proof (phase1_step_keeps w a folder s l v p H) as H1.
  destruct (step1 (s, l) v) as [s1 l1]. by apply IH.
Qed.

(** A video whose transcript an earlier run holds gets that transcript
    copied. *)
Lemma phase1_copies (vs : list video) (s : state) (l : list string) (v : video)
    (tp : path) (esp : option path) :
  v ∈ vs → find (disk s) (id v) = (Some tp, esp) →
  let s' := (fold_left step1 vs (s, l)).1 in
  Copy tp (Store.transcript_path folder (id v)) ∈ log s'
  ∧ is_Some (files (disk s') !! Store.transcript_path folder (id v)).
Proof.
  revert s l. induction vs as [|u vs IH]; intros s l Hin Hf; [by apply elem_of_nil in Hin|].
  cbn zeta. cbn [fold_left].
  apply elem_of_cons in Hin as [<-|Hin].
  - p1_cases s l v; rewrite Estep; try congruence.
    + rewrite Hf in Ef. injection Ef as <- _. split.
      * apply phase1_log_mono. cbn. list_member.
      * apply phase1_keeps. cbn. rewrite lookup_insert_ne by apply summary_transcript_ne.
        rewrite lookup_insert_eq. done.
    + rewrite Hf in Ef. injection Ef as <- _. split.
      * apply phase1_log_mono. cbn. list_member.
      * apply phase1_keeps. cbn. rewrite lookup_insert_eq. done.
  - pose proof (phase1_step_same_prior w a folder s l u) as Hsp.
    destruct (step1 (s, l) u) as [s1 l1]. cbn [fst] in Hsp.
    apply IH; [done|]. by rewrite (find_existing_same_prior _ _ _ _ Hsp).
Qed.

(** The extractor is called only for ids of which no earlier run holds a
    transcript. *)
Lemma phase1_extracts (vs : list video) (s : state) (l : list string) (i : string) :
  Extract i ∈ log (fold_left step1 vs (s, l)).1 →
  Extract i ∈ log s ∨ (find (disk s) i).1 = None.
Proof.
  revert s l. induction vs as [|u vs IH]; intros s l; cbn [fold_left]; [auto|].
  pose proof (phase1_step_same_prior w a folder s l u) as Hsp.
  intros H. assert (Extract i ∈ log (step1 (s, l) u).1
                    ∨ (find (disk s) i).1 = None) as [H1|H1]; [|clear H|by right].
  { destruct (step1 (s, l) u) as [s1 l1]. cbn [fst] in *.
    destruct (IH _ _ H) as [?|?]; [by left|right].
    by rewrite <- (find_existing_same_prior _ _ _ _ Hsp). }
  clear Hsp. p1_cases s l u; rewrite Estep in H1; cbn in H1;
    apply elem_of_app in H1 as [H1|H1]; auto;
    list_cases H1; try discriminate H1; injection H1 as ->; right; by rewrite Ef.
Qed.



End ReuseFacts.

(** ** Summaries *)

Section SummaryFacts.
Variable w : world.
Variable a : args.
Variable folder : path.

Abbreviation step1 := (Pipeline.phase1_step w a folder).
Abbreviation step2 := (Pipeline.phase2_step w a folder []).
Abbreviation summarize t :=
  (Summarizer.summarize_with_openrouter w t (prompt a) (model a)).

Local Ltac p1_cases s l v :=
  destruct (phase1_step_cases w a folder s l v)
    as [(tp' & esp' & text & Ef & Htext
         & [(sp & stext & -> & Hinc & Hstext & Estep) | (Hno & Estep)])
       | [(esp' & t' & Ef & Eget & Htr & Estep) | (esp' & Ef & Eget & Estep)]].

Local Ltac p2_cases s l v :=
  destruct (phase2_step_cases w a folder s l v)
    as [(Hs & Estep)
       | [(Hs & Ht & Estep)
         | [(t' & text & Hs & Ht & Hok & Estep) | (t' & Hs & Ht & Hok & Estep)]]].


(** Phase 2 neither extracts nor copies, and it summarizes only what is in
    the run root when it starts. *)
Lemma phase2_events (vs : list video) (s : state) (l : list string) (e : event) :
  e ∈ log (fold_left step2 vs (s, l)).1 →
  e ∈ log s
  ∨ (∃ m, e = Print m)
  ∨ (∃ i t, e = Summarize i t
            ∧ files (disk s) !! Store.transcript_path folder i = Some t)
  ∨ (∃ i text, e = Write (Store.summary_path folder i) text).
Proof.
  revert s l. induction vs as [|u vs IH]; intros s l; cbn [fold_left]; [auto|].
  pose proof (phase2_step_frame w a folder s l u) as F.
  intros H.
  assert (e ∈ log (step2 (s, l) u).1
          ∨ (∃ m, e = Print m)
          ∨ (∃ i t, e = Summarize i t
                    ∧ files (disk s) !! Store.transcript_path folder i = Some t)
          ∨ (∃ i text, e = Write (Store.summary_path folder i) text))
    as [H1|H1]; [|clear H F|by right].
  { destruct (step2 (s, l) u) as [s1 l1]. cbn [fst] in *.
    destruct (IH _ _ H) as [?|[?|[(i & t & -> & Hi)|?]]]; auto.
    right. right. left. exists i, t. split; [done|].
    rewrite <- F; [done|]. apply transcript_summary_ne. }
  p2_cases s l u; rewrite Estep in H1; cbn in H1;
    apply elem_of_app in H1 as [H1|H1]; auto; list_cases H1; subst e; eauto 10.
Qed.


(** A video without a transcript in the run root is not summarized. *)
Lemma phase2_without_transcript (vs : list video) (s : state) (l : list string)
    (i : string) :
  files (disk s) !! Store.transcript_path folder i = None →
  files (disk s) !! Store.summary_path folder i = None →
  let r := fold_left step2 vs (s, l) in
  files (disk r.1) !! Store.transcript_path folder i = None
  ∧ files (disk r.1) !! Store.summary_path folder i = None
  ∧ (i ∉ l → i ∉ r.2)
  ∧ (∀ t, Summarize i t ∈ log r.1 → Summarize i t ∈ log s).
Proof.
  intros Htr Hsum. cbn zeta.
  pose proof (phase2_frame w a folder vs s l (Store.transcript_path folder i)) as F.
  rewrite F by (intros; apply transcript_summary_ne). split; [done|]. clear F.
  revert s l Htr Hsum. induction vs as [|u vs IH]; intros s l Htr Hsum; [done|].
  cbn [fold_left].
  pose proof (phase2_step_frame w a folder s l u) as F.
  assert (files (disk (step2 (s, l) u).1) !! Store.summary_path folder i = None
          ∧ (i ∉ l → i ∉ (step2 (s, l) u).2)
          ∧ (∀ t, Summarize i t ∈ log (step2 (s, l) u).1 → Summarize i t ∈ log s))
    as (S1 & S2 & S3).
  { destruct (decide (id u = i)) as [<-|Hne].
    - p2_cases s l u; rewrite Estep; cbn; try congruence.
      + rewrite Hsum in Hs. by destruct Hs.
      + split; [done|]. split; [done|].
        intros t [H|H]%elem_of_app; [done|]. list_cases H; discriminate H.
    - split; [rewrite F; [done|]; by intros [_ ?]%summary_path_inj|].
      split.
      + intros Hl. p2_cases s l u; rewrite Estep; cbn; try done;
          apply not_elem_of_app; split; try done;
          by intros ?%list_elem_of_singleton.
      + intros t. p2_cases s l u; rewrite Estep; cbn;
          intros [H|H]%elem_of_app; try done; list_cases H; try discriminate H;
          injection H as ? _; congruence. }
  destruct (step2 (s, l) u) as [s1 l1]. cbn [fst snd] in *.
  destruct (IH s1 l1) as (I2 & I3 & I4); [|done|].
  - rewrite F; [done|]. apply transcript_summary_ne.
  - split; [done|]. split; auto.
Qed.

End SummaryFacts.




(** ** Videos without subtitles *)

Section SubtitleFacts.
Variable w : world.
Variable a : args.
Variable folder : path.

Abbreviation step1 := (Pipeline.phase1_step w a folder).
Abbreviation step2 := (Pipeline.phase2_step w a folder []).

Local Ltac p1_cases s l v :=
  destruct (phase1_step_cases w a folder s l v)
    as [(tp' & esp' & text & Ef & Htext
         & [(sp & stext & -> & Hinc & Hstext & Estep) | (Hno & Estep)])
       | [(esp' & t' & Ef & Eget & Htr & Estep) | (esp' & Ef & Eget & Estep)]].

Local Ltac p2_cases s l v :=
  destruct (phase2_step_cases w a folder s l v)
    as [(Hs & Estep)
       | [(Hs & Ht & Estep)
         | [(t' & text & Hs & Ht & Hok & Estep) | (t' & Hs & Ht & Hok & Estep)]]].

Lemma phase2_step_keeps (s : state) (l : list string) (v : video) (p : path) :
  is_Some (files (disk s) !! p) → is_Some (files (disk (step2 (s, l) v).1) !! p).
Proof.
  intros H. p2_cases s l v; rewrite Estep; cbn; try done.
  apply lookup_insert_is_Some'. by right.
Qed.

Lemma phase2_keeps (vs : list video) (s : state) (l : list string) (p : path) :
  is_Some (files (disk s) !! p) →
  is_Some (files (disk (fold_left step2 vs (s, l)).1) !! p).
Proof.
  revert s l. induction vs as [|v vs IH]; intros s l H; cbn [fold_left]; [done|].
  pose proof (phase2_step_keeps s l v p H) as H1.
  destruct (step2 (s, l) v) as [s1 l1]. by apply IH.
Qed.

(** A file that a phase has created or replaced exists when the phase
    ends. *)
Lemma phase1_written_exists (vs : list video) (s : state) (l : list string) (p : path) :
  p ∈ Obs.written_paths (log (fold_left step1 vs (s, l)).1) →
  p ∈ Obs.written_paths (log s)
  ∨ is_Some (files (disk (fold_left step1 vs (s, l)).1) !! p).
Proof.
  revert s l. induction vs as [|u vs IH]; intros s l; cbn [fold_left]; [auto|].
  pose proof (phase1_keeps w a folder vs (step1 (s, l) u).1 (step1 (s, l) u).2 p) as K.
  assert (p ∈ Obs.written_paths (log (step1 (s, l) u).1) →
          p ∈ Obs.written_paths (log s) ∨ is_Some (files (disk (step1 (s, l) u).1) !! p))
    as S1.
  { p1_cases s l u; rewrite Estep; cbn [fst log disk]; rewrite written_paths_app; cbn;
      intros [H|H]%elem_of_app; auto; list_cases H; subst p; right;
      repeat first [ by rewrite lookup_insert_eq
                   | rewrite lookup_insert_ne by apply summary_transcript_ne ]. }
  destruct (step1 (s, l) u) as [s1 l1]. cbn [fst snd] in *.
  intros H. destruct (IH _ _ H) as [H1|H1]; [|by right].
  destruct (S1 H1) as [?|?]; auto.
Qed.

Lemma phase2_written_exists (vs : list video) (s : state) (l : list string) (p : path) :
  p ∈ Obs.written_paths (log (fold_left step2 vs (s, l)).1) →
  p ∈ Obs.written_paths (log s)
  ∨ is_Some (files (disk (fold_left step2 vs (s, l)).1) !! p).
Proof.
  revert s l. induction vs as [|u vs IH]; intros s l; cbn [fold_left]; [auto|].
  pose proof (phase2_keeps vs (step2 (s, l) u).1 (step2 (s, l) u).2 p) as K.
  assert (p ∈ Obs.written_paths (log (step2 (s, l) u).1) →
          p ∈ Obs.written_paths (log s) ∨ is_Some (files (disk (step2 (s, l) u).1) !! p))
    as S1.
  { p2_cases s l u; rewrite Estep; cbn [fst log disk]; rewrite written_paths_app; cbn;
      intros [H|H]%elem_of_app; auto; list_cases H; subst p; right.
    by rewrite lookup_insert_eq. }
  destruct (step2 (s, l) u) as [s1 l1]. cbn [fst snd] in *.
  intros H. destruct (IH _ _ H) as [H1|H1]; [|by right].
  destruct (S1 H1) as [?|?]; auto.
Qed.

(** Phase 1 leaves a video without usable subtitles, and without a
    transcript in an earlier run, without artifacts. *)
Lemma phase1_without_subtitles (vs : list video) (s : state) (l : list string)
    (i : string) :
  (Store.find_existing_transcript (disk s) i folder).1 = None →
  Pipeline.get_transcript w i = None ∨ Pipeline.get_transcript w i = Some EmptyString →
  files (disk s) !! Store.transcript_path folder i = None →
  files (disk s) !! Store.summary_path folder i = None →
  let r := fold_left step1 vs (s, l) in
  files (disk r.1) !! Store.transcript_path folder i = None
  ∧ files (disk r.1) !! Store.summary_path folder i = None
  ∧ (i ∉ l → i ∉ r.2)
  ∧ (∀ v, v ∈ vs → id v = i → Print (CouldNotRetrieveTranscript i) ∈ log r.1).
Proof.
  revert s l. induction vs as [|u vs IH]; intros s l Hfind Hsub Htp Hsum; cbn zeta.
  - cbn. split; [done|]. split; [done|]. split; [done|]. by intros v ?%elem_of_nil.
  - cbn [fold_left].
    pose proof (phase1_step_same_prior w a folder s l u) as Hsp.
    pose proof (phase1_step_frame w a folder s l u) as F.
    pose proof (phase1_log_mono w a folder vs (step1 (s, l) u).1 (step1 (s, l) u).2
                  (Print (CouldNotRetrieveTranscript i))) as M.
    assert (files (disk (step1 (s, l) u).1) !! Store.transcript_path folder i = None
            ∧ files (disk (step1 (s, l) u).1) !! Store.summary_path folder i = None
            ∧ (i ∉ l → i ∉ (step1 (s, l) u).2)
            ∧ (id u = i → Print (CouldNotRetrieveTranscript i) ∈ log (step1 (s, l) u).1))
      as (S1 & S2 & S3 & S4).
    { destruct (decide (id u = i)) as [<-|Hne].
      - p1_cases s l u; rewrite Estep; cbn [fst snd disk log].
        + rewrite Ef in Hfind. discriminate Hfind.
        + rewrite Ef in Hfind. discriminate Hfind.
        + destruct Hsub as [Hsub|Hsub]; rewrite Hsub in Eget; [discriminate Eget|].
          injection Eget as <-. discriminate Htr.
        + split; [done|]. split; [done|]. split; [done|]. intros _. list_member.
      - rewrite !F by first [ by intros [_ ?]%transcript_path_inj
                            | by intros [_ ?]%summary_path_inj
                            | apply transcript_summary_ne
                            | apply summary_transcript_ne ].
        split; [done|]. split; [done|]. split; [|done].
        intros Hl. p1_cases s l u; rewrite Estep; cbn; try done;
          apply not_elem_of_app; split; try done;
          by intros ?%list_elem_of_singleton. }
    destruct (step1 (s, l) u) as [s1 l1]. cbn [fst snd] in *.
    destruct (IH s1 l1) as (I1 & I2 & I3 & I4); try done.
    { by rewrite (find_existing_same_prior _ _ _ _ Hsp). }
    split; [done|]. split; [done|]. split; [auto|].
    intros v [->|Hin]%elem_of_cons Hid; [auto | eauto].
Qed.

(** Phase 1 never calls the summarizer. *)
Lemma phase1_no_summarize (vs : list video) (s : state) (l : list string)
    (i t : string) :
  Summarize i t ∈ log (fold_left step1 vs (s, l)).1 → Summarize i t ∈ log s.
Proof.
  revert s l. induction vs as [|u vs IH]; intros s l; cbn [fold_left]; [done|].
  assert (Summarize i t ∈ log (step1 (s, l) u).1 → Summarize i t ∈ log s) as S1.
  { p1_cases s l u; rewrite Estep; cbn;
      intros [H|H]%elem_of_app; try done; list_cases H; discriminate H. }
  destruct (step1 (s, l) u) as [s1 l1]. cbn [fst] in *. intros H. by apply S1, (IH s1 l1).
Qed.

End SubtitleFacts.

Lemma fold_left_ext {A B : Type} (f g : B → A → B) (xs : list A) (b : B) :
  (∀ b x, f b x = g b x) → fold_left f xs b = fold_left g xs b.
Proof.
  intros H. revert b. induction xs as [|x xs IH]; intros b; cbn; [done|].
  by rewrite H, IH.
Qed.

(** For Phase 1, subtitles that parse to the empty string are the same as
    no subtitles. *)
Lemma phase1_step_mute (w : world) (a : args) (folder : path) (i payload : string)
    (acc : state * list string) (u : video) :
  subtitles w i = Some payload → Vtt.parse payload = EmptyString →
  Pipeline.phase1_step w a folder acc u = Pipeline.phase1_step (Obs.mute w i) a folder acc u.
Proof.
  intros Hsub Hparse. destruct acc as [s l]. unfold Pipeline.phase1_step. cbv zeta.
  destruct (Store.find_existing_transcript _ _ _) as [[tp|] esp]; [reflexivity|].
  unfold Pipeline.get_transcript, Obs.mute. cbn [subtitles].
  case_decide as E; [|reflexivity]. rewrite E, Hsub. cbn. by rewrite Hparse.
Qed.

(** Within the two phases: subtitles that parse to the empty string leave
    the video exactly as absent subtitles do. *)
Lemma run_treats_empty_transcript_as_absent (w : world) (a : args) (folder : path)
    (fs : filesystem) (vs : list video) (v : video) (payload : string) :
  v ∈ vs →
  subtitles w (id v) = Some payload →
  Vtt.parse payload = EmptyString →
  (Store.find_existing_transcript fs (id v) folder).1 = None →
  files fs !! Store.transcript_path folder (id v) = None →
  files fs !! Store.summary_path folder (id v) = None →
  let run := Pipeline.run_phases w a folder vs (State fs []) in
  run = Pipeline.run_phases (Obs.mute w (id v)) a folder vs (State fs [])
  ∧ Print (CouldNotRetrieveTranscript (id v)) ∈ log run.1
  ∧ files (disk run.1) !! Store.transcript_path folder (id v) = None
  ∧ files (disk run.1) !! Store.summary_path folder (id v) = None
  ∧ (∀ e, e ∈ log run.1 →
       Obs.produced e ≠ Some (Store.transcript_path folder (id v))
       ∧ Obs.produced e ≠ Some (Store.summary_path folder (id v)))
  ∧ (∀ t, Summarize (id v) t ∉ log run.1).
Proof.
  intros Hin Hsub Hparse Hfind Htr Hsum. cbn zeta. split.
  { unfold Pipeline.run_phases, Pipeline.phase1, Pipeline.phase2.
    rewrite (fold_left_ext (Pipeline.phase1_step w a folder)
               (Pipeline.phase1_step (Obs.mute w (id v)) a folder))
      by (intros; by eapply phase1_step_mute).
    reflexivity. }
  unfold Pipeline.run_phases, Pipeline.phase1, Pipeline.phase2.
  assert (Pipeline.get_transcript w (id v) = None
          ∨ Pipeline.get_transcript w (id v) = Some EmptyString) as Hget.
  { right. unfold Pipeline.get_transcript. rewrite Hsub. cbn. by rewrite Hparse. }
  destruct (phase1_without_subtitles w a folder vs (State fs []) [] (id v)
              Hfind Hget Htr Hsum) as (T1 & S1 & _ & P1).
  pose proof (phase1_written_exists w a folder vs (State fs []) []) as W1.
  pose proof (phase1_no_summarize w a folder vs (State fs []) [] (id v)) as N1.
  destruct (fold_left _ vs (State fs [], [])) as [s1 l1]. cbn [fst snd disk log] in *.
  destruct (phase2_without_transcript w a folder vs s1 [] (id v) T1 S1)
    as (T2 & S2 & _ & N2).
  pose proof (phase2_written_exists w a folder vs s1 []) as W2.
  pose proof (phase2_log_mono w a folder vs s1 []) as M2.
  pose proof (phase2_events w a folder vs s1 []) as E2.
  destruct (fold_left _ vs (s1, [])) as [s2 l2]. cbn [fst snd] in *.
  assert (∀ p, files (disk s2) !! p = None → files (disk s1) !! p = None →
               p ∉ Obs.written_paths (log s2)) as Hnot.
  { intros p H2 H1 Hp. destruct (W2 p Hp) as [Hp1|[? ?]]; [|congruence].
    destruct (W1 p Hp1) as [Hp0|[? ?]]; [|congruence]. by apply elem_of_nil in Hp0. }
  split; [apply M2, (P1 v Hin eq_refl)|]. split; [done|]. split; [done|]. split.
  - intros e He. split; intros Hp.
    + apply (Hnot _ T2 T1). apply elem_of_written_paths. eauto.
    + apply (Hnot _ S2 S1). apply elem_of_written_paths. eauto.
  - intros t Ht. apply N2, N1 in Ht. by apply elem_of_nil in Ht.
Qed.

Lemma live_content_is_excluded_witness :
  let a := Scenario.args_ids ["V1"; "L1"] in
  let run := Pipeline.main Scenario.world_ok a Scenario.empty_disk in
  let folder := (Store.create_datetime_folder (folder_stamp Scenario.world_ok)
                   Scenario.empty_disk).1 in
  (∀ v, v ∈ Resolver.collect Scenario.world_ok a → id v ≠ "L1")
  ∧ (∀ e, e ∈ log run.1 →
       Obs.produced e ≠ Some (Store.transcript_path folder "L1")
       ∧ Obs.produced e ≠ Some (Store.summary_path folder "L1"))
  ∧ files (disk run.1) !! Store.transcript_path folder "L1"
    = files Scenario.empty_disk !! Store.transcript_path folder "L1"
  ∧ files (disk run.1) !! Store.summary_path folder "L1"
    = files Scenario.empty_disk !! Store.summary_path folder "L1".
Proof.
  cbv zeta.
  apply (live_content_is_excluded Scenario.world_ok (Scenario.args_ids ["V1"; "L1"])
           Scenario.empty_disk (λ i, bool_decide (i = "L1")) "L1").
  - intros j item. cbn. unfold Scenario.lookup.
    destruct (decide (j = "V1")) as [->|_]; [intros [= <-]; reflexivity|].
    destruct (decide (j = "V2")) as [->|_]; [intros [= <-]; reflexivity|].
    destruct (decide (j = "E1")) as [->|_]; [intros [= <-]; reflexivity|].
    destruct (decide (j = "OLD")) as [->|_]; [intros [= <-]; reflexivity|].
    destruct (decide (j = "L1")) as [->|_]; [intros [= <-]; reflexivity|].
    discriminate.
  - intros ids j b. cbn.
    intros (i & [= -> ->] & _)%list_elem_of_fmap. reflexivity.
  - reflexivity.
Defined.

(** ** The subtitle parser *)

Lemma strip_tags_clean (line : string) : VttSpec.strip_tags line = Vtt.clean line.
Proof. reflexivity. Qed.

Lemma is_text_line_amended (line : string) :
  Vtt.is_text_line line = negb (VttSpec.discarded_amended line).
Proof.
  unfold Vtt.is_text_line, VttSpec.discarded_amended, VttSpec.discarded,
    VttSpec.is_header, VttSpec.is_comment, VttSpec.is_timing, VttSpec.is_blank,
    VttSpec.is_cue_index.
  destruct (PyStr.truthy line), (PyStr.startswith "WEBVTT" line),
    (PyStr.startswith "NOTE" line), (PyStr.contains "-->" line), (PyStr.isdigit line);
    reflexivity.
Qed.

(** What one line adds to the transcript. *)
Lemma parse_line_contribution (acc : list string) (line : string) :
  Vtt.parse_line acc line = acc ++ VttSpec.cue_texts VttSpec.discarded_amended [line].
Proof.
  unfold Vtt.parse_line, VttSpec.cue_texts. cbn [fmap list_fmap].
  rewrite is_text_line_amended, filter_cons.
  destruct (VttSpec.discarded_amended (PyStr.strip line)) eqn:E; cbn [negb].
  - rewrite decide_False by done. rewrite filter_nil. cbn [fmap list_fmap].
    rewrite filter_nil. by rewrite app_nil_r.
  - rewrite decide_True by done. rewrite filter_nil. cbn [fmap list_fmap].
    change (VttSpec.strip_tags (PyStr.strip line)) with (Vtt.clean (PyStr.strip line)).
    rewrite filter_cons, filter_nil.
    destruct (PyStr.truthy (Vtt.clean (PyStr.strip line))) eqn:Et.
    + by rewrite decide_True.
    + rewrite decide_False by done. by rewrite app_nil_r.
Qed.

Lemma cue_texts_app (drop : string → bool) (l1 l2 : list string) :
  VttSpec.cue_texts drop (l1 ++ l2) = VttSpec.cue_texts drop l1 ++ VttSpec.cue_texts drop l2.
Proof. unfold VttSpec.cue_texts. by rewrite fmap_app, filter_app, fmap_app, filter_app. Qed.

Lemma parse_lines_from (lines : list string) (acc : list string) :
  fold_left Vtt.parse_line lines acc
  = acc ++ VttSpec.cue_texts VttSpec.discarded_amended lines.
Proof.
  revert acc. induction lines as [|line lines IH]; intros acc; cbn [fold_left].
  - unfold VttSpec.cue_texts. cbn. by rewrite app_nil_r.
  - rewrite IH, parse_line_contribution, <- app_assoc.
    by rewrite <- (cue_texts_app _ [line] lines).
Qed.

(** ** The run root *)

Lemma show_nat_inj (n m : nat) : Store.show_nat n = Store.show_nat m → n = m.
Proof.
  unfold Store.show_nat. intros H.
  apply (f_equal DecimalString.NilEmpty.uint_of_string) in H.
  rewrite !DecimalString.NilEmpty.usu in H. injection H as H.
  by apply DecimalNat.Unsigned.to_uint_inj.
Qed.

Lemma folder_candidate_inj (base : string) (n m : nat) :
  Store.folder_candidate base n = Store.folder_candidate base m → n = m.
Proof.
  destruct n as [|n], m as [|m]; cbn [Store.folder_candidate]; intros H.
  - reflexivity.
  - apply (f_equal String.length) in H. rewrite !length_app_str in H. cbn in H. lia.
  - apply (f_equal String.length) in H. rewrite !length_app_str in H. cbn in H. lia.
  - by apply app_inv_head_str, app_inv_head_str, show_nat_inj in H.
Qed.

(** The loop of [create_datetime_folder] returns the first free candidate
    if there is one within the bound. *)
Lemma first_free_finds (names : list string) (base : string) (fuel counter : nat) :
  (∃ k, (k < fuel)%nat ∧ Store.folder_candidate base (counter + k) ∉ names) →
  Store.first_free names base counter fuel ∉ names.
Proof.
  revert counter. induction fuel as [|fuel IH]; intros counter (k & Hk & Hfree); [lia|].
  cbn [Store.first_free]. case_bool_decide as Hin; [|done].
  apply IH. destruct k as [|k].
  - by rewrite Nat.add_0_r in Hfree.
  - exists k. split; [lia|]. by rewrite Nat.add_succ_comm.
Qed.

(** Among more candidates than there are names, one is free. *)
Lemma free_candidate_exists (names : list string) (base : string) (counter : nat) :
  ∃ k, (k < S (length names))%nat ∧ Store.folder_candidate base (counter + k) ∉ names.
Proof.
  set (cands := (λ k, Store.folder_candidate base (counter + k)) <$> seq 0 (S (length names))).
  destruct (decide (Forall (λ c, c ∈ names) cands)) as [Hall|Hnot].
  - exfalso. assert (NoDup cands) as Hnd.
    { apply NoDup_fmap_2; [|apply NoDup_seq].
      intros k k' H%folder_candidate_inj. lia. }
    assert (cands ⊆+ names) as Hsub.
    { apply NoDup_submseteq; [done|]. by apply Forall_forall. }
    apply submseteq_length in Hsub. unfold cands in Hsub.
    rewrite length_fmap, length_seq in Hsub. lia.
  - apply not_Forall_Exists in Hnot; [|apply _].
    apply Exists_exists in Hnot as (c & Hc & Hfree).
    apply list_elem_of_fmap in Hc as (k & -> & Hk%elem_of_seq).
    exists k. split; [lia | done].
Qed.

Lemma first_free_is_free (names : list string) (base : string) :
  Store.first_free names base O (S (length names)) ∉ names.
Proof. apply first_free_finds, (free_candidate_exists names base O). Qed.

(** In a file system whose files below [processed] all lie in listed
    entries, the run root that [create_datetime_folder] returns holds no
    artifact, and creating it changes nothing that
    [find_existing_transcript] reports. *)
Lemma created_root_is_fresh (base : string) (fs : filesystem) :
  Obs.listed fs →
  let created := Store.create_datetime_folder base fs in
  Obs.fresh created.1 created.2
  ∧ files created.2 = files fs
  ∧ ∀ i, Store.find_existing_transcript created.2 i created.1
         = Store.find_existing_transcript fs i created.1.
Proof.
  intros Hl. cbn zeta. unfold Store.create_datetime_folder. cbn [fst snd files].
  set (entries := default [] (processed_entries fs)) in *.
  pose proof (first_free_is_free entries.*1 base) as Hfree.
  rewrite length_fmap in Hfree.
  set (name := Store.first_free entries.*1 base 0 (S (length entries))) in *.
  split; [|split; [done|]].
  - intros i. unfold Store.transcript_path, Store.summary_path. cbn.
    split; apply eq_None_not_Some; intros H; apply Hfree, (Hl name _ H).
  - intros i. unfold Store.find_existing_transcript. cbn [processed_entries].
    rewrite fold_left_app. cbn [fold_left Store.add_datetime_folder].
    rewrite bool_decide_eq_false_2 by (by intros H; apply H). cbn [andb].
    assert (∀ folders, Store.search_folders
                         (Filesystem (Some (entries ++ [(name, true)])) (files fs)) i folders
                       = Store.search_folders fs i folders) as Hs.
    { induction folders as [|f folders IH]; cbn [Store.search_folders]; [done|].
      unfold Store.file_exists. cbn [files]. by rewrite IH. }
    rewrite Hs. unfold entries. destruct (processed_entries fs); done.
Qed.

(** ** Whole runs *)

Lemma empty_disk_listed : Obs.listed Scenario.empty_disk.
Proof. intros name rest [x H]. cbn in H. by rewrite lookup_empty in H. Qed.

Lemma disk_with_prior_listed : Obs.listed Scenario.disk_with_prior.
Proof.
  intros name rest [x H]. cbn in H.
  apply lookup_singleton_Some in H as [H _]. injection H as <- _.
  cbn. by left.
Qed.



(** C10: in a run of [main], when the subtitles retrieved for a resolved
    video parse to the empty string (and no earlier run holds a transcript
    of it), the run is the run of the world in which the extractor finds no
    subtitles for that video: Phase 1 prints that no transcript could be
    retrieved, no transcript and no summary file exists for the video when
    the run ends, no event of the run creates either file, and the
    summarizer is never called for it. *)
Theorem empty_transcript_is_treated_as_absent (w : world) (a : args) (fs : filesystem)
    (v : video) (payload : string) :
  Obs.listed fs →
  v ∈ Resolver.collect w a →
  subtitles w (id v) = Some payload →
  Vtt.parse payload = EmptyString →
  (Store.find_existing_transcript fs (id v)
     (Store.create_datetime_folder (folder_stamp w) fs).1).1 = None →
  let folder := (Store.create_datetime_folder (folder_stamp w) fs).1 in
  let run := Pipeline.main w a fs in
  run = Pipeline.main (Obs.mute w (id v)) a fs
  ∧ Print (CouldNotRetrieveTranscript (id v)) ∈ log run.1
  ∧ files (disk run.1) !! Store.transcript_path folder (id v) = None
  ∧ files (disk run.1) !! Store.summary_path folder (id v) = None
  ∧ (∀ e, e ∈ log run.1 →
       Obs.produced e ≠ Some (Store.transcript_path folder (id v))
       ∧ Obs.produced e ≠ Some (Store.summary_path folder (id v)))
  ∧ (∀ t, Summarize (id v) t ∉ log run.1).
Proof.
  intros Hl Hin Hsub Hparse Hfind. cbv zeta.
  destruct (created_root_is_fresh (folder_stamp w) fs Hl) as (Hfresh & Hfiles & Hfe).
  unfold Pipeline.main.
  change (folder_stamp (Obs.mute w (id v))) with (folder_stamp w).
  change (Resolver.collect (Obs.mute w (id v)) a) with (Resolver.collect w a).
  destruct (Store.create_datetime_folder (folder_stamp w) fs) as [folder fs'].
  cbn [fst snd] in *.
  destruct (Resolver.collect w a) as [|v0 vs0] eqn:Evs; [by apply elem_of_nil in Hin|].
  rewrite <- Evs in *. rewrite <- Hfe in Hfind.
  pose proof (run_treats_empty_transcript_as_absent w a folder fs' (Resolver.collect w a)
                v payload Hin Hsub Hparse Hfind
                (proj1 (Hfresh (id v))) (proj2 (Hfresh (id v)))) as H.
  cbn zeta in H. destruct H as (H0 & H).
  rewrite <- H0. destruct (Pipeline.run_phases w a folder _ _) as [s2 r].
  cbn [fst] in *. split; [reflexivity | exact H].
Qed.

Lemma empty_transcript_is_treated_as_absent_witness :
  let a := Scenario.args_ids ["V1"; "E1"] in
  let folder := (Store.create_datetime_folder (folder_stamp Scenario.world_ok)
                   Scenario.empty_disk).1 in
  let run := Pipeline.main Scenario.world_ok a Scenario.empty_disk in
  run = Pipeline.main (Obs.mute Scenario.world_ok "E1") a Scenario.empty_disk
  ∧ Print (CouldNotRetrieveTranscript "E1") ∈ log run.1
  ∧ files (disk run.1) !! Store.transcript_path folder "E1" = None
  ∧ files (disk run.1) !! Store.summary_path folder "E1" = None
  ∧ (∀ e, e ∈ log run.1 →
       Obs.produced e ≠ Some (Store.transcript_path folder "E1")
       ∧ Obs.produced e ≠ Some (Store.summary_path folder "E1"))
  ∧ (∀ t, Summarize "E1" t ∉ log run.1).
Proof.
  cbv zeta.
  apply (empty_transcript_is_treated_as_absent Scenario.world_ok
           (Scenario.args_ids ["V1"; "E1"]) Scenario.empty_disk
           (Video "E1" "mute" (Scenario.today - 30) (Some false) (Some "UCA") (Some "Chan A"))
           ("WEBVTT" +:+ nl +:+ nl +:+ "1" +:+ nl +:+ "00:00.000 --> 00:01.000"
            +:+ nl +:+ "<c></c>")).
  - intros name rest [x H]. cbn in H. by rewrite lookup_empty in H.
  - apply list_elem_of_In. vm_compute. right. left. reflexivity.
  - reflexivity.
  - vm_compute. reflexivity.
  - vm_compute. reflexivity.
Defined.

(** ** The older variant's Phase 2 *)

(** The older variant writes whatever string the summarizer returns, an
    error message included. *)
Lemma legacy_writes_any_summary (w : world) (a : args) (s : state) (v : video)
    (t r : string) :
  files (disk s) !! Legacy.summary_filename (id v) = None →
  files (disk s) !! Legacy.transcript_filename (id v) = Some t →
  Summarizer.summarize_with_openrouter w t (prompt a) "qwen/qwen3-30b-a3b-instruct-2507"
  = Some r →
  ∃ s', Legacy.phase2_step w a (Running s) v = Running s'
        ∧ files (disk s') !! Legacy.summary_filename (id v)
          = Some (Legacy.summary_header w v +:+ r).
Proof.
  intros Hs Ht Hr. unfold Legacy.phase2_step, Store.file_exists. cbv zeta.
  change (disk (Pipeline.say (ProcessingSummary (id v)) s)) with (disk s).
  rewrite bool_decide_eq_false_2 by (rewrite Hs; by intros [? ?]).
  rewrite Ht, Hr. eexists. split; [reflexivity|]. cbn. by rewrite lookup_insert_eq.
Qed.

Example legacy_persists_error_text :
  let v := Video "V1" "one" (Scenario.today - 10) None None None in
  let s := State (Filesystem None {[ Legacy.transcript_filename "V1" := "hello there" ]}) [] in
  ∃ s', Legacy.phase2_step Scenario.world_no_prompt (Scenario.args_ids ["V1"]) (Running s) v
        = Running s'
        ∧ files (disk s') !! Legacy.summary_filename "V1"
          = Some (Legacy.summary_header Scenario.world_no_prompt v +:+
                  "Error: prompt.txt file not found. Please ensure the prompt file exists in the project directory.").
Proof.
  cbv zeta.
  apply (legacy_writes_any_summary Scenario.world_no_prompt (Scenario.args_ids ["V1"])
           (State (Filesystem None {[ Legacy.transcript_filename "V1" := "hello there" ]}) [])
           (Video "V1" "one" (Scenario.today - 10) None None None) "hello there");
    by vm_compute.
Qed.

(** ** The string primitives *)

Lemma split_lines_nonempty (s : string) : PyStr.split_lines s ≠ [].
Proof. destruct s as [|c s]; cbn; [done|]. case_decide; [done|]. by destruct (PyStr.split_lines s). Qed.

(** Splitting at newlines loses nothing: joining the lines with newlines
    gives the payload back. *)
Lemma join_split_lines (s : string) : PyStr.join nl (PyStr.split_lines s) = s.
Proof.
  induction s as [|c s IH]; [reflexivity|].
  cbn [PyStr.split_lines]. case_decide as E.
  - subst c. pose proof (split_lines_nonempty s) as Hne.
    destruct (PyStr.split_lines s) as [|h t] eqn:El; [done|].
    change (PyStr.join nl (EmptyString :: h :: t))
      with (EmptyString +:+ nl +:+ PyStr.join nl (h :: t)).
    rewrite IH. reflexivity.
  - pose proof (split_lines_nonempty s) as Hne.
    destruct (PyStr.split_lines s) as [|h t] eqn:El; [done|].
    destruct t as [|h' t]; cbn [PyStr.join] in *.
    + by rewrite IH.
    + rewrite app_cons_str. by rewrite IH.
Qed.

Lemma startswith_app (p s : string) : PyStr.startswith p (p +:+ s) = true.
Proof.
  induction p as [|c p IH]; [reflexivity|].
  rewrite app_cons_str. cbn. by rewrite decide_True.
Qed.

Lemma remove_from_skip (old r s : string) :
  PyStr.remove_from old (String.length r) (r +:+ s) = PyStr.remove_from old O s.
Proof.
  induction r as [|c r IH]; [reflexivity|].
  rewrite app_cons_str. cbn. exact IH.
Qed.

(** A leading occurrence of [old] is removed. *)
Lemma remove_leading (old s : string) :
  old ≠ EmptyString → PyStr.remove old (old +:+ s) = PyStr.remove old s.
Proof.
  intros Hne. destruct old as [|c old]; [done|]. unfold PyStr.remove.
  pose proof (startswith_app (String c old) s) as Hsw.
  rewrite app_cons_str in *. cbn [PyStr.remove_from]. rewrite Hsw.
  cbn [String.length Nat.pred]. apply remove_from_skip.
Qed.

(** Text in which [old] starts nowhere is left as it is. *)
Lemma remove_absent (old s : string) :
  PyStr.contains old s = false → PyStr.remove old s = s.
Proof.
  unfold PyStr.remove. induction s as [|c s IH]; [reflexivity|].
  cbn [PyStr.contains]. intros [Hsw Hc]%orb_false_iff.
  cbn [PyStr.remove_from]. rewrite Hsw. by rewrite IH.
Qed.

(** A character that differs from the first character of [old] is copied. *)
Lemma remove_copies (old : string) (c0 c : ascii) (s : string) :
  c ≠ c0 →
  PyStr.remove (String c0 old) (String c s) = String c (PyStr.remove (String c0 old) s).
Proof.
  intros Hne. unfold PyStr.remove. cbn. by rewrite decide_False by congruence.
Qed.

(** ** Styling tags *)

Section TagFacts.

(** Text without an opening angle bracket. *)
Let plain (s : string) : Prop := PyStr.contains "<" s = false.

Lemma plain_cons (c : ascii) (s : string) : plain (String c s) → c ≠ "<"%char ∧ plain s.
Proof.
  unfold plain. cbn. intros [Hc Hs]%orb_false_iff. split; [|done].
  intros ->. by rewrite decide_True in Hc.
Qed.

Lemma plain_absent (rest s : string) :
  plain s → PyStr.contains (String "<" rest) s = false.
Proof.
  induction s as [|c s IH]; [reflexivity|]. intros [Hc Hs]%plain_cons.
  cbn. rewrite decide_False by congruence. by apply IH.
Qed.

Lemma remove_plain (rest s : string) : plain s → PyStr.remove (String "<" rest) s = s.
Proof. intros H. by apply remove_absent, plain_absent. Qed.

Lemma remove_after_plain (rest t s : string) :
  plain t →
  PyStr.remove (String "<" rest) (t +:+ s) = t +:+ PyStr.remove (String "<" rest) s.
Proof.
  induction t as [|c t IH]; [reflexivity|]. intros [Hc Ht]%plain_cons.
  rewrite !app_cons_str, remove_copies by done. by rewrite IH.
Qed.

(** The pass for a tag removes it from between two plain texts. *)
Lemma remove_own_tag (rest t1 t2 : string) :
  plain t1 → plain t2 →
  PyStr.remove (String "<" rest) (t1 +:+ String "<" rest +:+ t2) = t1 +:+ t2.
Proof.
  intros H1 H2. rewrite remove_after_plain, remove_leading, remove_plain; done.
Qed.

(** The pass for another tag leaves it in place. *)
Lemma remove_other_tag (rest tag t1 t2 : string) :
  plain t1 → PyStr.contains (String "<" rest) (tag +:+ t2) = false →
  PyStr.remove (String "<" rest) (t1 +:+ tag +:+ t2) = t1 +:+ tag +:+ t2.
Proof.
  intros H1 H2. by rewrite remove_after_plain, (remove_absent _ (tag +:+ t2)).
Qed.

Lemma remove_plain_app (rest t1 t2 : string) :
  plain t1 → plain t2 → PyStr.remove (String "<" rest) (t1 +:+ t2) = t1 +:+ t2.
Proof. intros H1 H2. by rewrite remove_after_plain, remove_plain. Qed.

Local Ltac other_tag H2 :=
  rewrite remove_other_tag;
  [ | done | rewrite !app_cons_str; cbn; by apply plain_absent ].

(** Each of the six styling tags, standing between two texts without angle
    brackets, is stripped by [clean], and nothing else is. *)
Lemma clean_strips_tag (tag t1 t2 : string) :
  tag ∈ VttSpec.tags → plain t1 → plain t2 →
  Vtt.clean (t1 +:+ tag +:+ t2) = t1 +:+ t2.
Proof.
  intros Htag H1 H2. unfold Vtt.clean. cbv zeta. unfold VttSpec.tags in Htag.
  list_cases Htag; subst tag;
    repeat first [ rewrite remove_own_tag by done
                 | rewrite remove_plain_app by done
                 | other_tag H2 ];
    reflexivity.
Qed.

End TagFacts.

(** C8, as amended: for every subtitle payload the parser returns what the
    declarative parser returns that trims each line, discards the lines that
    start with WEBVTT or with NOTE, the lines that contain the timing arrow,
    the blank lines and the all-digit lines, strips the six styling tags
    from each remaining line, drops a line left empty, and joins the rest
    with single spaces.  Every line contributes on its own, so the order of
    the lines is kept and a repeated line is repeated in the result.  A
    styling tag between two texts without angle brackets disappears and the
    texts stay. *)
Theorem parser_matches_amended_specification (content : string) (l1 l2 : list string)
    (tag t1 t2 : string) :
  tag ∈ VttSpec.tags →
  PyStr.contains "<" t1 = false →
  PyStr.contains "<" t2 = false →
  Vtt.parse content = VttSpec.parse_amended content
  ∧ Vtt.parse_lines (l1 ++ l2) = Vtt.parse_lines l1 ++ Vtt.parse_lines l2
  ∧ Vtt.clean (t1 +:+ tag +:+ t2) = t1 +:+ t2.
Proof.
  intros Htag H1 H2. split; [|split].
  - unfold Vtt.parse, VttSpec.parse_amended, Vtt.parse_lines.
    by rewrite parse_lines_from.
  - unfold Vtt.parse_lines. rewrite !parse_lines_from. cbn [app]. apply cue_texts_app.
  - by apply clean_strips_tag.
Qed.

Lemma parser_matches_amended_specification_witness :
  Vtt.parse Scenario.payload_with_note = VttSpec.parse_amended Scenario.payload_with_note
  ∧ Vtt.parse_lines (["hello"; "hello"] ++ ["1"; "hello"])
    = Vtt.parse_lines ["hello"; "hello"] ++ Vtt.parse_lines ["1"; "hello"]
  ∧ Vtt.clean ("on " +:+ "<b>" +:+ "your left") = "on " +:+ "your left".
Proof.
  apply (parser_matches_amended_specification Scenario.payload_with_note
           ["hello"; "hello"] ["1"; "hello"] "<b>" "on " "your left").
  - unfold VttSpec.tags. do 4 right. left.
  - reflexivity.
  - reflexivity.
Defined.

(** C8, counterexample: a cue text line that starts with the word NOTE is
    none of the four discarded classes, so the parser of the specification
    keeps it; the parser of the code drops it. *)
Lemma note_line_is_discarded :
  VttSpec.discarded "NOTE the exit" = false
  ∧ VttSpec.parse Scenario.payload_with_note = "NOTE the exit on your left"
  ∧ Vtt.parse Scenario.payload_with_note = "on your left"
  ∧ Vtt.parse Scenario.payload_with_note ≠ VttSpec.parse Scenario.payload_with_note.
Proof. repeat split; by vm_compute. Qed.

(* ===================================================================== *)
(** * Further properties of the code *)
(* ===================================================================== *)

(** ** Trimming *)

Lemma rstrip_head (c : ascii) (s : string) :
  PyStr.is_space c = false → ∃ r, PyStr.rstrip (String c s) = String c r.
Proof.
  intros Hc. cbn. destruct (PyStr.rstrip s); [rewrite Hc|]; eauto.
Qed.

Lemma rstrip_cons (c : ascii) (s : string) :
  PyStr.rstrip (String c s)
  = match PyStr.rstrip s with
    | EmptyString => if PyStr.is_space c then EmptyString else String c EmptyString
    | String c' r => String c (String c' r)
    end.
Proof. reflexivity. Qed.

Lemma rstrip_idem (s : string) : PyStr.rstrip (PyStr.rstrip s) = PyStr.rstrip s.
Proof.
  induction s as [|c s IH]; [reflexivity|]. rewrite rstrip_cons.
  destruct (PyStr.rstrip s) as [|c' r] eqn:E.
  - destruct (PyStr.is_space c) eqn:Ec; [reflexivity|]. cbn. by rewrite Ec.
  - by rewrite rstrip_cons, IH.
Qed.

Lemma lstrip_head (s : string) :
  PyStr.lstrip s = EmptyString
  ∨ ∃ c r, PyStr.lstrip s = String c r ∧ PyStr.is_space c = false.
Proof.
  induction s as [|c s IH]; [by left|]. cbn.
  destruct (PyStr.is_space c) eqn:Ec; [done|]. right. eauto.
Qed.

Lemma lstrip_no_space (c : ascii) (s : string) :
  PyStr.is_space c = false → PyStr.lstrip (String c s) = String c s.
Proof. intros Hc. cbn. by rewrite Hc. Qed.

(** A trimmed string is empty or starts with a character that is no
    whitespace. *)
Lemma strip_head (s : string) :
  PyStr.strip s = EmptyString
  ∨ ∃ c r, PyStr.strip s = String c r ∧ PyStr.is_space c = false.
Proof.
  unfold PyStr.strip. destruct (lstrip_head s) as [->|(c & r & -> & Hc)]; [by left|].
  right. destruct (rstrip_head c r Hc) as [r' ->]. eauto.
Qed.

Lemma strip_idem (s : string) : PyStr.strip (PyStr.strip s) = PyStr.strip s.
Proof.
  destruct (strip_head s) as [E|(c & r & E & Hc)].
  - by rewrite E.
  - unfold PyStr.strip at 1. rewrite E, (lstrip_no_space c r Hc), <- E.
    unfold PyStr.strip. apply rstrip_idem.
Qed.

(** Trimming a trimmed string with a character that is no whitespace put in
    front changes nothing. *)
Lemma strip_cons_strip (c : ascii) (s : string) :
  PyStr.is_space c = false →
  PyStr.strip (String c (PyStr.strip s)) = String c (PyStr.strip s).
Proof.
  intros Hc. unfold PyStr.strip at 1. rewrite lstrip_no_space by done.
  cbn [PyStr.rstrip]. unfold PyStr.strip. rewrite rstrip_idem.
  destruct (PyStr.rstrip (PyStr.lstrip s)); [by rewrite Hc | done].
Qed.

(** ** Channel lookups *)

Lemma at_app (s : string) : "@" +:+ s = String "@" s.
Proof. reflexivity. Qed.

Lemma clean_handle_marker (h : string) :
  PyStr.startswith "@" (Handles.clean_handle h) = true.
Proof.
  unfold Handles.clean_handle. cbv zeta.
  destruct (PyStr.startswith "@" (PyStr.strip h)) eqn:E; [done|].
  rewrite at_app. cbn. by rewrite decide_True.
Qed.

Lemma clean_handle_idem (h : string) :
  Handles.clean_handle (Handles.clean_handle h) = Handles.clean_handle h.
Proof.
  pose proof (clean_handle_marker h) as Hm. revert Hm.
  unfold Handles.clean_handle at 1 3 4. cbv zeta.
  destruct (PyStr.startswith "@" (PyStr.strip h)) eqn:E; intros Hm.
  - unfold Handles.clean_handle. cbv zeta. by rewrite strip_idem, E.
  - unfold Handles.clean_handle. cbv zeta. rewrite at_app in *.
    rewrite strip_cons_strip by reflexivity. by rewrite Hm.
Qed.

(** X1: a channel handle is looked up after normalisation only: the handle
    as typed and its normal form (trimmed, with the marker [@] in front)
    give the same answer, the normal form always starts with the marker, and
    normalising twice changes nothing. *)
Theorem handle_lookup_ignores_marker_and_padding (api : channel_api) (h : string) :
  Handles.get_channel_id_from_handle api (Handles.clean_handle h)
  = Handles.get_channel_id_from_handle api h
  ∧ PyStr.startswith "@" (Handles.clean_handle h) = true
  ∧ Handles.clean_handle (Handles.clean_handle h) = Handles.clean_handle h.
Proof.
  split; [|split].
  - unfold Handles.get_channel_id_from_handle. cbv zeta. by rewrite clean_handle_idem.
  - apply clean_handle_marker.
  - apply clean_handle_idem.
Qed.

Lemma lower_tail (s : string) : Handles.lower (Handles.tail s) = Handles.tail (Handles.lower s).
Proof. by destruct s. Qed.

Lemma contains_nil (s : string) : PyStr.contains EmptyString s = true.
Proof. by destruct s. Qed.

(** A text that contains [p] contains [p] without its first character. *)
Lemma contains_tail (p t : string) :
  PyStr.contains p t = true → PyStr.contains (Handles.tail p) t = true.
Proof.
  destruct p as [|c p]; [done|]. cbn [Handles.tail].
  induction t as [|d t IH]; [done|].
  cbn [PyStr.contains]. intros [H|H]%orb_true_iff.
  - cbn in H. case_decide; [|done]. apply orb_true_iff. right.
    destruct t; cbn; cbn in H; by rewrite H.
  - apply orb_true_iff. right. by apply IH.
Qed.

(** X2: in the search fallback of the channel lookup the first of the two
    tests is redundant: a search hit matches exactly when its lower-cased
    title contains the lower-cased handle without the marker. *)
Theorem search_match_is_the_unmarked_test (clean_handle title : string) :
  Handles.title_matches clean_handle title
  = PyStr.contains (Handles.lower (Handles.tail clean_handle)) (Handles.lower title).
Proof.
  unfold Handles.title_matches.
  destruct (PyStr.contains (Handles.lower clean_handle) (Handles.lower title)) eqn:E;
    [|reflexivity].
  apply contains_tail in E. rewrite <- lower_tail in E. by rewrite E.
Qed.

Lemma first_match_none_nonempty (clean_handle : string) (items : list (string * string)) :
  Handles.first_match clean_handle items = None →
  Forall (λ item, Handles.title_matches clean_handle item.1 = false) items.
Proof.
  induction items as [|[title c] items IH]; cbn; [done|].
  destruct (Handles.title_matches clean_handle title) eqn:E; [done|].
  intros H. constructor; [done | by apply IH].
Qed.

(** X3: the channel lookup comes back empty-handed exactly when the handle
    request and the username request yield no channel and the search raises
    or has no hit at all: any search hit is accepted, matching or not. *)
Theorem handle_lookup_fails_only_without_any_hit (api : channel_api) (h : string) :
  Handles.get_channel_id_from_handle api h = None
  ↔ Handles.first_id (channels_forHandle api (Handles.clean_handle h)) = None
    ∧ Handles.first_id
        (channels_forUsername api (Handles.tail (Handles.clean_handle h))) = None
    ∧ (search_channels api (Handles.clean_handle h) = None
       ∨ search_channels api (Handles.clean_handle h) = Some []).
Proof.
  unfold Handles.get_channel_id_from_handle. cbv zeta.
  destruct (Handles.first_id (channels_forHandle api _)); [by split; [|intros [? _]]|].
  destruct (Handles.first_id (channels_forUsername api _));
    [by split; [|intros (_ & ? & _)]|].
  destruct (search_channels api _) as [items|]; [|by split; auto].
  destruct items as [|[title c] items].
  - cbn. split; auto.
  - destruct (Handles.first_match _ _); split; try done; by intros (_ & _ & [?|?]).
Qed.

(** X4: a channel handle found by the reverse lookup always starts with the
    marker [@]: a custom URL that has the marker is returned as it is, the
    marker is put in front of any other custom URL, and without a custom
    URL the marker is put in front of the title. *)
Theorem reverse_lookup_yields_marked_handle (api : channel_api) (channel h : string) :
  Handles.get_channel_handle_from_id api channel = Some h →
  PyStr.startswith "@" h = true
  ∧ PyStr.truthy h = true
  ∧ ∃ info rest,
      channels_snippet api channel = Some (info :: rest)
      ∧ (∀ url, customUrl info = Some url → PyStr.startswith "@" url = true → h = url)
      ∧ (∀ url, customUrl info = Some url → PyStr.startswith "@" url = false →
                h = "@" +:+ url)
      ∧ (customUrl info = None → h = "@" +:+ snippet_title info).
Proof.
  unfold Handles.get_channel_handle_from_id.
  destruct (channels_snippet api channel) as [[|info rest]|]; try done.
  destruct (customUrl info) as [url|] eqn:Eu.
  - destruct (PyStr.startswith "@" url) eqn:Es; intros [= <-].
    + split; [done|]. split; [by destruct url|]. exists info, rest. rewrite Eu.
      split; [done|]. split; [|split].
      * intros u Hu _. by injection Hu.
      * intros u Hu Hs. injection Hu as <-. congruence.
      * done.
    + split; [done|]. split; [done|]. exists info, rest. rewrite Eu.
      split; [done|]. split; [|split].
      * intros u Hu Hs. injection Hu as <-. congruence.
      * intros u Hu _. by injection Hu as <-.
      * done.
  - intros [= <-]. split; [done|]. split; [done|]. exists info, rest. rewrite Eu.
    split; [done|]. split; [|split]; done.
Qed.

Lemma reverse_lookup_yields_marked_handle_witness :
  PyStr.startswith "@" "@meetandrew" = true
  ∧ PyStr.truthy "@meetandrew" = true
  ∧ ∃ info rest,
      channels_snippet Cover.api_marked "UCA" = Some (info :: rest)
      ∧ (∀ url, customUrl info = Some url → PyStr.startswith "@" url = true →
                "@meetandrew" = url)
      ∧ (∀ url, customUrl info = Some url → PyStr.startswith "@" url = false →
                "@meetandrew" = "@" +:+ url)
      ∧ (customUrl info = None → "@meetandrew" = "@" +:+ snippet_title info).
Proof.
  apply (reverse_lookup_yields_marked_handle Cover.api_marked "UCA" "@meetandrew").
  reflexivity.
Defined.

Example reverse_lookup_sample :
  Handles.get_channel_handle_from_id Cover.api_marked "UCA" = Some "@meetandrew"
  ∧ Handles.get_channel_handle_from_id Cover.api_search_only "UCA" = Some "@meetandrew"
  ∧ Handles.get_channel_handle_from_id Cover.api_marked "UCT" = Some "@@ Talks"
  ∧ Handles.get_channel_handle_from_id Cover.api_marked "UCZ" = None.
Proof. repeat split; by vm_compute. Qed.

Example handle_lookup_sample :
  Handles.get_channel_id_from_handle Cover.api_search_only " ANDREW " = Some "UCA"
  ∧ Handles.get_channel_id_from_handle Cover.api_search_only "@nobody" = Some "UCX"
  ∧ Handles.lower "Meet ANDREW" = "meet andrew".
Proof. repeat split; by vm_compute. Qed.

(** ** Characters that do not occur *)

Section FreeFacts.
Variable c : ascii.

(** [c not in s] *)
Let free (s : string) : Prop := PyStr.contains (String c EmptyString) s = false.

Lemma free_cons (d : ascii) (s : string) : free (String d s) ↔ d ≠ c ∧ free s.
Proof.
  unfold free. cbn. split.
  - intros [H1 H2]%orb_false_iff. split; [|done]. intros ->. by rewrite decide_True in H1.
  - intros [Hd Hs]. rewrite decide_False by congruence. done.
Qed.

Lemma free_app (s t : string) : free (s +:+ t) ↔ free s ∧ free t.
Proof.
  induction s as [|d s IH].
  - change (EmptyString +:+ t) with t. split; [by split | by intros [_ ?]].
  - rewrite app_cons_str, !free_cons, IH. tauto.
Qed.

Lemma lstrip_free (s : string) : free s → free (PyStr.lstrip s).
Proof.
  induction s as [|d s IH]; [done|]. intros H. cbn.
  destruct (PyStr.is_space d); [|done]. apply IH. by apply free_cons in H as [_ ?].
Qed.

Lemma rstrip_free (s : string) : free s → free (PyStr.rstrip s).
Proof.
  induction s as [|d s IH]; [done|]. intros [Hd Hs]%free_cons. rewrite rstrip_cons.
  specialize (IH Hs). destruct (PyStr.rstrip s) as [|c' r].
  - destruct (PyStr.is_space d); [done|]. by apply free_cons.
  - by apply free_cons.
Qed.

Lemma strip_free (s : string) : free s → free (PyStr.strip s).
Proof. intros H. by apply rstrip_free, lstrip_free. Qed.

Lemma remove_from_free (old : string) (k : nat) (s : string) :
  free s → free (PyStr.remove_from old k s).
Proof.
  revert k. induction s as [|d s IH]; intros k; [done|]. intros [Hd Hs]%free_cons.
  cbn [PyStr.remove_from]. destruct k as [|k]; [|by apply IH].
  destruct (PyStr.startswith old (String d s)); [by apply IH|].
  apply free_cons. split; [done | by apply IH].
Qed.

Lemma join_free (sep : string) (l : list string) :
  free sep → Forall free l → free (PyStr.join sep l).
Proof.
  intros Hsep. induction 1 as [|x l Hx Hl IH]; [done|].
  destruct l as [|y l]; [done|].
  change (PyStr.join sep (x :: y :: l)) with (x +:+ sep +:+ PyStr.join sep (y :: l)).
  rewrite !free_app. auto.
Qed.

Lemma split_on_nonempty (s : string) : PyStr.split_on c s ≠ [].
Proof.
  destruct s as [|d s]; cbn; [done|]. case_decide; [done|].
  by destruct (PyStr.split_on c s).
Qed.

(** No piece of a split holds the separator. *)
Lemma split_on_free (s : string) : Forall free (PyStr.split_on c s).
Proof.
  induction s as [|d s IH]; cbn.
  - by repeat constructor.
  - case_decide as E.
    + constructor; [done | exact IH].
    + pose proof (split_on_nonempty s).
      destruct (PyStr.split_on c s) as [|h t]; [done|].
      apply Forall_cons in IH as [Hh Ht]. constructor; [|done].
      apply free_cons. auto.
Qed.

(** A text without the separator is its only piece. *)
Lemma split_on_single (s : string) : free s → PyStr.split_on c s = [s].
Proof.
  induction s as [|d s IH]; [done|]. intros [Hd Hs]%free_cons. cbn.
  rewrite decide_False by done. by rewrite IH.
Qed.

(** A first piece without the separator is split off at the separator. *)
Lemma split_on_app (s rest : string) :
  free s → PyStr.split_on c (s +:+ String c rest) = s :: PyStr.split_on c rest.
Proof.
  induction s as [|d s IH].
  - intros _. change (EmptyString +:+ String c rest) with (String c rest). cbn.
    by rewrite decide_True.
  - intros [Hd Hs]%free_cons. rewrite app_cons_str. cbn.
    rewrite decide_False by done. by rewrite IH.
Qed.

End FreeFacts.

Lemma split_lines_split_on (s : string) : PyStr.split_lines s = PyStr.split_on "010" s.
Proof. induction s as [|d s IH]; [done|]. cbn. by rewrite IH. Qed.

(** ** The positional arguments *)

(** X5: the list of inputs that [main] works on is never empty, and every
    input in it is trimmed and holds no comma. *)
Theorem inputs_are_trimmed_pieces (a : args) :
  inputs a ≠ []
  ∧ Forall (λ input, PyStr.strip input = input ∧ PyStr.contains "," input = false)
           (inputs a).
Proof.
  unfold inputs. split.
  - intros H%fmap_nil_inv. by apply split_on_nonempty in H.
  - apply Forall_fmap. eapply Forall_impl; [apply (split_on_free ",")|].
    intros piece Hp. cbn. split; [apply strip_idem | by apply strip_free].
Qed.

(** X6: positional arguments without a comma are not separated: they are
    joined with single spaces into one input, so handles given as separate
    words are looked up as one handle. *)
Theorem arguments_without_comma_are_one_input (a : args) :
  Forall (λ word, PyStr.contains "," word = false) (raw_inputs a) →
  inputs a = [PyStr.strip (PyStr.join " " (raw_inputs a))].
Proof.
  intros H. unfold inputs. rewrite split_on_single; [done|].
  apply join_free; [reflexivity | exact H].
Qed.

Lemma arguments_without_comma_are_one_input_witness :
  inputs (Args ["@chanA"; "@chanB"] 1 false "prompt.txt" "m" false)
  = [PyStr.strip (PyStr.join " " ["@chanA"; "@chanB"])].
Proof.
  apply (arguments_without_comma_are_one_input
           (Args ["@chanA"; "@chanB"] 1 false "prompt.txt" "m" false)).
  repeat constructor.
Defined.

(** ** More on the subtitle parser *)

Lemma clean_free (c : ascii) (s : string) :
  PyStr.contains (String c EmptyString) s = false →
  PyStr.contains (String c EmptyString) (Vtt.clean s) = false.
Proof.
  intros H. unfold Vtt.clean, PyStr.remove. cbv zeta.
  by repeat apply remove_from_free.
Qed.

Lemma parse_lines_free (c : ascii) (lines : list string) :
  Forall (λ l, PyStr.contains (String c EmptyString) l = false) lines →
  Forall (λ l, PyStr.contains (String c EmptyString) l = false) (Vtt.parse_lines lines).
Proof.
  intros H. unfold Vtt.parse_lines. rewrite parse_lines_from. cbn [app].
  unfold VttSpec.cue_texts. apply Forall_forall.
  intros x [_ (y & -> & [_ (z & -> & Hz)%list_elem_of_fmap]%list_elem_of_filter
              )%list_elem_of_fmap]%list_elem_of_filter.
  apply clean_free, strip_free. by apply (proj1 (Forall_forall _ _) H).
Qed.

(** X7: the transcript that [get_transcript] returns is a single line: it
    holds no newline, whatever the subtitle payload. *)
Theorem transcript_is_one_line (content : string) :
  PyStr.contains nl (Vtt.parse content) = false.
Proof.
  unfold Vtt.parse, nl. apply join_free; [reflexivity|].
  apply parse_lines_free. rewrite split_lines_split_on. apply split_on_free.
Qed.

Lemma split_lines_join (lines : list string) :
  lines ≠ [] →
  Forall (λ l, PyStr.contains nl l = false) lines →
  PyStr.split_lines (PyStr.join nl lines) = lines.
Proof.
  intros Hne H. rewrite split_lines_split_on. induction H as [|x l Hx Hl IH]; [done|].
  destruct l as [|y l].
  - cbn. by apply split_on_single.
  - change (PyStr.join nl (x :: y :: l))
      with (x +:+ String "010" (PyStr.join nl (y :: l))).
    rewrite split_on_app by done. by rewrite IH.
Qed.

Lemma clean_plain (s : string) : PyStr.contains "<" s = false → Vtt.clean s = s.
Proof.
  intros H. unfold Vtt.clean. cbv zeta. by rewrite !(remove_plain _ s H).
Qed.

(** X8: subtitle text without markup comes out verbatim: when every line of
    a payload is a trimmed cue text line (not blank, no header, comment,
    timing or cue-index line) without an angle bracket, the transcript is
    those lines joined with single spaces. *)
Theorem plain_cue_text_is_kept_verbatim (lines : list string) :
  Forall (λ l, Vtt.is_text_line l = true ∧ PyStr.strip l = l
               ∧ PyStr.contains "<" l = false ∧ PyStr.contains nl l = false) lines →
  Vtt.parse (PyStr.join nl lines) = PyStr.join " " lines.
Proof.
  intros H. destruct lines as [|l0 lines0] eqn:El; [by vm_compute|]. rewrite <- El in *.
  unfold Vtt.parse. rewrite split_lines_join.
  - f_equal. unfold Vtt.parse_lines. clear El.
    assert (∀ acc, fold_left Vtt.parse_line lines acc = acc ++ lines) as Hf; [|apply (Hf [])].
    induction H as [|l ls (Ht & Hs & Hp & _) _ IH]; intros acc; cbn [fold_left].
    + by rewrite app_nil_r.
    + rewrite IH. unfold Vtt.parse_line. rewrite Hs, Ht, (clean_plain _ Hp).
      assert (PyStr.truthy l = true) as ->.
      { unfold Vtt.is_text_line in Ht. by destruct (PyStr.truthy l). }
      by rewrite <- app_assoc.
  - by rewrite El.
  - eapply Forall_impl; [exact H|]. by intros l (_ & _ & _ & ?).
Qed.

Lemma plain_cue_text_is_kept_verbatim_witness :
  Vtt.parse (PyStr.join nl ["hello there"; "hello there"; "on your left"])
  = PyStr.join " " ["hello there"; "hello there"; "on your left"].
Proof.
  apply (plain_cue_text_is_kept_verbatim ["hello there"; "hello there"; "on your left"]).
  repeat constructor.
Defined.

(** ** The summarization adapter and the orchestrator's test *)

(** X9: which outcomes of [summarize_with_openrouter] the success test of
    Phase 2 rejects: a missing prompt file and a completion request that
    raises are rejected; the message for a prompt file that exists but
    cannot be read starts with neither error prefix and is accepted as a
    summary; a completion is judged by its own text. *)
Theorem adapter_outcomes_and_success_test (w : world) (transcript prompt_file model : string) :
  Summarizer.summary_ok
    (Summarizer.summarize_with_openrouter w transcript prompt_file model)
  = match read_prompt w prompt_file with
    | ReadNotFound => false
    | ReadError _ => true
    | ReadOk text =>
        match complete w model
                (PyStr.strip text +:+ nl +:+ nl +:+ "---" +:+ nl +:+ nl +:+ transcript) with
        | Raised _ => false
        | Completed content => Summarizer.summary_ok content
        end
    end.
Proof.
  unfold Summarizer.summarize_with_openrouter.
  destruct (read_prompt w prompt_file) as [text| |e].
  - cbv zeta. destruct (complete w model _) as [content|e]; [reflexivity|].
    unfold Summarizer.summary_ok. rewrite !app_cons_str. cbn.
    by rewrite andb_false_r.
  - unfold Summarizer.summary_ok. rewrite !app_cons_str. cbn. reflexivity.
  - unfold Summarizer.summary_ok. rewrite !app_cons_str. cbn. reflexivity.
Qed.

(** ** More on the artifact store *)

Lemma split_on_app_sep (c : ascii) (s rest : string) :
  PyStr.split_on c (s +:+ String c rest) = PyStr.split_on c s ++ PyStr.split_on c rest.
Proof.
  induction s as [|d s IH].
  - change (EmptyString +:+ String c rest) with (String c rest). cbn.
    by rewrite decide_True.
  - rewrite app_cons_str. cbn [PyStr.split_on]. case_decide.
    + by rewrite IH.
    + rewrite IH. pose proof (split_on_nonempty c s).
      by destruct (PyStr.split_on c s).
Qed.

Lemma folder_candidate_datetime (base : string) (counter : nat) :
  Store.is_datetime_name base = true →
  Store.is_datetime_name (Store.folder_candidate base counter) = true.
Proof.
  intros H. destruct counter as [|k]; [exact H|]. cbn [Store.folder_candidate].
  unfold Store.is_datetime_name in *.
  change ("_" +:+ Store.show_nat (S k)) with (String "_" (Store.show_nat (S k))).
  rewrite split_on_app_sep.
  destruct (PyStr.split_on "_" base) as [|d [|t rest]]; try done.
Qed.

(** X10: a run root that [create_datetime_folder] names with a numeric
    suffix is recognised by [find_existing_transcript] whenever the name
    without the suffix is: the suffix does not disturb the date and time
    test. *)
Theorem suffixed_root_is_a_datetime_name (base : string) (counter : nat) :
  Store.is_datetime_name base = true →
  Store.is_datetime_name (Store.folder_candidate base counter) = true.
Proof. apply folder_candidate_datetime. Qed.

Lemma suffixed_root_is_a_datetime_name_witness :
  Store.is_datetime_name (Store.folder_candidate "010124_1200" 3) = true.
Proof. apply (suffixed_root_is_a_datetime_name "010124_1200" 3). reflexivity. Defined.

Lemma first_free_minimal (names : list string) (base : string) (fuel counter : nat) :
  ∃ k, Store.first_free names base counter fuel = Store.folder_candidate base (counter + k)
       ∧ ∀ j, (j < k)%nat → Store.folder_candidate base (counter + j) ∈ names.
Proof.
  revert counter. induction fuel as [|fuel IH]; intros counter; cbn [Store.first_free].
  - exists O. rewrite Nat.add_0_r. split; [done|]. lia.
  - case_bool_decide as Hin.
    + destruct (IH (S counter)) as (k & -> & Hk). exists (S k).
      rewrite Nat.add_succ_comm. split; [done|].
      intros [|j] Hj; [by rewrite Nat.add_0_r|].
      rewrite <- Nat.add_succ_comm. apply Hk. lia.
    + exists O. rewrite Nat.add_0_r. split; [done|]. lia.
Qed.

(** X11: [create_datetime_folder] returns the first free name of the series
    stamp, stamp_1, stamp_2, ...: every earlier name of the series is taken
    in [processed], the returned one is not; the directory is added to the
    listing and no file is touched. *)
Theorem created_root_is_first_free_name (base : string) (fs : filesystem) :
  let names := (default [] (processed_entries fs)).*1 in
  let created := Store.create_datetime_folder base fs in
  ∃ k, created.1 = Store.processed_dir ++ [Store.folder_candidate base k]
       ∧ (∀ j, (j < k)%nat → Store.folder_candidate base j ∈ names)
       ∧ (Store.folder_candidate base k ∉ names)
       ∧ processed_entries created.2
         = Some (default [] (processed_entries fs) ++ [(Store.folder_candidate base k, true)])
       ∧ files created.2 = files fs.
Proof.
  cbv zeta. unfold Store.create_datetime_folder. cbn [fst snd processed_entries files].
  set (entries := default [] (processed_entries fs)).
  pose proof (first_free_is_free entries.*1 base) as Hfree. rewrite length_fmap in Hfree.
  destruct (first_free_minimal entries.*1 base (S (length entries)) O) as (k & E & Hk).
  cbn [Nat.add] in E, Hk. rewrite E in *. exists k. done.
Qed.

(** X12: in a file system whose files below [processed] all lie in listed
    entries, the run root that [create_datetime_folder] returns holds no
    transcript and no summary, and for every video the artifact store
    reports after the creation what it reported before. *)
Theorem created_root_holds_no_artifact (base : string) (fs : filesystem) (i : string) :
  Obs.listed fs →
  let created := Store.create_datetime_folder base fs in
  files created.2 !! Store.transcript_path created.1 i = None
  ∧ files created.2 !! Store.summary_path created.1 i = None
  ∧ Store.find_existing_transcript created.2 i created.1
    = Store.find_existing_transcript fs i created.1.
Proof.
  intros Hl. destruct (created_root_is_fresh base fs Hl) as (Hf & _ & He).
  cbv zeta. destruct (Hf i). auto.
Qed.

Lemma created_root_holds_no_artifact_witness :
  let created := Store.create_datetime_folder "123123_0900" Scenario.disk_with_prior in
  files created.2 !! Store.transcript_path created.1 "V1" = None
  ∧ files created.2 !! Store.summary_path created.1 "V1" = None
  ∧ Store.find_existing_transcript created.2 "V1" created.1
    = Store.find_existing_transcript Scenario.disk_with_prior "V1" created.1.
Proof.
  apply (created_root_holds_no_artifact "123123_0900" Scenario.disk_with_prior "V1").
  intros name rest [x H]. cbn in H.
  apply lookup_singleton_Some in H as [H _]. injection H as <- _.
  cbn. by left.
Defined.

Lemma datetime_folders_filter (current : path) (entries : list (string * bool))
    (acc : list path) :
  fold_left (Store.add_datetime_folder current) entries acc
  = acc ++ ((λ entry, Store.processed_dir ++ [entry.1])
              <$> filter (λ entry, Cover.is_prior_root current entry = true) entries).
Proof.
  revert acc. induction entries as [|[item isdir] entries IH]; intros acc; cbn [fold_left].
  - by rewrite app_nil_r.
  - rewrite IH, filter_cons. unfold Store.add_datetime_folder, Cover.is_prior_root.
    cbn [fst snd]. destruct (isdir && _ && _).
    + rewrite decide_True by done. cbn. by rewrite <- app_assoc.
    + by rewrite decide_False by done.
Qed.

(** X13: [find_existing_transcript] reports the first earlier run root, in
    directory-listing order, that holds a transcript of the video, together
    with the summary of that same root if it has one; earlier run roots are
    the listed directories with a date and time name other than the current
    run root.  Without such a root it reports nothing, and it never reports
    a summary without a transcript. *)
Theorem find_reports_first_prior_root (fs : filesystem) (i : string) (current : path) :
  Store.find_existing_transcript fs i current
  = match list_find (λ r, is_Some (files fs !! Store.transcript_path r i))
            (Cover.prior_roots fs current) with
    | Some (_, r) =>
        (Some (Store.transcript_path r i),
         if Store.file_exists fs (Store.summary_path r i)
         then Some (Store.summary_path r i) else None)
    | None => (None, None)
    end.
Proof.
  unfold Store.find_existing_transcript, Cover.prior_roots.
  assert (∀ roots, Store.search_folders fs i roots
          = match list_find (λ r, is_Some (files fs !! Store.transcript_path r i)) roots with
            | Some (_, r) =>
                (Some (Store.transcript_path r i),
                 if Store.file_exists fs (Store.summary_path r i)
                 then Some (Store.summary_path r i) else None)
            | None => (None, None)
            end) as Hs.
  { induction roots as [|r roots IH]; [reflexivity|].
    cbn [Store.search_folders list_find]. unfold Store.file_exists at 1.
    case_bool_decide as E.
    - by rewrite decide_True.
    - rewrite decide_False by done. rewrite IH.
      by destruct (list_find _ roots) as [[n r']|]. }
  destruct (processed_entries fs) as [entries|]; [|reflexivity].
  rewrite datetime_folders_filter. cbn [app default]. apply Hs.
Qed.

Example find_sample :
  Store.find_existing_transcript Cover.disk_two_runs "V1" ["processed"; "010124_1100"]
  = (Some ["processed"; "010124_0900"; "transcripts"; "V1_transcript.txt"], None)
  ∧ Store.find_existing_transcript Cover.disk_two_runs "V1" ["processed"; "010124_0900"]
    = (Some ["processed"; "010124_1000"; "transcripts"; "V1_transcript.txt"],
       Some ["processed"; "010124_1000"; "summaries"; "V1_summary.md"])
  ∧ Cover.prior_roots Cover.disk_two_runs ["processed"; "010124_1100"]
    = [["processed"; "010124_0900"]; ["processed"; "010124_1000"]].
Proof. repeat split; by vm_compute. Qed.

(** ** The two phases, file by file *)

Lemma filter_ext_elem {A : Type} (P Q : A → Prop) `{∀ x, Decision (P x)}
    `{∀ x, Decision (Q x)} (l : list A) :
  (∀ x, x ∈ l → (P x ↔ Q x)) → filter P l = filter Q l.
Proof.
  induction l as [|x l IH]; intros Hl; [done|].
  rewrite !filter_cons. rewrite IH by (intros y Hy; apply Hl; by right).
  destruct (decide (P x)) as [HP|HP], (decide (Q x)) as [HQ|HQ]; try done.
  - destruct HQ. apply Hl; [by left | done].
  - destruct HP. apply Hl; [by left | done].
Qed.

Lemma search_folders_none (fs : filesystem) (i : string) (folders : list path) :
  (Store.search_folders fs i folders).1 = None →
  (Store.search_folders fs i folders).2 = None.
Proof.
  induction folders as [|f folders IH]; cbn [Store.search_folders]; [done|].
  destruct (Store.file_exists fs (Store.transcript_path f i)); [done | exact IH].
Qed.

Lemma find_existing_none (fs : filesystem) (i : string) (folder : path) :
  (Store.find_existing_transcript fs i folder).1 = None →
  (Store.find_existing_transcript fs i folder).2 = None.
Proof.
  unfold Store.find_existing_transcript. destruct (processed_entries fs); [|done].
  apply search_folders_none.
Qed.

Section PhaseFacts.
Variable w : world.
Variable a : args.
Variable folder : path.

Abbreviation tpath i := (Store.transcript_path folder i).
Abbreviation spath i := (Store.summary_path folder i).
Abbreviation step1 := (Pipeline.phase1_step w a folder).
Abbreviation step2 := (Pipeline.phase2_step w a folder []).
Abbreviation tsrc fs i := (Cover.transcript_source w fs folder i).
Abbreviation ssrc fs i := (Cover.summary_source a fs folder i).

Lemma transcript_source_same_prior (fs fs' : filesystem) (i : string) :
  Obs.same_prior folder fs fs' → tsrc fs' i = tsrc fs i.
Proof.
  intros H. unfold Cover.transcript_source.
  rewrite (find_existing_same_prior folder fs fs' i H).
  destruct (Store.find_existing_transcript fs i folder) as [[t|] esp] eqn:E; [|done].
  cbn [fst]. destruct (find_existing_found folder fs i t esp E) as (other & Hne & -> & _).
  apply (proj2 H other i Hne).
Qed.

Lemma summary_source_same_prior (fs fs' : filesystem) (i : string) :
  Obs.same_prior folder fs fs' → ssrc fs' i = ssrc fs i.
Proof.
  intros H. unfold Cover.summary_source. destruct (include_previous a); [|done].
  rewrite (find_existing_same_prior folder fs fs' i H).
  pose proof (find_existing_none fs i folder) as Hnone.
  destruct (Store.find_existing_transcript fs i folder) as [[t|] [p|]] eqn:E; try done.
  - destruct (find_existing_found folder fs i t (Some p) E) as (other & Hne & _ & _ & Hp & _).
    destruct (Hp p eq_refl) as [-> _]. cbn [snd]. apply (proj2 H other i Hne).
  - by specialize (Hnone eq_refl).
Qed.

(** One iteration of Phase 1, by what it leaves behind. *)
Lemma phase1_step_sources (s : state) (l : list string) (v : video) :
  (step1 (s, l) v).2
  = l ++ (if decide (is_Some (tsrc (disk s) (id v))) then [id v] else [])
  ∧ files (disk (step1 (s, l) v).1) !! tpath (id v)
    = from_option Some (files (disk s) !! tpath (id v)) (tsrc (disk s) (id v))
  ∧ files (disk (step1 (s, l) v).1) !! spath (id v)
    = from_option Some (files (disk s) !! spath (id v)) (ssrc (disk s) (id v)).
Proof.
  pose proof (find_existing_none (disk s) (id v) folder) as Hnone.
  unfold Cover.transcript_source, Cover.summary_source.
  destruct (phase1_step_cases w a folder s l v)
    as [(t & esp & text & Ef & Htext
         & [(p & stext & -> & Hinc & Hstext & ->) | (Hno & ->)])
       | [(esp & t & Ef & Eget & Htr & ->) | (esp & Ef & Eget & ->)]];
    rewrite Ef in *; cbn [fst snd disk files Pipeline.put] in *.
  - rewrite Htext, Hinc, Hstext. cbn [from_option].
    rewrite decide_True by eauto. split; [done|]. split.
    + rewrite lookup_insert_ne by apply summary_transcript_ne. by rewrite lookup_insert_eq.
    + by rewrite lookup_insert_eq.
  - rewrite Htext. cbn [from_option]. rewrite decide_True by eauto. split; [done|].
    split; [by rewrite lookup_insert_eq|].
    rewrite lookup_insert_ne by apply transcript_summary_ne.
    destruct Hno as [-> | ->]; [by destruct (include_previous a)|done].
  - rewrite (Hnone eq_refl), Eget, Htr. cbn [from_option].
    rewrite decide_True by eauto. split; [done|].
    split; [by rewrite lookup_insert_eq|].
    rewrite lookup_insert_ne by apply transcript_summary_ne.
    by destruct (include_previous a).
  - rewrite (Hnone eq_refl).
    assert (match Pipeline.get_transcript w (id v) with
            | Some transcript => if PyStr.truthy transcript then Some transcript else None
            | None => None
            end = None) as -> by (by destruct Eget as [-> | ->]).
    cbn [from_option]. rewrite decide_False by (by intros [? ?]).
    rewrite app_nil_r. split; [done|]. split; [done|].
    by destruct (include_previous a).
Qed.

(** The ids Phase 1 counts as processed. *)
Lemma phase1_ids (vs : list video) (s : state) (l : list string) :
  (fold_left step1 vs (s, l)).2
  = l ++ filter (λ i, is_Some (tsrc (disk s) i)) (id <$> vs).
Proof.
  revert s l. induction vs as [|v vs IH]; intros s l; cbn [fold_left fmap list_fmap].
  - by rewrite filter_nil, app_nil_r.
  - pose proof (phase1_step_same_prior w a folder s l v) as Hsame.
    destruct (phase1_step_sources s l v) as (Hl & _).
    destruct (step1 (s, l) v) as [s1 l1]. cbn [fst snd] in *.
    rewrite IH, Hl, filter_cons, <- app_assoc. f_equal.
    rewrite (list_filter_iff (λ i, is_Some (tsrc (disk s1) i))
                             (λ i, is_Some (tsrc (disk s) i)))
      by (intros i; by rewrite (transcript_source_same_prior _ _ i Hsame)).
    by destruct (decide (is_Some (tsrc (disk s) (id v)))).
Qed.

(** The transcript files of the run root at the end of Phase 1. *)
Lemma phase1_transcripts (vs : list video) (s : state) (l : list string) (i : string) :
  files (disk s) !! tpath i = None ∨ files (disk s) !! tpath i = tsrc (disk s) i →
  files (disk (fold_left step1 vs (s, l)).1) !! tpath i
  = if bool_decide (i ∈ id <$> vs) then tsrc (disk s) i else files (disk s) !! tpath i.
Proof.
  revert s l. induction vs as [|v vs IH]; intros s l Hpre; cbn [fold_left fmap list_fmap].
  - by rewrite bool_decide_eq_false_2 by apply not_elem_of_nil.
  - pose proof (phase1_step_same_prior w a folder s l v) as Hsame.
    pose proof (transcript_source_same_prior _ _ i Hsame) as Hsrc.
    destruct (phase1_step_sources s l v) as (_ & Ht & _).
    pose proof (phase1_step_frame w a folder s l v (tpath i)) as Hframe.
    destruct (step1 (s, l) v) as [s1 l1]. cbn [fst snd] in *.
    destruct (decide (id v = i)) as [<- | Hne].
    + rewrite (bool_decide_eq_true_2 (id v ∈ id v :: _)) by (by left).
      assert (files (disk s1) !! tpath (id v) = tsrc (disk s) (id v)) as Hnow.
      { rewrite Ht. destruct (tsrc (disk s) (id v)) eqn:E; [done|]. cbn.
        destruct Hpre as [-> | ->]; done. }
      rewrite IH by (right; by rewrite Hsrc). rewrite Hsrc, Hnow.
      by case_bool_decide.
    + assert (files (disk s1) !! tpath i = files (disk s) !! tpath i) as Hf.
      { apply Hframe; [|apply transcript_summary_ne].
        intros [_ ?]%transcript_path_inj. done. }
      rewrite IH by (by rewrite Hf, Hsrc). rewrite Hsrc, Hf.
      apply (f_equal (λ b : bool, if b then _ else _)).
      apply bool_decide_ext. rewrite elem_of_cons.
      split; [by right | intros [Heq|Hin]; [by destruct Hne | done]].
Qed.

(** The summary files of the run root at the end of Phase 1. *)
Lemma phase1_summaries (vs : list video) (s : state) (l : list string) (i : string) :
  files (disk s) !! spath i = None ∨ files (disk s) !! spath i = ssrc (disk s) i →
  files (disk (fold_left step1 vs (s, l)).1) !! spath i
  = if bool_decide (i ∈ id <$> vs) then ssrc (disk s) i else files (disk s) !! spath i.
Proof.
  revert s l. induction vs as [|v vs IH]; intros s l Hpre; cbn [fold_left fmap list_fmap].
  - by rewrite bool_decide_eq_false_2 by apply not_elem_of_nil.
  - pose proof (phase1_step_same_prior w a folder s l v) as Hsame.
    pose proof (summary_source_same_prior _ _ i Hsame) as Hsrc.
    destruct (phase1_step_sources s l v) as (_ & _ & Hs).
    pose proof (phase1_step_frame w a folder s l v (spath i)) as Hframe.
    destruct (step1 (s, l) v) as [s1 l1]. cbn [fst snd] in *.
    destruct (decide (id v = i)) as [<- | Hne].
    + rewrite (bool_decide_eq_true_2 (id v ∈ id v :: _)) by (by left).
      assert (files (disk s1) !! spath (id v) = ssrc (disk s) (id v)) as Hnow.
      { rewrite Hs. destruct (ssrc (disk s) (id v)) eqn:E; [done|]. cbn.
        destruct Hpre as [-> | ->]; done. }
      rewrite IH by (right; by rewrite Hsrc). rewrite Hsrc, Hnow.
      by case_bool_decide.
    + assert (files (disk s1) !! spath i = files (disk s) !! spath i) as Hf.
      { apply Hframe; [apply summary_transcript_ne|].
        intros [_ ?]%summary_path_inj. done. }
      rewrite IH by (by rewrite Hf, Hsrc). rewrite Hsrc, Hf.
      apply (f_equal (λ b : bool, if b then _ else _)).
      apply bool_decide_ext. rewrite elem_of_cons.
      split; [by right | intros [Heq|Hin]; [by destruct Hne | done]].
Qed.

Lemma generated_summary_none (v v' : video) (t : string) :
  Cover.generated_summary w a v t = None → Cover.generated_summary w a v' t = None.
Proof. unfold Cover.generated_summary. cbv zeta. by destruct (Summarizer.summary_ok _). Qed.

(** One iteration of Phase 2, by what it leaves behind and what it logs. *)
Lemma phase2_step_sources (s : state) (l : list string) (v : video) :
  files (disk (step2 (s, l) v).1) !! spath (id v)
  = match files (disk s) !! spath (id v) with
    | Some text => Some text
    | None =>
        match files (disk s) !! tpath (id v) with
        | Some t => Cover.generated_summary w a v t
        | None => None
        end
    end
  ∧ (step2 (s, l) v).2
    = l ++ (if decide (is_Some (files (disk (step2 (s, l) v).1) !! spath (id v)))
            then [id v] else [])
  ∧ ∃ evs, log (step2 (s, l) v).1 = log s ++ evs
      ∧ Forall (Cover.phase2_event folder) evs
      ∧ ∀ i t, Summarize i t ∈ evs
               ↔ i = id v ∧ files (disk s) !! spath i = None
                 ∧ files (disk s) !! tpath i = Some t.
Proof.
  unfold Pipeline.phase2_step, Pipeline.say, Pipeline.emit, Pipeline.write_file,
    Store.file_exists, Cover.generated_summary.
  rewrite bool_decide_eq_false_2 by apply not_elem_of_nil. cbn [disk log].
  case_bool_decide as Hs.
  - destruct Hs as [x Hs]. cbn [fst snd disk log]. rewrite Hs.
    split; [done|]. split; [by rewrite decide_True by eauto|].
    eexists. split; [rewrite <- !app_assoc; reflexivity|]. split.
    + repeat constructor.
    + intros i t. split.
      * intros H. cbn in H. list_cases H; done.
      * intros (-> & H & _). by rewrite Hs in H.
  - apply eq_None_not_Some in Hs. rewrite Hs.
    destruct (files (disk s) !! tpath (id v)) as [t|] eqn:Et.
    + destruct (Summarizer.summary_ok _) eqn:Eok; cbn [fst snd disk log files Pipeline.put].
      * rewrite lookup_insert_eq. split; [done|]. split; [by rewrite decide_True by eauto|].
        eexists. split; [rewrite <- !app_assoc; reflexivity|]. split.
        { repeat constructor. cbn. eauto. }
        intros i t'. split.
        { intros H. cbn in H. list_cases H; try done. by injection H as -> ->. }
        intros (-> & _ & H). rewrite Et in H. injection H as ->. cbn. list_member.
      * rewrite Hs. split; [done|]. split.
        { rewrite decide_False by (by intros [? ?]). by rewrite app_nil_r. }
        eexists. split; [rewrite <- !app_assoc; reflexivity|]. split.
        { repeat constructor. }
        intros i t'. split.
        { intros H. cbn in H. list_cases H; try done. by injection H as -> ->. }
        intros (-> & _ & H). rewrite Et in H. injection H as ->. cbn. list_member.
    + cbn [fst snd disk log]. rewrite Hs. split; [done|]. split.
      { rewrite decide_False by (by intros [? ?]). by rewrite app_nil_r. }
      eexists. split; [rewrite <- !app_assoc; reflexivity|]. split.
      { repeat constructor. }
      intros i t. split.
      * intros H. cbn in H. list_cases H; done.
      * intros (-> & _ & H). by rewrite Et in H.
Qed.

(** The summary files of the run root at the end of Phase 2: a summary
    that is there stays as it is; otherwise the first video of the list with
    that id decides. *)
Lemma phase2_summaries (vs : list video) (s : state) (l : list string) (i : string) :
  files (disk (fold_left step2 vs (s, l)).1) !! spath i
  = match files (disk s) !! spath i with
    | Some text => Some text
    | None =>
        match head (filter (λ v, id v = i) vs), files (disk s) !! tpath i with
        | Some v, Some t => Cover.generated_summary w a v t
        | _, _ => None
        end
    end.
Proof.
  revert s l. induction vs as [|v vs IH]; intros s l; cbn [fold_left].
  - rewrite filter_nil. cbn. by destruct (files (disk s) !! spath i).
  - destruct (phase2_step_sources s l v) as (Hs & _).
    pose proof (phase2_step_frame w a folder s l v) as Hframe.
    destruct (step2 (s, l) v) as [s1 l1]. cbn [fst snd] in *.
    rewrite IH, filter_cons.
    rewrite (Hframe (tpath i)) by apply transcript_summary_ne.
    destruct (decide (id v = i)) as [<- | Hne].
    + rewrite Hs. cbn [head].
      destruct (files (disk s) !! spath (id v)) as [x|]; [done|].
      destruct (files (disk s) !! tpath (id v)) as [t|]; [|by destruct (head _)].
      destruct (Cover.generated_summary w a v t) eqn:E; [done|].
      destruct (head _) as [v'|]; [|done]. by apply generated_summary_none with v.
    + rewrite (Hframe (spath i)); [done|]. by intros [_ ?]%summary_path_inj.
Qed.

(** The ids Phase 2 counts as summarized are those whose summary file is in
    the run root when the phase ends. *)
Lemma phase2_ids (vs : list video) (s : state) (l : list string) :
  (fold_left step2 vs (s, l)).2
  = l ++ filter (λ i, is_Some (files (disk (fold_left step2 vs (s, l)).1) !! spath i))
                (id <$> vs).
Proof.
  revert s l. induction vs as [|v vs IH]; intros s l; cbn [fold_left fmap list_fmap].
  - by rewrite filter_nil, app_nil_r.
  - destruct (phase2_step_sources s l v) as (Hs & Hl & _).
    pose proof (phase2_step_frame w a folder s l v (tpath (id v))
                  (transcript_summary_ne _ _ _ _)) as Hframe.
    pose proof (phase2_summaries vs (step2 (s, l) v).1 (step2 (s, l) v).2 (id v)) as Hend.
    destruct (step2 (s, l) v) as [s1 l1]. cbn [fst snd] in *. subst l1.
    rewrite IH, filter_cons, <- app_assoc. f_equal.
    set (end_ := fold_left step2 vs (s1, l ++ _)) in *.
    assert (is_Some (files (disk end_.1) !! spath (id v))
            ↔ is_Some (files (disk s1) !! spath (id v))) as Hiff.
    { rewrite Hend. destruct (files (disk s1) !! spath (id v)) as [x|] eqn:E; [done|].
      rewrite Hframe. split; [|by intros [? ?]].
      destruct (files (disk s) !! spath (id v)); [done|].
      destruct (files (disk s) !! tpath (id v)) as [t|]; [|by destruct (head _)].
      destruct (head _) as [v'|]; [|done].
      by rewrite (generated_summary_none v v' t). }
    destruct (decide (is_Some (files (disk s1) !! spath (id v)))) as [H|H].
    + by rewrite decide_True by (by apply Hiff).
    + by rewrite decide_False by (by rewrite Hiff).
Qed.

(** What each phase adds to the log. *)
Lemma phase1_step_new_events (s : state) (l : list string) (v : video) :
  ∃ evs, log (step1 (s, l) v).1 = log s ++ evs ∧ Forall (Cover.phase1_event folder) evs.
Proof.
  destruct (phase1_step_cases w a folder s l v)
    as [(t & esp & text & Ef & Htext
         & [(p & stext & -> & Hinc & Hstext & ->) | (Hno & ->)])
       | [(esp & t & Ef & Eget & Htr & ->) | (esp & Ef & Eget & ->)]];
    cbn [fst log]; eexists; (split; [reflexivity|]); repeat constructor; cbn; eauto.
Qed.

Lemma phase1_new_events (vs : list video) (s : state) (l : list string) :
  ∃ evs, log (fold_left step1 vs (s, l)).1 = log s ++ evs
         ∧ Forall (Cover.phase1_event folder) evs.
Proof.
  revert s l. induction vs as [|v vs IH]; intros s l; cbn [fold_left].
  - exists []. by rewrite app_nil_r.
  - destruct (phase1_step_new_events s l v) as (evs1 & E1 & F1).
    destruct (step1 (s, l) v) as [s1 l1]. cbn [fst] in *.
    destruct (IH s1 l1) as (evs & E & F).
    exists (evs1 ++ evs). split; [by rewrite E, E1, <- app_assoc|]. by apply Forall_app.
Qed.

Lemma phase2_new_events (vs : list video) (s : state) (l : list string) :
  ∃ evs, log (fold_left step2 vs (s, l)).1 = log s ++ evs
         ∧ Forall (Cover.phase2_event folder) evs
         ∧ ∀ i t, Summarize i t ∈ evs
                  ↔ i ∈ id <$> vs ∧ files (disk s) !! spath i = None
                    ∧ files (disk s) !! tpath i = Some t.
Proof.
  revert s l. induction vs as [|v vs IH]; intros s l; cbn [fold_left fmap list_fmap].
  - exists []. rewrite app_nil_r. split; [done|]. split; [done|].
    intros i t. split; [by intros ?%elem_of_nil | by intros [?%elem_of_nil _]].
  - destruct (phase2_step_sources s l v) as (Hs & _ & evs1 & E1 & F1 & S1).
    pose proof (phase2_step_frame w a folder s l v) as Hframe.
    pose proof (phase2_step_keeps w a folder s l v) as Hkeeps.
    destruct (step2 (s, l) v) as [s1 l1]. cbn [fst snd] in *.
    destruct (IH s1 l1) as (evs & E & F & S).
    exists (evs1 ++ evs). split; [by rewrite E, E1, <- app_assoc|].
    split; [by apply Forall_app|].
    intros i t. rewrite elem_of_app, S1, S, elem_of_cons.
    rewrite (Hframe (tpath i)) by apply transcript_summary_ne.
    split.
    + intros [(-> & ? & ?) | (? & Hnone & ?)]; [by auto|].
      split; [by right|]. split; [|done].
      apply eq_None_not_Some. intros Hx%Hkeeps. by rewrite Hnone in Hx.
    + intros ([->|Hin] & Hnone & Ht); [by left|].
      destruct (decide (i = id v)) as [->|Hne]; [by left|].
      right. split; [done|]. split; [|done].
      rewrite Hframe; [done|]. by intros [_ ?]%summary_path_inj.
Qed.

End PhaseFacts.

(** ** A whole run, from a run root that holds nothing yet *)

Lemma head_filter_id (vs : list video) (i : string) :
  head (filter (λ v, id v = i) vs) = None ↔ i ∉ id <$> vs.
Proof.
  induction vs as [|v vs IH]; cbn [fmap list_fmap].
  - rewrite filter_nil. split; [intros _; apply not_elem_of_nil | done].
  - rewrite filter_cons, not_elem_of_cons. destruct (decide (id v = i)) as [E|E].
    + split; [done | by intros [? _]].
    + rewrite IH. split; [by intros ? | by intros [_ ?]].
Qed.

Section RunSources.
Variable w : world.
Variable a : args.
Variable folder : path.
Variable fs : filesystem.
Variable vs : list video.
Hypothesis Hfresh : Obs.fresh folder fs.

Abbreviation tpath i := (Store.transcript_path folder i).
Abbreviation spath i := (Store.summary_path folder i).
Abbreviation ids := (id <$> vs).
Abbreviation after1 := (Pipeline.phase1 w a folder vs (State fs [])).
Abbreviation after2 := (Pipeline.phase2 w a folder [] vs after1.1).

Lemma phase2_keeps_transcripts (s : state) (i : string) :
  files (disk (Pipeline.phase2 w a folder [] vs s).1) !! tpath i = files (disk s) !! tpath i.
Proof. apply phase2_frame. intros v _. apply transcript_summary_ne. Qed.

Lemma run_transcripts (i : string) :
  files (disk after2.1) !! tpath i
  = if bool_decide (i ∈ ids) then Cover.transcript_source w fs folder i else None.
Proof.
  rewrite phase2_keeps_transcripts. unfold Pipeline.phase1.
  rewrite phase1_transcripts by (left; apply Hfresh). cbn [disk].
  by rewrite (proj1 (Hfresh i)).
Qed.

Lemma run_summaries_after_phase1 (i : string) :
  files (disk after1.1) !! spath i
  = if bool_decide (i ∈ ids) then Cover.summary_source a fs folder i else None.
Proof.
  unfold Pipeline.phase1.
  rewrite phase1_summaries by (left; apply Hfresh). cbn [disk].
  by rewrite (proj2 (Hfresh i)).
Qed.

Lemma run_summaries (i : string) :
  files (disk after2.1) !! spath i
  = match head (filter (λ v, id v = i) vs) with
    | None => None
    | Some v =>
        match Cover.summary_source a fs folder i with
        | Some text => Some text
        | None =>
            match Cover.transcript_source w fs folder i with
            | Some t => Cover.generated_summary w a v t
            | None => None
            end
        end
    end.
Proof.
  unfold Pipeline.phase2 at 1. rewrite phase2_summaries.
  rewrite run_summaries_after_phase1.
  pose proof (run_transcripts i) as Ht. rewrite phase2_keeps_transcripts in Ht. rewrite Ht.
  pose proof (head_filter_id vs i) as Hhead.
  case_bool_decide as Hin.
  - destruct (head _) as [v|]; [done|]. by destruct (proj1 Hhead eq_refl).
  - rewrite (proj2 Hhead Hin). done.
Qed.

Lemma run_processed_ids :
  after1.2 = filter (λ i, is_Some (files (disk after2.1) !! tpath i)) ids.
Proof.
  unfold Pipeline.phase1 at 1. rewrite phase1_ids. cbn [app disk].
  apply filter_ext_elem. intros i Hin.
  by rewrite run_transcripts, bool_decide_eq_true_2.
Qed.

Lemma run_summarized_ids :
  after2.2 = filter (λ i, is_Some (files (disk after2.1) !! spath i)) ids.
Proof. unfold Pipeline.phase2. by rewrite phase2_ids at 1. Qed.

Lemma run_summarize_calls (i t : string) :
  Summarize i t ∈ log after2.1
  ↔ i ∈ ids ∧ Cover.transcript_source w fs folder i = Some t
    ∧ Cover.summary_source a fs folder i = None.
Proof.
  pose proof (run_transcripts i) as Ht. rewrite phase2_keeps_transcripts in Ht.
  pose proof (run_summaries_after_phase1 i) as Hs.
  unfold Pipeline.phase2.
  destruct (phase2_new_events w a folder vs after1.1 []) as (evs & -> & _ & Hevs).
  rewrite elem_of_app, Hevs, Ht, Hs.
  split.
  - intros [H | (Hin & H1 & H2)].
    + apply phase1_no_summarize in H. by apply elem_of_nil in H.
    + by rewrite bool_decide_eq_true_2 in H1, H2.
  - intros (Hin & H1 & H2). right. by rewrite !bool_decide_eq_true_2.
Qed.

Lemma run_log_split :
  ∃ l1 l2, log after2.1 = l1 ++ l2
           ∧ l1 = log after1.1
           ∧ Forall (Cover.phase1_event folder) l1
           ∧ Forall (Cover.phase2_event folder) l2.
Proof.
  unfold Pipeline.phase2.
  destruct (phase2_new_events w a folder vs after1.1 []) as (l2 & E2 & F2 & _).
  exists (log after1.1), l2. split; [done|]. split; [done|]. split; [|done].
  unfold Pipeline.phase1.
  destruct (phase1_new_events w a folder vs (State fs []) []) as (l1 & -> & F1). done.
Qed.

End RunSources.

(** [main] as the two phases run from the new run root. *)
Lemma main_run (w : world) (a : args) (fs : filesystem) :
  let created := Store.create_datetime_folder (folder_stamp w) fs in
  let vs := Resolver.collect w a in
  let r1 := Pipeline.phase1 w a created.1 vs (State created.2 []) in
  let r2 := Pipeline.phase2 w a created.1 [] vs r1.1 in
  disk (Pipeline.main w a fs).1 = disk r2.1
  ∧ (∀ i t, Summarize i t ∈ log (Pipeline.main w a fs).1 ↔ Summarize i t ∈ log r2.1)
  ∧ (Pipeline.main w a fs).2
    = match vs with
      | [] => None
      | _ :: _ => Some (Report (length r1.2) 0 (length r2.2) (Pipeline.id_line r2.2) None)
      end.
Proof.
  cbv zeta. unfold Pipeline.main, Pipeline.run_phases.
  destruct (Store.create_datetime_folder (folder_stamp w) fs) as [folder fs'].
  destruct (Resolver.collect w a) as [|v vs] eqn:E.
  - cbn. split; [done|]. split; [|done].
    intros i t. split; intros H; list_cases H. done.
  - cbn [fst snd]. destruct (Pipeline.phase1 _ _ _ _ _) as [s1 l1].
    cbn [fst snd]. destruct (Pipeline.phase2 _ _ _ _ _ _) as [s2 l2]. done.
Qed.

Lemma created_root_sources (w : world) (a : args) (fs : filesystem) (i : string) :
  Obs.listed fs →
  let created := Store.create_datetime_folder (folder_stamp w) fs in
  Cover.transcript_source w created.2 created.1 i = Cover.transcript_source w fs created.1 i
  ∧ Cover.summary_source a created.2 created.1 i = Cover.summary_source a fs created.1 i.
Proof.
  intros Hl. cbv zeta.
  destruct (created_root_is_fresh (folder_stamp w) fs Hl) as (_ & Hfiles & Hfe).
  unfold Cover.transcript_source, Cover.summary_source. by rewrite Hfe, Hfiles.
Qed.

(** X14: a run deletes nothing and changes no file other than the
    transcripts and summaries of the resolved videos in its own run root:
    every path either holds after the run what it held before, or is such
    an artifact path and holds a file when the run ends. *)
Theorem run_touches_only_its_artifacts (w : world) (a : args) (fs : filesystem) (p : path) :
  let folder := (Store.create_datetime_folder (folder_stamp w) fs).1 in
  let end_ := disk (Pipeline.main w a fs).1 in
  files end_ !! p = files fs !! p
  ∨ (is_Some (files end_ !! p)
     ∧ ∃ v, v ∈ Resolver.collect w a
            ∧ (p = Store.transcript_path folder (id v)
               ∨ p = Store.summary_path folder (id v))).
Proof.
  cbv zeta. destruct (main_run w a fs) as (-> & _).
  set (folder := (Store.create_datetime_folder (folder_stamp w) fs).1).
  set (fs' := (Store.create_datetime_folder (folder_stamp w) fs).2).
  assert (files fs' = files fs) as Hfiles by done.
  set (vs := Resolver.collect w a).
  unfold Pipeline.phase2, Pipeline.phase1.
  set (s1 := (fold_left (Pipeline.phase1_step w a folder) vs (State fs' [], [])).1).
  set (s2 := (fold_left (Pipeline.phase2_step w a folder []) vs (s1, [])).1).
  destruct (decide (Exists (λ v, p = Store.transcript_path folder (id v)
                                 ∨ p = Store.summary_path folder (id v)) vs)) as [Hex|Hex].
  - apply Exists_exists in Hex as (v & Hv & Hp).
    destruct (files (disk s2) !! p) as [x|] eqn:E; [right; eauto|].
    left. destruct (files fs !! p) as [y|] eqn:Ey; [|done].
    assert (is_Some (files (disk s2) !! p)) as [z Hz]; [|congruence].
    apply phase2_keeps, phase1_keeps. cbn [disk]. rewrite Hfiles, Ey. eauto.
  - left. rewrite <- Hfiles.
    assert (∀ v, v ∈ vs → p ≠ Store.transcript_path folder (id v)
                          ∧ p ≠ Store.summary_path folder (id v)) as Hne.
    { intros v Hv. split; intros ->; apply Hex, Exists_exists; eauto. }
    unfold s2. rewrite phase2_frame by (intros v Hv; by apply Hne).
    unfold s1. by rewrite phase1_frame by exact Hne.
Qed.

(** X15: the two phases do not interleave.  The log of a run is the log of
    Phase 1 followed by what Phase 2 adds; the first part holds only copies,
    extractor calls, transcript writes and Phase 1 messages, the second only
    summarizer calls, summary writes and Phase 2 messages, and no event is
    of both kinds. *)
Theorem phases_do_not_interleave (w : world) (a : args) (folder : path)
    (all_videos : list video) (fs : filesystem) :
  ∃ l1 l2,
    log (Pipeline.run_phases w a folder all_videos (State fs [])).1 = l1 ++ l2
    ∧ l1 = log (Pipeline.phase1 w a folder all_videos (State fs [])).1
    ∧ Forall (Cover.phase1_event folder) l1
    ∧ Forall (Cover.phase2_event folder) l2
    ∧ ∀ e, ¬ (Cover.phase1_event folder e ∧ Cover.phase2_event folder e).
Proof.
  destruct (run_log_split w a folder fs all_videos) as (l1 & l2 & E & E1 & F1 & F2).
  exists l1, l2. split; [|split; [done|split; [done|split; [done|]]]].
  - rewrite <- E. unfold Pipeline.run_phases.
    destruct (Pipeline.phase1 _ _ _ _ _) as [s1 i1]. cbn [fst].
    by destruct (Pipeline.phase2 _ _ _ _ _ _) as [s2 i2].
  - intros [src dst|i|q text|i t|m]; cbn; try tauto.
    + intros [[i Hi] [j Hj]]. subst q. by apply transcript_summary_ne in Hj.
    + destruct m; tauto.
Qed.

(** X16: the terminal report of a run counts files.  A run that resolves
    no video prints no report.  Any other run prints one: the videos counted
    as processed are the resolved ids whose transcript is in the run root
    when the run ends, those counted and listed as summarized are the
    resolved ids whose summary is there, and no video is ever counted or
    listed as skipped. *)
Theorem report_counts_files_of_the_run (w : world) (a : args) (fs : filesystem) :
  Obs.listed fs →
  let folder := (Store.create_datetime_folder (folder_stamp w) fs).1 in
  let run := Pipeline.main w a fs in
  let ids := id <$> Resolver.collect w a in
  let with_transcript :=
    filter (λ i, is_Some (files (disk run.1) !! Store.transcript_path folder i)) ids in
  let with_summary :=
    filter (λ i, is_Some (files (disk run.1) !! Store.summary_path folder i)) ids in
  run.2
  = match ids with
    | [] => None
    | _ :: _ =>
        Some (Report (length with_transcript) 0 (length with_summary)
                     (Pipeline.id_line with_summary) None)
    end.
Proof.
  intros Hl. cbv zeta.
  destruct (created_root_is_fresh (folder_stamp w) fs Hl) as (Hfresh & _).
  destruct (main_run w a fs) as (-> & _ & ->). cbn zeta in Hfresh.
  rewrite <- (run_processed_ids w a _ _ (Resolver.collect w a) Hfresh).
  rewrite <- (run_summarized_ids w a _ _ (Resolver.collect w a)).
  by destruct (Resolver.collect w a).
Qed.

Lemma report_counts_files_of_the_run_witness :
  let w := Scenario.world_ok in
  let a := Scenario.args_ids ["V1"; "V2"] in
  let fs := Scenario.disk_with_prior in
  let folder := (Store.create_datetime_folder (folder_stamp w) fs).1 in
  let run := Pipeline.main w a fs in
  let ids := id <$> Resolver.collect w a in
  let with_transcript :=
    filter (λ i, is_Some (files (disk run.1) !! Store.transcript_path folder i)) ids in
  let with_summary :=
    filter (λ i, is_Some (files (disk run.1) !! Store.summary_path folder i)) ids in
  run.2
  = match ids with
    | [] => None
    | _ :: _ =>
        Some (Report (length with_transcript) 0 (length with_summary)
                     (Pipeline.id_line with_summary) None)
    end.
Proof.
  apply (report_counts_files_of_the_run Scenario.world_ok (Scenario.args_ids ["V1"; "V2"])
           Scenario.disk_with_prior).
  intros name rest [x H]. cbn in H.
  apply lookup_singleton_Some in H as [H _]. injection H as <- _.
  cbn. by left.
Defined.

Example report_sample :
  (Pipeline.main Scenario.world_ok (Scenario.args_ids ["nope"]) Scenario.disk_with_prior).2
  = None
  ∧ (Pipeline.main Scenario.world_ok (Scenario.args_ids ["V1"; "V2"])
       Scenario.disk_with_prior).2
    = Some (Report 1 0 1 (Some "V1") None).
Proof. split; by vm_compute. Qed.

(** X17: where the transcript files of a run root come from.  When the run
    ends, the transcript path of a resolved id holds the transcript the
    store found in an earlier run root, unchanged, or else the extracted
    transcript if that is not empty, or else nothing; the transcript path of
    any other id holds nothing. *)
Theorem transcript_is_copy_or_extraction (w : world) (a : args) (fs : filesystem)
    (i : string) :
  Obs.listed fs →
  let folder := (Store.create_datetime_folder (folder_stamp w) fs).1 in
  files (disk (Pipeline.main w a fs).1) !! Store.transcript_path folder i
  = if bool_decide (i ∈ id <$> Resolver.collect w a)
    then Cover.transcript_source w fs folder i
    else None.
Proof.
  intros Hl. cbv zeta.
  destruct (created_root_is_fresh (folder_stamp w) fs Hl) as (Hfresh & _).
  destruct (created_root_sources w a fs i Hl) as (<- & _).
  destruct (main_run w a fs) as (-> & _). cbn zeta in Hfresh.
  by apply run_transcripts.
Qed.

Lemma transcript_is_copy_or_extraction_witness :
  let w := Scenario.world_ok in
  let a := Scenario.args_ids ["V1"; "V2"] in
  let fs := Scenario.disk_with_prior in
  let folder := (Store.create_datetime_folder (folder_stamp w) fs).1 in
  files (disk (Pipeline.main w a fs).1) !! Store.transcript_path folder "V1"
  = if bool_decide ("V1" ∈ id <$> Resolver.collect w a)
    then Cover.transcript_source w fs folder "V1"
    else None.
Proof.
  apply (transcript_is_copy_or_extraction Scenario.world_ok (Scenario.args_ids ["V1"; "V2"])
           Scenario.disk_with_prior "V1").
  intros name rest [x H]. cbn in H.
  apply lookup_singleton_Some in H as [H _]. injection H as <- _.
  cbn. by left.
Defined.

(** X18: when the summarizer is called.  A run calls the summarizer on a
    text for a video id exactly when the id is resolved, that text is the
    transcript Phase 1 obtained for it, and Phase 1 carried no earlier
    summary forward (which it does only with [--include-previous]). *)
Theorem summarizer_is_called_for_missing_summaries (w : world) (a : args)
    (fs : filesystem) (i t : string) :
  Obs.listed fs →
  let folder := (Store.create_datetime_folder (folder_stamp w) fs).1 in
  Summarize i t ∈ log (Pipeline.main w a fs).1
  ↔ i ∈ id <$> Resolver.collect w a
    ∧ Cover.transcript_source w fs folder i = Some t
    ∧ Cover.summary_source a fs folder i = None.
Proof.
  intros Hl. cbv zeta.
  destruct (created_root_is_fresh (folder_stamp w) fs Hl) as (Hfresh & _).
  destruct (created_root_sources w a fs i Hl) as (<- & <-).
  destruct (main_run w a fs) as (_ & -> & _). cbn zeta in Hfresh.
  by apply run_summarize_calls.
Qed.

Lemma summarizer_is_called_for_missing_summaries_witness :
  let w := Scenario.world_ok in
  let a := Cover.args_ids_previous ["V1"; "V2"] in
  let fs := Scenario.disk_with_prior in
  let folder := (Store.create_datetime_folder (folder_stamp w) fs).1 in
  Summarize "V1" "earlier words" ∈ log (Pipeline.main w a fs).1
  ↔ "V1" ∈ id <$> Resolver.collect w a
    ∧ Cover.transcript_source w fs folder "V1" = Some "earlier words"
    ∧ Cover.summary_source a fs folder "V1" = None.
Proof.
  apply (summarizer_is_called_for_missing_summaries Scenario.world_ok
           (Cover.args_ids_previous ["V1"; "V2"]) Scenario.disk_with_prior
           "V1" "earlier words").
  intros name rest [x H]. cbn in H.
  apply lookup_singleton_Some in H as [H _]. injection H as <- _.
  cbn. by left.
Defined.

(** X19: where the summary files of a run root come from.  When the run
    ends, the summary path of an id that is not resolved holds nothing; that
    of a resolved id holds the earlier summary Phase 1 carried forward,
    unchanged, or else the header and completion generated from the
    transcript Phase 1 obtained, with the details of the first resolved
    video of that id, or nothing when there is no transcript or the success
    test fails. *)
Theorem summary_is_copy_or_generated (w : world) (a : args) (fs : filesystem)
    (i : string) :
  Obs.listed fs →
  let folder := (Store.create_datetime_folder (folder_stamp w) fs).1 in
  files (disk (Pipeline.main w a fs).1) !! Store.summary_path folder i
  = match head (filter (λ v, id v = i) (Resolver.collect w a)) with
    | None => None
    | Some v =>
        match Cover.summary_source a fs folder i with
        | Some text => Some text
        | None =>
            match Cover.transcript_source w fs folder i with
            | Some t => Cover.generated_summary w a v t
            | None => None
            end
        end
    end.
Proof.
  intros Hl. cbv zeta.
  destruct (created_root_is_fresh (folder_stamp w) fs Hl) as (Hfresh & _).
  destruct (created_root_sources w a fs i Hl) as (<- & <-).
  destruct (main_run w a fs) as (-> & _). cbn zeta in Hfresh.
  by apply run_summaries.
Qed.

Lemma summary_is_copy_or_generated_witness :
  let w := Scenario.world_ok in
  let a := Cover.args_ids_previous ["V1"; "V2"] in
  let fs := Cover.disk_with_summary in
  let folder := (Store.create_datetime_folder (folder_stamp w) fs).1 in
  files (disk (Pipeline.main w a fs).1) !! Store.summary_path folder "V1"
  = match head (filter (λ v, id v = "V1") (Resolver.collect w a)) with
    | None => None
    | Some v =>
        match Cover.summary_source a fs folder "V1" with
        | Some text => Some text
        | None =>
            match Cover.transcript_source w fs folder "V1" with
            | Some t => Cover.generated_summary w a v t
            | None => None
            end
        end
    end.
Proof.
  apply (summary_is_copy_or_generated Scenario.world_ok
           (Cover.args_ids_previous ["V1"; "V2"]) Cover.disk_with_summary "V1").
  intros name rest [x H]. cbn in H.
  apply lookup_insert_Some in H as [[H _]|[_ H]].
  - injection H as <- _. cbn. by left.
  - apply lookup_singleton_Some in H as [H _]. injection H as <- _. cbn. by left.
Defined.

Example run_sources_sample :
  let w := Scenario.world_ok in
  let fs := Cover.disk_with_summary in
  let folder := (Store.create_datetime_folder (folder_stamp w) fs).1 in
  let carried := Pipeline.main w (Cover.args_ids_previous ["V1"]) fs in
  let renewed := Pipeline.main w (Scenario.args_ids ["V1"]) fs in
  folder = ["processed"; "010124_1200"]
  ∧ files (disk carried.1) !! Store.transcript_path folder "V1" = Some "earlier words"
  ∧ files (disk carried.1) !! Store.summary_path folder "V1" = Some "earlier summary"
  ∧ Obs.written_paths (log carried.1)
    = [Store.transcript_path folder "V1"; Store.summary_path folder "V1"]
  ∧ carried.2 = Some (Report 1 0 1 (Some "V1") None)
  ∧ Summarize "V1" "earlier words" ∈ log renewed.1
  ∧ files (disk renewed.1) !! Store.summary_path folder "V1"
    = Cover.generated_summary w (Scenario.args_ids ["V1"])
        (Video "V1" "one" (Scenario.today - 10) (Some false) (Some "UCA") (Some "Chan A"))
        "earlier words".
Proof. cbv zeta. repeat split; try by vm_compute. apply list_elem_of_In. vm_compute. tauto. Qed.

(** ** More on the resolver *)

Section ChannelShape.
Variable w : world.
Variable channel : string.
Variable cutoff : Z.
Variable listing : list playlist_item.

Let known (v : video) : Prop :=
  ∃ item, item ∈ listing ∧ cutoff ≤ item_published_at item
          ∧ (v = Cover.legacy_video item ∨ v = Cover.channel_video channel item).

Let tagged (v : video) : Prop :=
  ∃ item, item ∈ listing ∧ cutoff ≤ item_published_at item
          ∧ v = Cover.channel_video channel item.

Lemma scan_page_known (items : list playlist_item) (batch : list string)
    (m : gmap string video) :
  (∀ item, item ∈ items → item ∈ listing) →
  map_Forall (λ _, known) m →
  map_Forall (λ _, known) (Resolver.scan_page cutoff items batch m).2.
Proof.
  revert batch m. induction items as [|item items IH]; intros batch m Hin Hm; cbn; [done|].
  case_bool_decide as Hrecent; [|done].
  apply IH; [intros ? ?; apply Hin; by right|].
  apply map_Forall_insert_2; [|done].
  exists item. split; [apply Hin; by left|]. split; [done|]. by left.
Qed.

Lemma filter_live_tagged (details : list (string * bool)) (m : gmap string video)
    (videos videos' : list video) :
  map_Forall (λ _, known) m → Forall tagged videos →
  Resolver.filter_live channel details m videos = Some videos' →
  Forall tagged videos'.
Proof.
  revert m videos. induction details as [|[i live] details IH]; intros m videos Hm Hv; cbn.
  - by intros [= <-].
  - destruct (m !! i) as [v|] eqn:E; [|done].
    destruct (Hm i v E) as (item & Hin & Hrecent & Hv'). destruct live; cbn.
    + by apply IH.
    + assert (Video (id v) (title v) (published_at v) (Some false) (Some channel)
                    (channel_title v) = Cover.channel_video channel item) as ->
        by (by destruct Hv' as [-> | ->]).
      apply IH.
      * apply map_Forall_insert_2; [|done]. exists item. auto.
      * apply Forall_app; split; [done|]. repeat constructor. exists item. auto.
Qed.

Lemma fetch_tagged (later : list (list playlist_item)) (page : list playlist_item)
    (n : nat) (videos videos' : list video) (calls calls' : list api_call) :
  (∀ item, item ∈ page ++ concat later → item ∈ listing) →
  Forall tagged videos →
  Resolver.fetch w channel cutoff page later n videos calls = (Some videos', calls') →
  Forall tagged videos'.
Proof.
  revert page n videos calls.
  induction later as [|next later IH]; intros page n videos calls Hin Hv; cbn;
    assert (∀ item, item ∈ page → item ∈ listing) as Hpage
      by (intros item H; apply Hin, elem_of_app; by left);
    pose proof (scan_page_known page [] ∅ Hpage (map_Forall_empty _)) as Hm;
    destruct (Resolver.scan_page cutoff page [] ∅) as [batch m]; cbn in Hm;
    destruct batch as [|b batch]; try (by intros [= <- _]);
    destruct (Resolver.filter_live _ _ _ _) as [vs|] eqn:E; try done;
    pose proof (filter_live_tagged _ _ _ _ Hm Hv E) as Hvs.
  - by intros [= <- _].
  - apply IH; [|done]. intros item H. apply Hin. cbn [concat].
    rewrite !elem_of_app. right. by apply elem_of_app.
Qed.

Lemma channel_videos_tagged (first : list playlist_item)
    (later : list (list playlist_item)) (v : video) :
  uploads w channel = Some (first, later) →
  listing = first ++ concat later →
  v ∈ Resolver.get_channel_videos w channel cutoff →
  tagged v.
Proof.
  unfold Resolver.get_channel_videos, Resolver.get_channel_videos_calls.
  intros Hup Hl Hv. rewrite Hup in Hv.
  destruct (Resolver.fetch _ _ _ _ _ _ _ _) as [[vs|] calls] eqn:E; cbn in Hv;
    [|by apply elem_of_nil in Hv].
  assert (∀ item, item ∈ first ++ concat later → item ∈ listing) as Hin
    by (intros item Hitem; by rewrite Hl).
  pose proof (fetch_tagged _ _ _ _ _ _ _ Hin (Forall_nil_2 _) E) as H.
  by apply (proj1 (Forall_forall _ _) H).
Qed.

End ChannelShape.

(** X20: what channel mode resolves.  Every video of the resolved list is
    the dictionary built from an item of the upload listing of a channel
    that one of the inputs names: it carries that item's id, title and
    publication time, the flag [is_live_content = False] and the channel id,
    and the item is not older than the cutoff. *)
Theorem channel_mode_resolves_recent_uploads (w : world) (a : args) (v : video) :
  video_ids a = false →
  v ∈ Resolver.collect w a →
  ∃ handle channel first later item,
    handle ∈ inputs a
    ∧ get_channel_id_from_handle w handle = Some channel
    ∧ uploads w channel = Some (first, later)
    ∧ item ∈ first ++ concat later
    ∧ Resolver.cutoff_date w a ≤ item_published_at item
    ∧ v = Cover.channel_video channel item.
Proof.
  intros Hmode. rewrite collect_concat, elem_of_concat_fmap.
  intros (handle & Hin & Hv). unfold Obs.contribution in Hv. rewrite Hmode in Hv.
  unfold Resolver.add_channel in Hv.
  destruct (get_channel_id_from_handle w handle) as [channel|] eqn:Ec;
    [|by apply elem_of_nil in Hv].
  destruct (PyStr.truthy channel); [|by apply elem_of_nil in Hv].
  assert (v ∈ Resolver.get_channel_videos w channel (Resolver.cutoff_date w a)) as Hv'.
  { by destruct (Resolver.get_channel_videos w channel (Resolver.cutoff_date w a)). }
  clear Hv. pose proof Hv' as Hup.
  unfold Resolver.get_channel_videos, Resolver.get_channel_videos_calls in Hup.
  destruct (uploads w channel) as [[first later]|] eqn:Eu; [|by apply elem_of_nil in Hup].
  destruct (channel_videos_tagged w channel _ _ first later v Eu eq_refl Hv')
    as (item & Hitem & Hrecent & ->).
  exists handle, channel, first, later, item. done.
Qed.

Lemma channel_mode_resolves_recent_uploads_witness :
  let w := Scenario.world_ok in
  let a := Scenario.args_channels ["@chanA"] in
  ∃ handle channel first later item,
    handle ∈ inputs a
    ∧ get_channel_id_from_handle w handle = Some channel
    ∧ uploads w channel = Some (first, later)
    ∧ item ∈ first ++ concat later
    ∧ Resolver.cutoff_date w a ≤ item_published_at item
    ∧ Video "V1" "one" (Scenario.today - 10) (Some false) (Some "UCA") None
      = Cover.channel_video channel item.
Proof.
  apply (channel_mode_resolves_recent_uploads Scenario.world_ok
           (Scenario.args_channels ["@chanA"])
           (Video "V1" "one" (Scenario.today - 10) (Some false) (Some "UCA") None)).
  - reflexivity.
  - apply list_elem_of_In. vm_compute. left. reflexivity.
Defined.

Lemma legacy_scan_page_prefix (cutoff : Z) (items rest : list playlist_item)
    (videos : list video) :
  (Legacy.scan_page cutoff items videos).1
  = videos ++ (Cover.legacy_video <$> Cover.recent_prefix cutoff items)
  ∧ Cover.recent_prefix cutoff (items ++ rest)
    = if (Legacy.scan_page cutoff items videos).2
      then Cover.recent_prefix cutoff items
      else items ++ Cover.recent_prefix cutoff rest.
Proof.
  revert videos. induction items as [|item items IH]; intros videos;
    cbn [Legacy.scan_page Cover.recent_prefix app fst snd].
  - by rewrite app_nil_r.
  - case_bool_decide; [|by rewrite app_nil_r].
    destruct (IH (videos ++ [Video (item_video_id item) (item_title item)
                                   (item_published_at item) None None None]))
      as [-> E].
    rewrite E. split.
    + by rewrite <- app_assoc.
    + by destruct (Legacy.scan_page cutoff items _).2.
Qed.

Lemma legacy_fetch_prefix (cutoff : Z) (later : list (list playlist_item))
    (page : list playlist_item) (n : nat) (videos : list video) (calls : list api_call) :
  (Legacy.fetch cutoff page later n videos calls).1
  = videos ++ (Cover.legacy_video <$> Cover.recent_prefix cutoff (page ++ concat later)).
Proof.
  revert page n videos calls.
  induction later as [|next later IH]; intros page n videos calls;
    cbn [Legacy.fetch concat];
    destruct (legacy_scan_page_prefix cutoff page [] videos) as [E1 E0].
  - destruct (Legacy.scan_page cutoff page videos) as [videos' returned].
    cbn [fst snd] in *. subst videos'. rewrite app_nil_r.
    by destruct returned.
  - destruct (legacy_scan_page_prefix cutoff page (next ++ concat later) videos) as [_ E2].
    destruct (Legacy.scan_page cutoff page videos) as [videos' returned].
    cbn [fst snd] in *. subst videos'. rewrite E2. destruct returned; [done|].
    cbn [Cover.recent_prefix] in E0. rewrite !app_nil_r in E0.
    by rewrite IH, E0, fmap_app, <- app_assoc.
Qed.

(** X21: the older variant returns, for a channel, exactly the dictionaries
    of the longest run of recent items at the head of the upload listing,
    the pages taken one after the other; it stops at the first item older
    than the cutoff on whatever page that is. *)
Theorem legacy_listing_is_recent_prefix (w : world) (channel : string) (cutoff : Z) :
  Legacy.get_channel_videos w channel cutoff
  = match uploads w channel with
    | None => []
    | Some (first, later) =>
        Cover.legacy_video <$> Cover.recent_prefix cutoff (first ++ concat later)
    end.
Proof.
  unfold Legacy.get_channel_videos, Legacy.get_channel_videos_calls.
  destruct (uploads w channel) as [[first later]|]; [|done].
  by rewrite legacy_fetch_prefix.
Qed.

Lemma add_named_video (w : world) (a : args) (video_id : string) :
  video_ids a = true →
  Resolver.add_video_id w a [] video_id = option_list (Cover.named_video w video_id).
Proof.
  intros Hmode. unfold Resolver.add_video_id, Cover.named_video.
  destruct (Resolver.get_video_details w video_id) as [d|]; [|done].
  destruct (default false (is_live_content d)); [done|]. by rewrite Hmode.
Qed.

Lemma named_video_id (w : world) (video_id : string) (v : video) :
  Cover.named_video w video_id = Some v → id v = video_id.
Proof.
  unfold Cover.named_video, Resolver.get_video_details.
  destruct (video_lookup w video_id) as [item|]; [|done]. cbn.
  destruct (api_live item); [done|]. by intros [= <-].
Qed.

(** X22: what explicit-id mode resolves.  The resolved list holds, in input
    order, the details of each named id that the metadata service knows and
    does not flag as live content, and nothing else; neither the lookback
    window nor the clock plays a part, and the ids of the list are the
    inputs that pass that test. *)
Theorem id_mode_resolves_named_videos (w : world) (a : args) :
  video_ids a = true →
  Resolver.collect w a = omap (Cover.named_video w) (inputs a)
  ∧ id <$> Resolver.collect w a
    = filter (λ i, is_Some (Cover.named_video w i)) (inputs a).
Proof.
  intros Hmode. rewrite collect_concat. unfold Obs.contribution. rewrite Hmode.
  induction (inputs a) as [|i l [IH1 IH2]]; [done|].
  cbn [fmap list_fmap concat omap list_omap]. rewrite filter_cons.
  rewrite add_named_video by done.
  change (list_fmap _ _ (Resolver.add_video_id w a []) l)
    with (Resolver.add_video_id w a [] <$> l).
  change (list_omap _ _ (Cover.named_video w) l) with (omap (Cover.named_video w) l).
  rewrite IH1.
  destruct (Cover.named_video w i) as [v|] eqn:E; cbn [option_list app].
  - rewrite decide_True by eauto. split; [done|].
    change (id v :: (id <$> omap (Cover.named_video w) l)
            = i :: filter (λ i, is_Some (Cover.named_video w i)) l).
    rewrite (named_video_id w i v E). f_equal.
    by rewrite <- IH2, IH1.
  - rewrite decide_False by (by intros [? ?]). split; [done|]. by rewrite <- IH2, IH1.
Qed.

Lemma id_mode_resolves_named_videos_witness :
  let w := Scenario.world_ok in
  let a := Scenario.args_ids ["V1"; "L1"; "nope"; "OLD"] in
  Resolver.collect w a = omap (Cover.named_video w) (inputs a)
  ∧ id <$> Resolver.collect w a
    = filter (λ i, is_Some (Cover.named_video w i)) (inputs a).
Proof.
  apply (id_mode_resolves_named_videos Scenario.world_ok
           (Scenario.args_ids ["V1"; "L1"; "nope"; "OLD"])).
  reflexivity.
Defined.

Example resolver_sample :
  id <$> Resolver.collect Scenario.world_ok (Scenario.args_ids ["V1"; "L1"; "nope"; "OLD"])
  = ["V1"; "OLD"]
  ∧ Legacy.get_channel_videos Scenario.world_ok "UCA" (Scenario.today - Scenario.day)
    = [Video "V1" "one" (Scenario.today - 10) None None None]
  ∧ Resolver.get_channel_videos Scenario.world_ok "UCA" (Scenario.today - Scenario.day)
    = [Video "V1" "one" (Scenario.today - 10) (Some false) (Some "UCA") None].
Proof. repeat split; by vm_compute. Qed.

(** ** The older variant on a completion without content *)

(** X23: in the older variant a completion whose content is [None] stops
    the batch.  The iteration has written the header of the summary file
    when [f.write(summary)] raises; nothing catches the exception, so no
    later video of the list is looked at, and the file that is left holds
    the header alone.  A later run finds that file in place and takes it for
    the summary: it does not call the summarizer for the video again. *)
Theorem legacy_empty_completion_stops_batch (w : world) (a : args) (s : state)
    (v : video) (vs : list video) (t : string) :
  files (disk s) !! Legacy.summary_filename (id v) = None →
  files (disk s) !! Legacy.transcript_filename (id v) = Some t →
  Summarizer.summarize_with_openrouter w t (prompt a) "qwen/qwen3-30b-a3b-instruct-2507"
  = None →
  let stopped :=
    State (Pipeline.put (Legacy.summary_filename (id v)) (Legacy.summary_header w v) (disk s))
          (log s ++ [Print (ProcessingSummary (id v)); Summarize (id v) t;
                     Write (Legacy.summary_filename (id v)) (Legacy.summary_header w v)]) in
  Legacy.phase2 w a (v :: vs) s = Crashed stopped
  ∧ files (disk stopped) !! Legacy.summary_filename (id v) = Some (Legacy.summary_header w v)
  ∧ ∀ w' a', Legacy.phase2 w' a' [v] (State (disk stopped) [])
             = Running (State (disk stopped)
                          [Print (ProcessingSummary (id v));
                           Print (SummaryAlreadyExists (Legacy.summary_filename (id v)))]).
Proof.
  intros Hs Ht Hnone. cbv zeta.
  assert (∀ l s', fold_left (Legacy.phase2_step w a) l (Crashed s') = Crashed s') as Hstay
    by (induction l; intros; cbn; auto).
  split; [|split].
  - unfold Legacy.phase2. cbn [fold_left]. rewrite <- (Hstay vs). f_equal.
    unfold Legacy.phase2_step, Store.file_exists. cbv zeta.
    change (disk (Pipeline.say (ProcessingSummary (id v)) s)) with (disk s).
    rewrite bool_decide_eq_false_2 by (rewrite Hs; by intros [? ?]).
    rewrite Ht, Hnone.
    unfold Pipeline.write_file, Pipeline.emit, Pipeline.say, Pipeline.emit.
    cbn [disk log]. by rewrite <- !app_assoc.
  - cbn. by rewrite lookup_insert_eq.
  - intros w' a'. unfold Legacy.phase2. cbn [fold_left].
    unfold Legacy.phase2_step, Store.file_exists. cbv zeta.
    rewrite bool_decide_eq_true_2; [done|].
    cbn. rewrite lookup_insert_eq. eauto.
Qed.

Lemma legacy_empty_completion_stops_batch_witness :
  let w := Cover.world_silent in
  let a := Scenario.args_ids ["V1"; "V2"] in
  let v := Video "V1" "one" (Scenario.today - 10) None None None in
  let vs := [Video "V2" "two" (Scenario.today - 20) None None None] in
  let s := State (Filesystem None {[ Legacy.transcript_filename "V1" := "hello there";
                                     Legacy.transcript_filename "V2" := "more words" ]}) [] in
  let stopped :=
    State (Pipeline.put (Legacy.summary_filename (id v)) (Legacy.summary_header w v) (disk s))
          (log s ++ [Print (ProcessingSummary (id v)); Summarize (id v) "hello there";
                     Write (Legacy.summary_filename (id v)) (Legacy.summary_header w v)]) in
  Legacy.phase2 w a (v :: vs) s = Crashed stopped
  ∧ files (disk stopped) !! Legacy.summary_filename (id v) = Some (Legacy.summary_header w v)
  ∧ ∀ w' a', Legacy.phase2 w' a' [v] (State (disk stopped) [])
             = Running (State (disk stopped)
                          [Print (ProcessingSummary (id v));
                           Print (SummaryAlreadyExists (Legacy.summary_filename (id v)))]).
Proof.
  cbv zeta.
  apply (legacy_empty_completion_stops_batch Cover.world_silent
           (Scenario.args_ids ["V1"; "V2"])
           (State (Filesystem None {[ Legacy.transcript_filename "V1" := "hello there";
                                      Legacy.transcript_filename "V2" := "more words" ]}) [])
           (Video "V1" "one" (Scenario.today - 10) None None None)
           [Video "V2" "two" (Scenario.today - 20) None None None] "hello there");
    by vm_compute.
Defined.

(** ** One run after another *)

Lemma created_root_listed (base : string) (fs : filesystem) :
  let created := Store.create_datetime_folder base fs in
  ∃ name,
    created.1 = Store.processed_dir ++ [name]
    ∧ processed_entries created.2
      = Some (default [] (processed_entries fs) ++ [(name, true)])
    ∧ files created.2 = files fs
    ∧ (name ∉ (default [] (processed_entries fs)).*1)
    ∧ (Store.is_datetime_name base = true → Store.is_datetime_name name = true).
Proof.
  cbv zeta. unfold Store.create_datetime_folder. cbn [fst snd processed_entries files].
  set (entries := default [] (processed_entries fs)).
  pose proof (first_free_is_free entries.*1 base) as Hfree. rewrite length_fmap in Hfree.
  destruct (first_free_minimal entries.*1 base (S (length entries)) O) as (k & E & _).
  eexists. split; [done|]. split; [done|]. split; [done|]. split; [done|].
  rewrite E. apply folder_candidate_datetime.
Qed.

Lemma search_folders_some (fs : filesystem) (i : string) (folders : list path)
    (other : path) :
  other ∈ folders → is_Some (files fs !! Store.transcript_path other i) →
  is_Some (Store.search_folders fs i folders).1.
Proof.
  induction folders as [|f folders IH]; intros Hin Hsome; [by apply elem_of_nil in Hin|].
  cbn [Store.search_folders]. unfold Store.file_exists. case_bool_decide as Hf; [by eexists|].
  apply IH; [|done]. apply elem_of_cons in Hin as [-> | Hin]; done.
Qed.

Lemma find_existing_some (fs : filesystem) (i : string) (current : path) (name : string)
    (entries : list (string * bool)) :
  processed_entries fs = Some entries →
  (name, true) ∈ entries →
  Store.is_datetime_name name = true →
  Store.processed_dir ++ [name] ≠ current →
  is_Some (files fs !! Store.transcript_path (Store.processed_dir ++ [name]) i) →
  is_Some (Store.find_existing_transcript fs i current).1.
Proof.
  intros He Hin Hname Hne Hsome. unfold Store.find_existing_transcript. rewrite He.
  rewrite datetime_folders_filter. cbn [app].
  apply search_folders_some with (Store.processed_dir ++ [name]); [|done].
  apply (list_elem_of_fmap_2 (λ entry : string * bool, Store.processed_dir ++ [entry.1])
           _ (name, true)).
  apply list_elem_of_filter. split; [|done].
  unfold Cover.is_prior_root. cbn [fst snd]. by rewrite Hname, bool_decide_eq_true_2.
Qed.

Lemma main_log (w : world) (a : args) (fs : filesystem) (e : event) :
  let created := Store.create_datetime_folder (folder_stamp w) fs in
  let vs := Resolver.collect w a in
  let r1 := Pipeline.phase1 w a created.1 vs (State created.2 []) in
  let r2 := Pipeline.phase2 w a created.1 [] vs r1.1 in
  e ∈ log (Pipeline.main w a fs).1 → e = Print NoVideosFound ∨ e ∈ log r2.1.
Proof.
  cbv zeta. unfold Pipeline.main, Pipeline.run_phases.
  destruct (Store.create_datetime_folder (folder_stamp w) fs) as [folder fs'].
  destruct (Resolver.collect w a) as [|v vs] eqn:E.
  - cbn. intros H. list_cases H. by left.
  - cbn [fst snd]. destruct (Pipeline.phase1 _ _ _ _ _) as [s1 l1].
    cbn [fst snd]. destruct (Pipeline.phase2 _ _ _ _ _ _) as [s2 l2]. by right.
Qed.

(** X24: a transcript is extracted once, whatever the number of runs.
    When the folder stamp has the date and time form, a transcript that a
    run leaves in its run root is found by every later run started on the
    resulting file system, in whatever world and with whatever arguments:
    the later run works in a different run root, never calls the extractor
    for that video, and if it resolves the video its own run root holds a
    transcript of it in the end. *)
Theorem later_run_does_not_extract_again (w : world) (a : args) (fs : filesystem)
    (w' : world) (a' : args) (i : string) :
  Store.is_datetime_name (folder_stamp w) = true →
  let first := Pipeline.main w a fs in
  let folder := (Store.create_datetime_folder (folder_stamp w) fs).1 in
  is_Some (files (disk first.1) !! Store.transcript_path folder i) →
  let second := Pipeline.main w' a' (disk first.1) in
  let folder' := (Store.create_datetime_folder (folder_stamp w') (disk first.1)).1 in
  folder' ≠ folder
  ∧ (Extract i ∉ log second.1)
  ∧ (i ∈ id <$> Resolver.collect w' a' →
     is_Some (files (disk second.1) !! Store.transcript_path folder' i)).
Proof.
  intros Hname. cbv zeta.
  destruct (main_run w a fs) as (-> & _).
  destruct (created_root_listed (folder_stamp w) fs)
    as (name1 & Ef1 & Ee1 & _ & _ & Hdt1). cbv zeta in *.
  specialize (Hdt1 Hname).
  set (c1 := Store.create_datetime_folder (folder_stamp w) fs) in *.
  set (r1 := Pipeline.phase1 w a c1.1 (Resolver.collect w a) (State c1.2 [])).
  set (r2 := Pipeline.phase2 w a c1.1 [] (Resolver.collect w a) r1.1).
  assert (processed_entries (disk r2.1)
          = Some (default [] (processed_entries fs) ++ [(name1, true)])) as Hentries.
  { rewrite <- Ee1. unfold r2, Pipeline.phase2.
    rewrite (proj1 (phase2_same_prior w a c1.1 (Resolver.collect w a) r1.1 [])).
    apply (proj1 (phase1_same_prior w a c1.1 (Resolver.collect w a) (State c1.2 []) [])). }
  rewrite Ef1. set (fs1 := disk r2.1) in *. clearbody fs1. clear r2 r1 Ef1 Ee1 c1.
  intros Hsome.
  destruct (created_root_listed (folder_stamp w') fs1)
    as (name2 & Ef2 & Ee2 & Efiles2 & Hfree2 & _). cbv zeta in *.
  destruct (main_run w' a' fs1) as (Hdisk & _).
  pose proof (main_log w' a' fs1 (Extract i)) as Hlog. cbv zeta in *.
  set (c2 := Store.create_datetime_folder (folder_stamp w') fs1) in *.
  rewrite Hentries in Ee2, Hfree2.
  set (entries1 := default [] (processed_entries fs) ++ [(name1, true)]) in *.
  change (default [] (Some entries1)) with entries1 in Ee2, Hfree2.
  assert (Store.processed_dir ++ [name1] ≠ c2.1) as Hne.
  { rewrite Ef2. intros [= ->]. apply Hfree2. unfold entries1.
    rewrite fmap_app. apply elem_of_app. right. by left. }
  assert (is_Some (Store.find_existing_transcript c2.2 i c2.1).1) as Hfind.
  { apply (find_existing_some c2.2 i c2.1 name1 _ Ee2);
      [|exact Hdt1|exact Hne|by rewrite Efiles2].
    apply elem_of_app. left. unfold entries1. apply elem_of_app. right. by left. }
  split; [done|]. split.
  - intros [Hprint | Hin]%Hlog; [done|].
    unfold Pipeline.phase2 in Hin.
    destruct (phase2_new_events w' a' c2.1 (Resolver.collect w' a')
                (Pipeline.phase1 w' a' c2.1 (Resolver.collect w' a') (State c2.2 [])).1 [])
      as (evs & E & F & _).
    rewrite E in Hin. apply elem_of_app in Hin as [Hin | Hin].
    + apply phase1_extracts in Hin as [Hin | Hnone]; [by apply elem_of_nil in Hin|].
      cbn [disk] in Hnone. rewrite Hnone in Hfind. by destruct Hfind.
    + by apply (proj1 (Forall_forall _ _) F) in Hin.
  - intros (v & -> & Hv)%list_elem_of_fmap. rewrite Hdisk.
    apply phase2_keeps.
    destruct (Store.find_existing_transcript c2.2 (id v) c2.1) as [[t|] esp] eqn:Ef;
      [|by destruct Hfind].
    by destruct (phase1_copies w' a' c2.1 (Resolver.collect w' a') (State c2.2 []) []
                   v t esp Hv Ef) as [_ ?].
Qed.

Lemma later_run_does_not_extract_again_witness :
  let w := Scenario.world_ok in
  let a := Scenario.args_ids ["V1"; "V2"] in
  let fs := Scenario.empty_disk in
  let first := Pipeline.main w a fs in
  let second := Pipeline.main w a (disk first.1) in
  let folder := (Store.create_datetime_folder (folder_stamp w) fs).1 in
  let folder' := (Store.create_datetime_folder (folder_stamp w) (disk first.1)).1 in
  folder' ≠ folder
  ∧ (Extract "V1" ∉ log second.1)
  ∧ ("V1" ∈ id <$> Resolver.collect w a →
     is_Some (files (disk second.1) !! Store.transcript_path folder' "V1")).
Proof.
  cbv zeta.
  apply (later_run_does_not_extract_again Scenario.world_ok (Scenario.args_ids ["V1"; "V2"])
           Scenario.empty_disk Scenario.world_ok (Scenario.args_ids ["V1"; "V2"]) "V1").
  - reflexivity.
  - vm_compute. eauto.
Defined.

Example two_runs_sample :
  let w := Scenario.world_ok in
  let a := Scenario.args_ids ["V1"; "V2"] in
  let first := Pipeline.main w a Scenario.empty_disk in
  let second := Pipeline.main w a (disk first.1) in
  (Store.create_datetime_folder (folder_stamp w) (disk first.1)).1
  = ["processed"; "010124_1200_1"]
  ∧ Obs.written_paths (log second.1)
    = [["processed"; "010124_1200_1"; "transcripts"; "V1_transcript.txt"];
       ["processed"; "010124_1200_1"; "summaries"; "V1_summary.md"]]
  ∧ second.2 = Some (Report 1 0 1 (Some "V1") None).
Proof. repeat split; by vm_compute. Qed.

(** ** Phase 1 and the current run's transcript path *)



Section BlindFacts.
Variable w : world.
Variable a : args.
Variable folder : path.

Abbreviation tpath i := (Store.transcript_path folder i).
Abbreviation step1 := (Pipeline.phase1_step w a folder).
Abbreviation tsrc fs i := (Cover.transcript_source w fs folder i).





End BlindFacts.



Example phase1_writes_sample :
  let run := Pipeline.main Scenario.world_ok (Scenario.args_ids ["V1"; "V2"])
               Scenario.empty_disk in
  Pipeline.get_transcript Scenario.world_ok "V2" = None
  ∧ Extract "V2" ∈ log run.1
  ∧ Obs.written_paths (log run.1)
    = [Store.transcript_path Scenario.root "V1"; Store.summary_path Scenario.root "V1"].
Proof.
  cbv zeta. split; [by vm_compute|]. split; [|by vm_compute].
  apply list_elem_of_In. vm_compute. tauto.
Qed.
